(** * CHUJ modpack tooling: resolution and packaging pipeline

    A shallow embedding of [scripts/resolve_manifests.py] and
    [scripts/build_mrpack.py], and the properties of the pipeline that
    the specification states about them.

    Conventions of the embedding.
    - A Python object that comes out of [json] or [tomllib] is a [value];
      a [dict] is an association list in insertion order, read with
      [dict_get].  A Python dict holds a key once, and so do the lists
      that the code builds.
    - A Python exception is an [exn]; a function that can raise returns a
      [result].  Functions that also print, query the registry or write
      files run in the [IO] monad over a [world].
    - A [str] is a [string] holding its UTF-8 bytes.  Byte-wise
      lexicographic comparison of UTF-8 is code-point comparison, so
      [String.leb] is Python's [<=] on [str].
    - A [Path] is the string it was built from ([pathlib]'s clean-up of
      redundant separators is not modelled), and a file is identified
      with the object that the (de)serialiser reads from or writes to it.
    - What the Python standard library computes and is not reproduced
      here ([str] of a non-string object, [str.lower] beyond ASCII,
      [datetime.fromisoformat], the host validation inside
      [urllib.parse.urlsplit]) is a field of [pylib]; the registry is an
      oracle [registry]. *)

From Stdlib Require Import ZArith List String Ascii Bool Lia Permutation Sorted DecimalString.
From stdpp Require Import gmap strings.
Import ListNotations.

Set Warnings "-register-all".
Open Scope string_scope.

(** ** Python objects and exceptions *)

Inductive value : Type :=
| VNone
| VBool (b : bool)
| VInt (n : Z)
| VFloat (lit : string)
| VStr (s : string)
| VList (l : list value)
| VDict (d : list (string * value)).

Abbreviation dict := (list (string * value)).

Inductive exn : Type :=
| ValueError (msg : string)
| TypeError (msg : string)
| KeyError (key : string)
| IndexError (msg : string)
| RuntimeError (msg : string)
| FileNotFoundError (msg : string).

Inductive result (A : Type) : Type :=
| Ok (a : A)
| Raise (e : exn).

Arguments Ok {A} a.
Arguments Raise {A} e.

Definition bind {A B : Type} (r : result A) (k : A -> result B) : result B :=
  match r with
  | Ok a => k a
  | Raise e => Raise e
  end.

Notation "x <- e ;; k" := (bind e (fun x => k))
  (at level 20, e at level 99, k at level 200, only parsing).

Definition is_ok {A : Type} (r : result A) : bool :=
  match r with Ok _ => true | Raise _ => false end.

(** [datetime] objects: an instant in microseconds, with or without a
    UTC offset.  Python refuses to order a naive against an aware one. *)
Inductive datetime : Type :=
| Naive (us : Z)
| Aware (us : Z).

(** The parts of the Python standard library that stay abstract. *)
Record pylib : Type := {
  py_repr : value -> string;
  str_lower : string -> string;
  fromisoformat : string -> result datetime;
  check_netloc : string -> result unit
}.

(** ** Strings *)

Definition str_of_nat (n : nat) : string := NilZero.string_of_uint (Nat.to_uint n).

(** [str(v)] as an f-string computes it. *)
Definition py_str (L : pylib) (v : value) : string :=
  match v with
  | VStr s => s
  | _ => py_repr L v
  end.

(** [s.lower()] where [s] is ASCII, as a URL scheme is *)
Definition lower_ascii (c : ascii) : ascii :=
  let n := nat_of_ascii c in
  if (65 <=? n)%nat && (n <=? 90)%nat then ascii_of_nat (n + 32) else c.

Fixpoint lower (s : string) : string :=
  match s with
  | EmptyString => EmptyString
  | String c rest => String (lower_ascii c) (lower rest)
  end.

(** [s.split(c)] for a one-character separator: never the empty list. *)
Fixpoint split_char (c : ascii) (s : string) : list string :=
  match s with
  | EmptyString => [""]
  | String a rest =>
      if Ascii.eqb a c then "" :: split_char c rest
      else match split_char c rest with
           | [] => [String a ""]
           | p :: ps => String a p :: ps
           end
  end.

(** [needle in s] *)
Fixpoint contains (needle s : string) : bool :=
  String.prefix needle s ||
  match s with
  | EmptyString => false
  | String _ rest => contains needle rest
  end.

Definition nonempty (s : string) : bool := negb (String.eqb s "").

(** ** Dictionaries *)

Fixpoint dict_get (d : dict) (k : string) : option value :=
  match d with
  | [] => None
  | (k', v) :: rest => if String.eqb k' k then Some v else dict_get rest k
  end.

(** [d.get(k)] *)
Definition get (d : dict) (k : string) : value :=
  match dict_get d k with
  | Some v => v
  | None => VNone
  end.

(** [d[k]] *)
Definition subscript (d : dict) (k : string) : result value :=
  match dict_get d k with
  | Some v => Ok v
  | None => Raise (KeyError k)
  end.

(** [k in d] *)
Definition has_key (d : dict) (k : string) : bool :=
  match dict_get d k with
  | Some _ => true
  | None => false
  end.

(** [v == s] for a [str] s *)
Definition eq_str (v : value) (s : string) : bool :=
  match v with
  | VStr t => String.eqb t s
  | _ => false
  end.

(** [isinstance(v, str) and v] *)
Definition is_nonempty_str (v : value) : bool :=
  match v with
  | VStr s => nonempty s
  | _ => false
  end.

(** [isinstance(v, int)]: [bool] is a subclass of [int]. *)
Definition int_value (v : value) : option Z :=
  match v with
  | VInt n => Some n
  | VBool b => Some (if b then 1 else 0)%Z
  | _ => None
  end.

(** [isinstance(v, int) and v > 0] *)
Definition is_positive_int (v : value) : bool :=
  match int_value v with
  | Some n => (0 <? n)%Z
  | None => false
  end.

Definition VALID_SIDES : list string := ["both"; "client"; "server"].

(** [sorted(VALID_SIDES)] inside an f-string *)
Definition VALID_SIDES_sorted_str : string := "['both', 'client', 'server']".

Definition is_valid_side (s : string) : bool := existsb (String.eqb s) VALID_SIDES.

(** ** build_mrpack.py *)

(** [side not in VALID_SIDES]: membership in a set hashes the object. *)
Definition not_in_VALID_SIDES (side : value) : result bool :=
  match side with
  | VStr s => Ok (negb (is_valid_side s))
  | VList _ => Raise (TypeError "unhashable type: 'list'")
  | VDict _ => Raise (TypeError "unhashable type: 'dict'")
  | _ => Ok true
  end.

(** The body of the loop of [validate_entries]. *)
Definition validate_entry (manifest_name : string) (i : nat) (entry : value) : result dict :=
  let at_i := manifest_name ++ "[" ++ str_of_nat i ++ "]" in
  match entry with
  | VDict e =>
      let filename := get e "filename" in
      let side := get e "side" in
      let downloads := get e "downloads" in
      let hashes := get e "hashes" in
      let file_size := get e "fileSize" in
      if negb (is_nonempty_str filename) then
        Raise (ValueError (at_i ++ ".filename must be a non-empty string"))
      else
        bad_side <- not_in_VALID_SIDES side ;;
        if bad_side then
          Raise (ValueError (at_i ++ ".side must be one of " ++ VALID_SIDES_sorted_str))
        else if negb (match downloads with
                      | VList (u :: us) => forallb is_nonempty_str (u :: us)
                      | _ => false
                      end) then
          Raise (ValueError (at_i ++ ".downloads must be a non-empty array of URLs"))
        else if negb (match hashes with
                      | VDict h => has_key h "sha1" || has_key h "sha512"
                      | _ => false
                      end) then
          Raise (ValueError (at_i ++ ".hashes must include at least sha1 or sha512"))
        else if negb (is_positive_int file_size) then
          Raise (ValueError (at_i ++ ".fileSize must be an integer > 0"))
        else Ok e
  | _ => Raise (ValueError (at_i ++ " must be an object"))
  end.

Fixpoint validate_entries_from (manifest_name : string) (i : nat) (entries : list value)
  : result (list dict) :=
  match entries with
  | [] => Ok []
  | entry :: rest =>
      e <- validate_entry manifest_name i entry ;;
      es <- validate_entries_from manifest_name (S i) rest ;;
      Ok (e :: es)
  end.

Definition validate_entries (entries : value) (manifest_name : string) : result (list dict) :=
  match entries with
  | VList l => validate_entries_from manifest_name 0 l
  | _ => Raise (ValueError (manifest_name ++ " must be a JSON array"))
  end.

Definition env_for_side (side : value) : dict :=
  if eq_str side "client" then
    [("client", VStr "required"); ("server", VStr "unsupported")]
  else if eq_str side "server" then
    [("client", VStr "unsupported"); ("server", VStr "required")]
  else
    [("client", VStr "required"); ("server", VStr "required")].

Fixpoint build_files (L : pylib) (entries : list dict) (side : string) (path_prefix : string)
  : result (list dict) :=
  match entries with
  | [] => Ok []
  | entry :: rest =>
      entry_side <- subscript entry "side" ;;
      if negb (eq_str entry_side "both" || eq_str entry_side side) then
        build_files L rest side path_prefix
      else
        filename <- subscript entry "filename" ;;
        hashes <- subscript entry "hashes" ;;
        downloads <- subscript entry "downloads" ;;
        file_size <- subscript entry "fileSize" ;;
        env_side <- subscript entry "side" ;;
        files <- build_files L rest side path_prefix ;;
        Ok ([ ("path", VStr (path_prefix ++ "/" ++ py_str L filename));
              ("hashes", hashes);
              ("downloads", downloads);
              ("fileSize", file_size);
              ("env", VDict (env_for_side env_side)) ] :: files)
  end.

(** ** urllib.parse.urlparse

    [urlsplit] followed by the split of the parameters of the last path
    segment, as CPython 3.11 does it.  The validation of a bracketed or
    non-ASCII host is [check_netloc]. *)

Record ParseResult : Type := {
  scheme : string;
  netloc : string;
  path : string;
  params : string;
  query : string;
  fragment : string
}.

(** [(s[:i], s[i:])] for the first index [i] whose character satisfies
    [p], and [(s, "")] when there is none. *)
Fixpoint break_at (p : ascii -> bool) (s : string) : string * string :=
  match s with
  | EmptyString => ("", "")
  | String c rest =>
      if p c then ("", s)
      else let '(a, b) := break_at p rest in (String c a, b)
  end.

Fixpoint all_chars (p : ascii -> bool) (s : string) : bool :=
  match s with
  | EmptyString => true
  | String c rest => p c && all_chars p rest
  end.

Fixpoint any_char (p : ascii -> bool) (s : string) : bool :=
  match s with
  | EmptyString => false
  | String c rest => p c || any_char p rest
  end.

Fixpoint remove_chars (p : ascii -> bool) (s : string) : string :=
  match s with
  | EmptyString => ""
  | String c rest => if p c then remove_chars p rest else String c (remove_chars p rest)
  end.

Fixpoint lstrip (p : ascii -> bool) (s : string) : string :=
  match s with
  | EmptyString => ""
  | String c rest => if p c then lstrip p rest else s
  end.

Definition tail (s : string) : string :=
  match s with
  | EmptyString => ""
  | String _ rest => rest
  end.

Definition is_char (c : ascii) : ascii -> bool := Ascii.eqb c.

Definition is_c0_control_or_space (c : ascii) : bool := (nat_of_ascii c <=? 32)%nat.

Definition is_unsafe_url_byte (c : ascii) : bool :=
  is_char "009" c || is_char "013" c || is_char "010" c.

Definition is_ascii_alpha (c : ascii) : bool :=
  let n := nat_of_ascii c in
  ((65 <=? n) && (n <=? 90) || (97 <=? n) && (n <=? 122))%nat.

Definition is_ascii_digit (c : ascii) : bool :=
  let n := nat_of_ascii c in ((48 <=? n) && (n <=? 57))%nat.

Definition is_scheme_char (c : ascii) : bool :=
  is_ascii_alpha c || is_ascii_digit c || is_char "+" c || is_char "-" c || is_char "." c.

Definition is_ascii_byte (c : ascii) : bool := (nat_of_ascii c <? 128)%nat.

Definition uses_params : list string :=
  [""; "ftp"; "hdl"; "prospero"; "http"; "imap"; "https"; "shttp"; "rtsp"; "rtspu";
   "sip"; "sips"; "mms"; "sftp"; "tel"].

Definition mem_str (s : string) (l : list string) : bool := existsb (String.eqb s) l.

(** The scheme of a URL and what follows its colon. *)
Definition split_scheme (url : string) : string * string :=
  let '(before, rest) := break_at (is_char ":") url in
  match before, rest with
  | String c0 _, String _ after =>
      if is_ascii_alpha c0 && all_chars is_scheme_char before
      then (lower before, after)
      else ("", url)
  | _, _ => ("", url)
  end.

Definition is_netloc_delim (c : ascii) : bool :=
  is_char "/" c || is_char "?" c || is_char "#" c.

(** [s.split(c, 1)] when [c] occurs in [s], else [(s, "")]. *)
Definition split_once (c : ascii) (s : string) : string * string :=
  let '(a, b) := break_at (is_char c) s in (a, tail b).

(** [(s[:i+1], s[i+1:])] for the last index [i] of a slash, [("", s)]
    without a slash. *)
Fixpoint rsplit_slash (s : string) : string * string :=
  match s with
  | EmptyString => ("", "")
  | String c rest =>
      let '(h, t) := rsplit_slash rest in
      if is_char "/" c then (String c h, t)
      else match h with
           | EmptyString => ("", String c t)
           | _ => (String c h, t)
           end
  end.

Definition splitparams (url : string) : string * string :=
  let '(h, last) := rsplit_slash url in
  if any_char (is_char ";") last then
    let '(a, b) := split_once ";" last in (h ++ a, b)
  else (url, "").

Definition urlparse (L : pylib) (url0 : string) : result ParseResult :=
  let url := remove_chars is_unsafe_url_byte (lstrip is_c0_control_or_space url0) in
  let '(sch, url) := split_scheme url in
  let '(loc, url) :=
    if String.prefix "//" url
    then break_at is_netloc_delim (tail (tail url))
    else ("", url) in
  let lb := any_char (is_char "[") loc in
  let rb := any_char (is_char "]") loc in
  if xorb lb rb then Raise (ValueError "Invalid IPv6 URL")
  else
    let '(url, frag) := split_once "#" url in
    let '(url, qry) := split_once "?" url in
    _ <- (if lb || negb (all_chars is_ascii_byte loc) then check_netloc L loc else Ok tt) ;;
    let '(url, prm) :=
      if mem_str sch uses_params && any_char (is_char ";") url
      then splitparams url
      else (url, "") in
    Ok {| scheme := sch; netloc := loc; path := url; params := prm;
          query := qry; fragment := frag |}.

(** ** resolve_manifests.py: configuration *)

Definition SUPPORTED_LOADERS : list string := ["fabric"; "forge"; "quilt"; "neoforge"].

(** [SUPPORTED_LOADERS] inside an f-string *)
Definition SUPPORTED_LOADERS_str : string := "('fabric', 'forge', 'quilt', 'neoforge')".

Definition MODRINTH_FORMAT_VERSION : Z := 1.

Definition MODRINTH_GAME : string := "minecraft".

Definition as_table (raw : value) (name : string) : result dict :=
  match raw with
  | VDict d => Ok d
  | _ => Raise (ValueError (name ++ " must be a TOML table"))
  end.

Definition as_nonempty_str (raw : value) (field_name : string) : result string :=
  match raw with
  | VStr s =>
      if nonempty s then Ok s
      else Raise (ValueError (field_name ++ " must be a non-empty string"))
  | _ => Raise (ValueError (field_name ++ " must be a non-empty string"))
  end.

Definition parse_template (data : dict) : result (dict * string * string) :=
  pack <- as_table (get data "pack") "pack" ;;
  deps <- as_table (get data "dependencies") "dependencies" ;;
  name <- as_nonempty_str (get pack "name") "pack.name" ;;
  summary <- as_nonempty_str (get pack "summary") "pack.summary" ;;
  version_id <- as_nonempty_str (get pack "debug_version") "pack.debug_version" ;;
  minecraft <- as_nonempty_str (get deps "minecraft") "dependencies.minecraft" ;;
  loader <- as_nonempty_str (get deps "loader") "dependencies.loader" ;;
  loader_version <- as_nonempty_str (get deps "loader_version") "dependencies.loader_version" ;;
  if negb (mem_str loader SUPPORTED_LOADERS) then
    Raise (ValueError ("dependencies.loader must be one of " ++ SUPPORTED_LOADERS_str
                       ++ ", got '" ++ loader ++ "'"))
  else
    Ok ([ ("formatVersion", VInt MODRINTH_FORMAT_VERSION);
          ("game", VStr MODRINTH_GAME);
          ("name", VStr name);
          ("summary", VStr summary);
          ("versionId", VStr version_id);
          ("dependencies", VDict [("minecraft", VStr minecraft); (loader, VStr loader_version)]) ],
        minecraft, loader).

(** [[part for part in path.split("/") if part]] *)
Definition path_parts (p : string) : list string :=
  List.filter nonempty (split_char "/" p).

Definition normalize_project_url (L : pylib) (url : string) : result string :=
  parsed <- urlparse L url ;;
  if negb (mem_str (scheme parsed) ["http"; "https"]) then
    Raise (ValueError ("Invalid project URL: " ++ url))
  else if negb (mem_str (netloc parsed) ["modrinth.com"; "www.modrinth.com"]) then
    Raise (ValueError ("Unsupported host in URL: " ++ url))
  else
    match path_parts (path parsed) with
    | [p0; p1] =>
        if String.eqb p0 "project" then Ok ("https://modrinth.com/project/" ++ p1)
        else Raise (ValueError ("Invalid Modrinth project URL path: " ++ url))
    | _ => Raise (ValueError ("Invalid Modrinth project URL path: " ++ url))
    end.

(** An entry of the flattened list that [collect_entries] returns: the
    dict with the keys [url] and [side] and the optional [name] and
    [version]. *)
Record reference : Type := {
  ref_url : string;
  ref_side : string;
  ref_name : option string;
  ref_version : option string
}.

(** The body of the inner loop of [collect_entries]; [where_] is
    [f"{top_key}.{category}.{item_key}[{i}]"]. *)
Definition collect_item (L : pylib) (where_ : string) (raw_item : value) : result reference :=
  match raw_item with
  | VDict item =>
      url <- as_nonempty_str (get item "url") (where_ ++ ".url") ;;
      side <- as_nonempty_str (get item "side") (where_ ++ ".side") ;;
      if negb (is_valid_side side) then
        Raise (ValueError (where_ ++ ".side must be one of " ++ VALID_SIDES_sorted_str))
      else
        let version := get item "version" in
        if match version with
           | VNone => false
           | VStr s => negb (nonempty s)
           | _ => true
           end
        then Raise (ValueError (where_ ++ ".version must be a non-empty string when provided"))
        else
          norm <- normalize_project_url L url ;;
          Ok {| ref_url := norm;
                ref_side := side;
                ref_name := match get item "name" with
                            | VStr n => if nonempty n then Some n else None
                            | _ => None
                            end;
                ref_version := match version with
                               | VStr s => Some s
                               | _ => None
                               end |}
  | _ => Raise (ValueError (where_ ++ " must be an object"))
  end.

Fixpoint collect_items (L : pylib) (where_ : string) (i : nat) (items : list value)
  : result (list reference) :=
  match items with
  | [] => Ok []
  | raw_item :: rest =>
      r <- collect_item L (where_ ++ "[" ++ str_of_nat i ++ "]") raw_item ;;
      rs <- collect_items L where_ (S i) rest ;;
      Ok (r :: rs)
  end.

Fixpoint collect_categories (L : pylib) (top_key item_key : string) (cats : dict)
  : result (list reference) :=
  match cats with
  | [] => Ok []
  | (category, raw_category) :: rest =>
      category_table <- as_table raw_category (top_key ++ "." ++ category) ;;
      match get category_table item_key with
      | VList items =>
          rs <- collect_items L (top_key ++ "." ++ category ++ "." ++ item_key) 0 items ;;
          rs' <- collect_categories L top_key item_key rest ;;
          Ok (rs ++ rs')%list
      | _ => Raise (ValueError (top_key ++ "." ++ category ++ "." ++ item_key
                                ++ " must be an array"))
      end
  end.

Definition collect_entries (L : pylib) (data : dict) (top_key item_key : string)
  : result (list reference) :=
  match get data top_key with
  | VNone => Ok []
  | top =>
      top_table <- as_table top top_key ;;
      collect_categories L top_key item_key top_table
  end.

Definition parse_project_id (L : pylib) (url : string) : result string :=
  parsed <- urlparse L url ;;
  match path_parts (path parsed) with
  | [p0; p1] =>
      if String.eqb p0 "project" then Ok p1
      else Raise (ValueError ("Invalid Modrinth project URL path: " ++ url))
  | _ => Raise (ValueError ("Invalid Modrinth project URL path: " ++ url))
  end.

(** ** resolve_manifests.py: version and file selection *)

(** [x in l] for a [str] x and a list of objects *)
Definition str_in (x : string) (l : list value) : bool :=
  existsb (fun v => eq_str v x) l.

(** The test of the loop of [filter_versions]: the version is appended. *)
Definition version_kept (minecraft : string) (loader : option string) (version : dict) : bool :=
  negb (match get version "game_versions" with
        | VList (g :: gs) => negb (str_in minecraft (g :: gs))
        | _ => false
        end)
  && match loader with
     | None => true
     | Some l =>
         negb (match get version "loaders" with
               | VList ls => negb (str_in l ls)
               | _ => true
               end)
     end.

Fixpoint filter_versions (versions : list dict) (minecraft : string) (loader : option string)
  : list dict :=
  match versions with
  | [] => []
  | version :: rest =>
      if version_kept minecraft loader version
      then version :: filter_versions rest minecraft loader
      else filter_versions rest minecraft loader
  end.

(** [ts.replace("Z", "+00:00")] *)
Fixpoint replace_Z (ts : string) : string :=
  match ts with
  | EmptyString => ""
  | String c rest =>
      if is_char "Z" c then "+00:00" ++ replace_Z rest else String c (replace_Z rest)
  end.

Definition parse_timestamp (L : pylib) (ts : string) : result datetime :=
  fromisoformat L (replace_Z ts).

Definition version_sort_key (L : pylib) (version : dict) : result datetime :=
  parse_timestamp L
    (py_str L (match dict_get version "date_published" with
               | Some v => v
               | None => VStr "1970-01-01T00:00:00Z"
               end)).

(** Python's sort is stable: among equal keys the input order is kept,
    also with [reverse=True].  [le ka kb] says that an element of key
    [ka] may stand before one of key [kb]. *)
Fixpoint insert_stable {K A : Type} (le : K -> K -> bool) (k : K) (x : A) (l : list (K * A))
  : list (K * A) :=
  match l with
  | [] => [(k, x)]
  | (k', y) :: rest =>
      if le k k' then (k, x) :: l else (k', y) :: insert_stable le k x rest
  end.

Fixpoint sort_stable {K A : Type} (le : K -> K -> bool) (l : list (K * A)) : list (K * A) :=
  match l with
  | [] => []
  | (k, x) :: rest => insert_stable le k x (sort_stable le rest)
  end.

(** The keys of a sort are all computed before the first comparison. *)
Fixpoint with_keys {K A : Type} (key : A -> result K) (l : list A) : result (list (K * A)) :=
  match l with
  | [] => Ok []
  | x :: rest =>
      k <- key x ;;
      ks <- with_keys key rest ;;
      Ok ((k, x) :: ks)
  end.

Definition instant (d : datetime) : Z :=
  match d with
  | Naive us => us
  | Aware us => us
  end.

Definition is_aware (d : datetime) : bool :=
  match d with
  | Naive _ => false
  | Aware _ => true
  end.

(** Ordering two datetimes raises [TypeError] when exactly one of them
    carries an offset; a sort of two or more keys compares across any
    split of them, so it succeeds only when all are of one kind. *)
Definition comparable (ks : list datetime) : bool :=
  match ks with
  | [] => true
  | k :: rest => forallb (fun k' => Bool.eqb (is_aware k) (is_aware k')) rest
  end.

Definition newer_or_same (a b : datetime) : bool := (instant b <=? instant a)%Z.

(** [sorted(versions, key=version_sort_key, reverse=True)] *)
Definition sort_newest_first (L : pylib) (versions : list dict) : result (list dict) :=
  keyed <- with_keys (version_sort_key L) versions ;;
  if comparable (map fst keyed)
  then Ok (map snd (sort_stable newer_or_same keyed))
  else Raise (TypeError "can't compare offset-naive and offset-aware datetimes").

(** [l[0]] *)
Definition first {A : Type} (l : list A) : result A :=
  match l with
  | x :: _ => Ok x
  | [] => Raise (IndexError "list index out of range")
  end.

Definition select_version (L : pylib) (versions : list dict) (version_number : option string)
  : result dict :=
  match versions with
  | [] => Raise (ValueError "No compatible versions found")
  | _ :: _ =>
      match version_number with
      | Some pin =>
          if nonempty pin then
            let matched :=
              List.filter (fun v => eq_str (get v "version_number") pin) versions in
            match matched with
            | [] => Raise (ValueError ("No compatible version_number='" ++ pin ++ "' found"))
            | [m] => Ok m
            | _ :: _ :: _ =>
                sorted <- sort_newest_first L matched ;;
                first sorted
            end
          else
            versions_sorted <- sort_newest_first L versions ;;
            first versions_sorted
      | None =>
          versions_sorted <- sort_newest_first L versions ;;
          first versions_sorted
      end
  end.

Definition is_primary (f : value) : bool :=
  match f with
  | VDict d => match get d "primary" with
               | VBool true => true
               | _ => false
               end
  | _ => false
  end.

Definition select_file (version_data : dict) : result dict :=
  match get version_data "files" with
  | VList (f0 :: fs) =>
      match List.filter is_primary (f0 :: fs) with
      | VDict p :: _ => Ok p
      | _ =>
          match f0 with
          | VDict d => Ok d
          | _ => Raise (ValueError "Invalid file object in version response")
          end
      end
  | _ => Raise (ValueError "Selected Modrinth version has no files")
  end.

Definition build_lock_entry (file_obj : dict) (side : string) : result dict :=
  let filename := get file_obj "filename" in
  let url := get file_obj "url" in
  let size := get file_obj "size" in
  let hashes := get file_obj "hashes" in
  if negb (is_nonempty_str filename) then
    Raise (ValueError "Missing filename in Modrinth response")
  else if negb (is_nonempty_str url) then
    Raise (ValueError "Missing download URL in Modrinth response")
  else if negb (is_positive_int size) then
    Raise (ValueError "Missing/invalid file size in Modrinth response")
  else
    match hashes with
    | VDict h =>
        let sha1 := get h "sha1" in
        let sha512 := get h "sha512" in
        let out_hashes :=
          ((if is_nonempty_str sha1 then [("sha1", sha1)] else [])
           ++ (if is_nonempty_str sha512 then [("sha512", sha512)] else []))%list in
        match out_hashes with
        | [] => Raise (ValueError "No sha1/sha512 hash provided by Modrinth")
        | _ :: _ =>
            Ok [ ("filename", filename);
                 ("side", VStr side);
                 ("downloads", VList [url]);
                 ("hashes", VDict out_hashes);
                 ("fileSize", size) ]
        end
    | _ => Raise (ValueError "Missing hashes in Modrinth response")
    end.

(** ** Effects: the registry, the console and the file system *)

Record world : Type := {
  fs : gmap string value;
  requests : list string;
  stdout : list string
}.

Definition IO (A : Type) : Type := world -> result A * world.

Definition io_ret {A : Type} (a : A) : IO A := fun w => (Ok a, w).

Definition io_raise {A : Type} (e : exn) : IO A := fun w => (Raise e, w).

Definition io_lift {A : Type} (r : result A) : IO A := fun w => (r, w).

(** An exception ends the computation; what was done before it stays. *)
Definition io_bind {A B : Type} (m : IO A) (k : A -> IO B) : IO B :=
  fun w =>
    match m w with
    | (Ok a, w') => k a w'
    | (Raise e, w') => (Raise e, w')
    end.

Notation "x <~ e ;; k" := (io_bind e (fun x => k))
  (at level 20, e at level 99, k at level 200, only parsing).

Definition print (line : string) : IO unit :=
  fun w => (Ok tt, {| fs := fs w; requests := requests w; stdout := (stdout w ++ [line])%list |}).

(** The registry answers a request by an object or by an exception; the
    answer may depend on the requests made before (a transient failure). *)
Definition registry : Type := list string -> string -> result value.

Definition request_json (R : registry) (url : string) : IO value :=
  fun w => (R (requests w) url,
            {| fs := fs w; requests := (requests w ++ [url])%list; stdout := stdout w |}).

Definition only_dicts (l : list value) : list dict :=
  flat_map (fun item => match item with VDict d => [d] | _ => [] end) l.

Definition fetch_versions (R : registry) (project_id : string) : IO (list dict) :=
  let url := "https://api.modrinth.com/v2/project/" ++ project_id ++ "/version" in
  data <~ request_json R url ;;
  match data with
  | VList l => io_ret (only_dicts l)
  | _ => io_raise (RuntimeError ("Unexpected versions response for project '"
                                 ++ project_id ++ "'"))
  end.

(** [entry["filename"]] of a lock entry, which is a [str] by
    construction. *)
Definition entry_filename (entry : dict) : string :=
  match get entry "filename" with
  | VStr s => s
  | _ => ""
  end.

(** [resolved.sort(key=lambda x: x["filename"].lower())] *)
Definition sort_by_filename (L : pylib) (resolved : list dict) : list dict :=
  map snd (sort_stable String.leb
             (map (fun e => (str_lower L (entry_filename e), e)) resolved)).

(** The first half of the body of the loop of [resolve_entries]: from a
    reference to its lock entry. *)
Definition resolve_entry (L : pylib) (R : registry) (minecraft loader : string)
    (require_loader : bool) (entry : reference) : IO dict :=
  project_id <~ io_lift (parse_project_id L (ref_url entry)) ;;
  versions <~ fetch_versions R project_id ;;
  let filtered_versions :=
    filter_versions versions minecraft (if require_loader then Some loader else None) in
  selected_version <~ io_lift (select_version L filtered_versions (ref_version entry)) ;;
  selected_file <~ io_lift (select_file selected_version) ;;
  io_lift (build_lock_entry selected_file (ref_side entry)).

Definition duplicate_message (filename label : string) : string :=
  "Duplicate resolved filename '" ++ filename ++ "' in " ++ label ++ "; this is ambiguous".

Fixpoint resolve_loop (L : pylib) (R : registry) (minecraft loader label : string)
    (require_loader : bool) (i : nat) (entries : list reference)
    (resolved : list dict) (seen_filenames : gset string) : IO (list dict) :=
  match entries with
  | [] => io_ret resolved
  | entry :: rest =>
      lock_entry <~ resolve_entry L R minecraft loader require_loader entry ;;
      let filename := entry_filename lock_entry in
      if bool_decide (filename ∈ seen_filenames) then
        io_raise (ValueError (duplicate_message filename label))
      else
        _ <~ print ("Resolved " ++ label ++ "[" ++ str_of_nat i ++ "]: "
                    ++ ref_url entry ++ " -> " ++ filename) ;;
        resolve_loop L R minecraft loader label require_loader (S i) rest
          (resolved ++ [lock_entry])%list ({[filename]} ∪ seen_filenames)
  end.

Definition resolve_entries (L : pylib) (R : registry) (entries : list reference)
    (minecraft loader label : string) (require_loader : bool) : IO (list dict) :=
  resolved <~ resolve_loop L R minecraft loader label require_loader 0 entries [] ∅ ;;
  io_ret (sort_by_filename L resolved).

(** ** resolve_manifests.py: the command *)

Record arguments : Type := {
  pack : string;
  template_out : string;
  mods_lock : string;
  resource_packs_lock : string;
  shader_packs_lock : string;
  target : string;
  check : bool
}.

Definition read_toml (p : string) : IO dict :=
  fun w =>
    match fs w !! p with
    | Some (VDict data) => (Ok data, w)
    | Some _ => (Raise (ValueError (p ++ " must contain a TOML object")), w)
    | None => (Raise (FileNotFoundError p), w)
    end.

(** The parent directories that [write_json] creates are not modelled. *)
Definition write_json (p : string) (data : value) : IO unit :=
  fun w => (Ok tt, {| fs := <[p := data]> (fs w); requests := requests w; stdout := stdout w |}).

Definition path_exists (p : string) : IO bool :=
  fun w => (Ok (bool_decide (is_Some (fs w !! p))), w).

(** The loop of [main] over the three categories; [locks] lists, in the
    order of the loop, each category with its references and its lock
    file. *)
Fixpoint main_loop (L : pylib) (R : registry) (args : arguments) (minecraft loader : string)
    (targets : list string) (locks : list (string * (list reference * string))) : IO unit :=
  match locks with
  | [] => io_ret tt
  | (tgt, (entries, lock_path)) :: rest =>
      if negb (mem_str tgt targets) then
        main_loop L R args minecraft loader targets rest
      else
        resolved <~ resolve_entries L R entries minecraft loader tgt (String.eqb tgt "mods") ;;
        let count := " (" ++ str_of_nat (List.length resolved) ++ " entries)" in
        _ <~ (if check args then
                print ("Validated " ++ tgt ++ " -> " ++ lock_path ++ count)
              else
                _ <~ write_json lock_path (VList (map VDict resolved)) ;;
                print ("Wrote " ++ tgt ++ " lock -> " ++ lock_path ++ count)) ;;
        main_loop L R args minecraft loader targets rest
  end.

Definition main (L : pylib) (R : registry) (args : arguments) : IO Z :=
  found <~ path_exists (pack args) ;;
  if negb found then
    io_raise (FileNotFoundError ("Pack config not found: " ++ pack args))
  else
    data <~ read_toml (pack args) ;;
    parsed <~ io_lift (parse_template data) ;;
    let '(template, minecraft, loader) := parsed in
    mods_entries <~ io_lift (collect_entries L data "mods" "mods") ;;
    resource_pack_entries <~ io_lift (collect_entries L data "resourcepacks" "packs") ;;
    shader_pack_entries <~ io_lift (collect_entries L data "shaderpacks" "packs") ;;
    let locks :=
      [ ("mods", (mods_entries, mods_lock args));
        ("resourcepacks", (resource_pack_entries, resource_packs_lock args));
        ("shaderpacks", (shader_pack_entries, shader_packs_lock args)) ] in
    let targets :=
      if String.eqb (target args) "all"
      then ["template"; "mods"; "resourcepacks"; "shaderpacks"]
      else [target args] in
    _ <~ (if mem_str "template" targets then
            if check args then
              print ("Validated template render -> " ++ template_out args)
            else
              _ <~ write_json (template_out args) (VDict template) ;;
              print ("Rendered template -> " ++ template_out args)
          else io_ret tt) ;;
    _ <~ main_loop L R args minecraft loader targets locks ;;
    io_ret 0%Z.

(** ** Fixtures for the examples

    A standard library instance that is enough for the registry's own
    timestamps: [iso_basic] reads [YYYY-MM-DDTHH:MM:SS], naive or with
    the offset [+00:00], and rejects every other string. *)

Fixpoint take_digits (n : nat) (s : string) (acc : Z) : option (Z * string) :=
  match n with
  | O => Some (acc, s)
  | S n' =>
      match s with
      | String c rest =>
          if is_ascii_digit c
          then take_digits n' rest (acc * 10 + Z.of_nat (nat_of_ascii c) - 48)%Z
          else None
      | EmptyString => None
      end
  end.

Definition expect (c : ascii) (s : string) : option string :=
  match s with
  | String a rest => if Ascii.eqb a c then Some rest else None
  | EmptyString => None
  end.

Definition days_from_civil (y m d : Z) : Z :=
  let y' := (if m <=? 2 then y - 1 else y)%Z in
  let era := (y' / 400)%Z in
  let yoe := (y' - era * 400)%Z in
  let doy := ((153 * (if m <=? 2 then m + 9 else m - 3) + 2) / 5 + d - 1)%Z in
  (era * 146097 + (yoe * 365 + yoe / 4 - yoe / 100 + doy) - 719468)%Z.

Definition iso_fields (s : string) : option (Z * string) :=
  match take_digits 4 s 0 with
  | Some (y, s) => match expect "-" s with
  | Some s => match take_digits 2 s 0 with
  | Some (mo, s) => match expect "-" s with
  | Some s => match take_digits 2 s 0 with
  | Some (d, s) => match expect "T" s with
  | Some s => match take_digits 2 s 0 with
  | Some (h, s) => match expect ":" s with
  | Some s => match take_digits 2 s 0 with
  | Some (mi, s) => match expect ":" s with
  | Some s => match take_digits 2 s 0 with
  | Some (sec, s) =>
      Some ((((days_from_civil y mo d * 24 + h) * 60 + mi) * 60 + sec) * 1000000, s)%Z
  | None => None end | None => None end | None => None end | None => None end
  | None => None end | None => None end | None => None end | None => None end
  | None => None end | None => None end | None => None end.

Definition iso_basic (s : string) : result datetime :=
  match iso_fields s with
  | Some (us, "") => Ok (Naive us)
  | Some (us, rest) =>
      if String.eqb rest "+00:00" then Ok (Aware us)
      else Raise (ValueError ("Invalid isoformat string: '" ++ s ++ "'"))
  | None => Raise (ValueError ("Invalid isoformat string: '" ++ s ++ "'"))
  end.

Definition basic_lib : pylib :=
  {| py_repr := fun _ => "<object>";
     str_lower := lower;
     fromisoformat := iso_basic;
     check_netloc := fun _ => Ok tt |}.

(** ** build_mrpack.py: the command

    The rest of the builder: the template check, the build defaults of
    the pack declaration, the index document of an archive and [main].
    An archive is the dict of its members; [dist_dir / name] is
    [joinpath dist name], which is left to [pathlib]. *)

(** [sep.join(parts)] *)
Fixpoint join (sep : string) (parts : list string) : string :=
  match parts with
  | [] => EmptyString
  | [p] => p
  | p :: rest => p ++ sep ++ join sep rest
  end.

(** [d[k] = v]: a key that is there keeps its place. *)
Fixpoint dict_set (d : dict) (k : string) (v : value) : dict :=
  match d with
  | [] => [(k, v)]
  | (k', v') :: rest =>
      if String.eqb k' k then (k, v) :: rest else (k', v') :: dict_set rest k v
  end.

Definition REQUIRED_TEMPLATE_KEYS : list string :=
  ["formatVersion"; "game"; "name"; "summary"; "versionId"; "dependencies"].

Definition validate_template (template : dict) : result unit :=
  match List.filter (fun k => negb (has_key template k)) REQUIRED_TEMPLATE_KEYS with
  | [] => Ok tt
  | missing => Raise (ValueError ("Template missing required keys: " ++ join ", " missing))
  end.

Definition read_json (p : string) : IO value :=
  fun w =>
    match fs w !! p with
    | Some v => (Ok v, w)
    | None => (Raise (FileNotFoundError p), w)
    end.

(** [defaults.get(key, default)] for a [dict[str, str]] *)
Fixpoint get_default (defaults : list (string * string)) (key default : string) : string :=
  match defaults with
  | [] => default
  | (k, v) :: rest => if String.eqb k key then v else get_default rest key default
  end.

Definition read_pack_build_defaults (p : string) : IO (list (string * string)) :=
  fun w =>
    match fs w !! p with
    | Some (VDict data) =>
        match get data "build" with
        | VDict build =>
            (Ok (flat_map (fun key => match get build key with
                                      | VStr v => if nonempty v then [(key, v)] else []
                                      | _ => []
                                      end)
                          ["slug"; "dist_dir"; "default_side"]), w)
        | _ => (Ok [], w)
        end
    | _ => (Ok [], w)
    end.

(** The directories of the file system are not part of [world]: what
    the operating system answers when the builder creates its output
    directory and when it opens an archive for writing is given by
    [os_model], for the world in which it is asked (within a run no
    two such calls are made in the same world for the same path).
    Both can raise: [ZipFile(out, "w")] raises [FileNotFoundError] when
    the directory of [out] does not exist, as it does when the archive
    name holds a slash that leads out of the directory just created. *)
Record os_model : Type := {
  mkdir_parents : world -> string -> result unit;
  open_zip : world -> string -> result unit
}.

(** [dist_dir.mkdir(parents=True, exist_ok=True)] *)
Definition mkdir (os : os_model) (dist_dir : string) : IO unit :=
  fun w => (mkdir_parents os w dist_dir, w).

(** Opening the archive comes first; the one member is written to an
    archive that could be opened. *)
Definition write_zip (os : os_model) (output_path : string) (index_data : dict) : IO unit :=
  fun w =>
    match open_zip os w output_path with
    | Ok _ =>
        (Ok tt,
         {| fs := <[output_path := VDict [("modrinth.index.json", VDict index_data)]]> (fs w);
            requests := requests w;
            stdout := stdout w |})
    | Raise e => (Raise e, w)
    end.

(** [parse_args] of the resolver for a command line with no option other
    than [--target] and [--check]. *)
Definition parse_args (target_option : string) (check_option : bool) : arguments :=
  {| pack := "modpack/pack.toml";
     template_out := "modpack/pack.template.json";
     mods_lock := "modpack/mods.lock.json";
     resource_packs_lock := "modpack/resource-packs.lock.json";
     shader_packs_lock := "modpack/shader-packs.lock.json";
     target := target_option;
     check := check_option |}.

Module Builder.

Record arguments : Type := {
  pack : string;
  version : string;
  template : string;
  mods : string;
  resource_packs : string;
  shader_packs : string;
  dist : string;
  slug : string;
  side : string
}.

(** [parse_args] for a command line with no option other than
    [--version] and [--side]; an option that is left out is the empty
    string. *)
Definition parse_args (version_option side_option : string) : arguments :=
  {| pack := "modpack/pack.toml";
     version := version_option;
     template := "modpack/modrinth.template.json";
     mods := "modpack/mods.lock.json";
     resource_packs := "modpack/resource-packs.lock.json";
     shader_packs := "modpack/shader-packs.lock.json";
     dist := "";
     slug := "";
     side := side_option |}.

Definition build_pack (os : os_model) (L : pylib) (joinpath : string -> string -> string)
    (template_data : dict) (mod_entries resource_pack_entries shader_pack_entries : list dict)
    (target_side label : string) (args : arguments) (slug_name dist_dir : string) : IO unit :=
  mod_files <~ io_lift (build_files L mod_entries target_side "mods") ;;
  resource_pack_files <~
    io_lift (build_files L resource_pack_entries target_side "resourcepacks") ;;
  shader_pack_files <~ io_lift (build_files L shader_pack_entries target_side "shaderpacks") ;;
  let files := (mod_files ++ resource_pack_files ++ shader_pack_files)%list in
  let index_data :=
    if nonempty (version args)
    then dict_set template_data "versionId" (VStr (version args))
    else template_data in
  name <~ io_lift (subscript template_data "name") ;;
  let index_data := dict_set index_data "name" (VStr (py_str L name ++ " (" ++ label ++ ")")) in
  summary <~ io_lift (subscript template_data "summary") ;;
  let index_data :=
    dict_set index_data "summary" (VStr (py_str L summary ++ " [" ++ label ++ "]")) in
  let index_data := dict_set index_data "files" (VList (map VDict files)) in
  pack_version <~ io_lift (subscript index_data "versionId") ;;
  _ <~ mkdir os dist_dir ;;
  let out :=
    joinpath dist_dir
      (slug_name ++ "-" ++ target_side ++ "-" ++ py_str L pack_version ++ ".mrpack") in
  _ <~ write_zip os out index_data ;;
  print ("Built " ++ out ++ " (mods: " ++ str_of_nat (List.length mod_files)
         ++ ", resource packs: " ++ str_of_nat (List.length resource_pack_files)
         ++ ", shader packs: " ++ str_of_nat (List.length shader_pack_files) ++ ")").

Definition main (os : os_model) (L : pylib) (joinpath : string -> string -> string)
    (args : arguments) : IO Z :=
  build_defaults <~ read_pack_build_defaults (pack args) ;;
  let target_side :=
    if nonempty (side args) then side args
    else get_default build_defaults "default_side" "both" in
  if negb (is_valid_side target_side) then
    io_raise (ValueError ("--side must be one of " ++ VALID_SIDES_sorted_str))
  else
    let slug_name :=
      if nonempty (slug args) then slug args else get_default build_defaults "slug" "chuj" in
    let dist_dir :=
      if nonempty (dist args) then dist args
      else get_default build_defaults "dist_dir" "dist" in
    found <~ path_exists (template args) ;;
    if negb found then
      io_raise (FileNotFoundError ("Template not found: " ++ template args))
    else
    found <~ path_exists (mods args) ;;
    if negb found then
      io_raise (FileNotFoundError ("Mods file not found: " ++ mods args))
    else
    found <~ path_exists (resource_packs args) ;;
    if negb found then
      io_raise (FileNotFoundError ("Resource packs file not found: " ++ resource_packs args))
    else
    found <~ path_exists (shader_packs args) ;;
    if negb found then
      io_raise (FileNotFoundError ("Shader packs file not found: " ++ shader_packs args))
    else
    raw_template <~ read_json (template args) ;;
    match raw_template with
    | VDict template_data =>
        _ <~ io_lift (validate_template template_data) ;;
        raw_mods <~ read_json (mods args) ;;
        mod_entries <~ io_lift (validate_entries raw_mods (mods args)) ;;
        raw_resource_packs <~ read_json (resource_packs args) ;;
        resource_pack_entries <~
          io_lift (validate_entries raw_resource_packs (resource_packs args)) ;;
        raw_shader_packs <~ read_json (shader_packs args) ;;
        shader_pack_entries <~
          io_lift (validate_entries raw_shader_packs (shader_packs args)) ;;
        _ <~ (if String.eqb target_side "both" then
                _ <~ build_pack os L joinpath template_data mod_entries resource_pack_entries
                       shader_pack_entries "client" "Client" args slug_name dist_dir ;;
                build_pack os L joinpath template_data mod_entries resource_pack_entries
                  shader_pack_entries "server" "Server" args slug_name dist_dir
              else if String.eqb target_side "client" then
                build_pack os L joinpath template_data mod_entries resource_pack_entries
                  shader_pack_entries "client" "Client" args slug_name dist_dir
              else
                build_pack os L joinpath template_data mod_entries resource_pack_entries
                  shader_pack_entries "server" "Server" args slug_name dist_dir) ;;
        io_ret 0%Z
    | _ => io_raise (ValueError "Template must be a JSON object")
    end.

End Builder.

(** ** Notions used in the statements *)

Definition valid_entry (e : dict) : Prop :=
  is_nonempty_str (get e "filename") = true /\
  (exists s, get e "side" = VStr s /\ In s VALID_SIDES) /\
  (exists urls, get e "downloads" = VList urls /\ urls <> [] /\
                forallb is_nonempty_str urls = true) /\
  (exists h, get e "hashes" = VDict h /\
             (has_key h "sha1" = true \/ has_key h "sha512" = true)) /\
  is_positive_int (get e "fileSize") = true.

Definition packaged_for (side : string) (entry : dict) : bool :=
  eq_str (get entry "side") "both" || eq_str (get entry "side") side.

Definition env_tag (client server : string) : value :=
  VDict [("client", VStr client); ("server", VStr server)].

Definition packaged_as (path_prefix : string) (entry file : dict) : Prop :=
  get file "path" = VStr (path_prefix ++ "/" ++ entry_filename entry) /\
  get file "hashes" = get entry "hashes" /\
  get file "downloads" = get entry "downloads" /\
  get file "fileSize" = get entry "fileSize" /\
  (get entry "side" = VStr "client" -> get file "env" = env_tag "required" "unsupported") /\
  (get entry "side" = VStr "server" -> get file "env" = env_tag "unsupported" "required") /\
  (get entry "side" = VStr "both" -> get file "env" = env_tag "required" "required").

Definition file_of (L : pylib) (path_prefix : string) (entry : dict) : dict :=
  [ ("path", VStr (path_prefix ++ "/" ++ py_str L (get entry "filename")));
    ("hashes", get entry "hashes");
    ("downloads", get entry "downloads");
    ("fileSize", get entry "fileSize");
    ("env", VDict (env_for_side (get entry "side"))) ].


(** What [build_lock_entry] was given to build an entry of a manifest. *)
Definition freshly_built (e : dict) : Prop :=
  exists file_obj side, build_lock_entry file_obj side = Ok e /\ In side VALID_SIDES.

Definition no_game_versions_constraint (version : dict) : bool :=
  match get version "game_versions" with
  | VList (_ :: _) => false
  | _ => true
  end.

Definition lists_game_version (minecraft : string) (version : dict) : bool :=
  match get version "game_versions" with
  | VList gs => str_in minecraft gs
  | _ => false
  end.

Definition lists_loader (loader : string) (version : dict) : bool :=
  match get version "loaders" with
  | VList ls => str_in loader ls
  | _ => false
  end.

(** The filtering policy in the words of the specification. *)
Definition compatible (minecraft : string) (loader : option string) (version : dict) : bool :=
  (no_game_versions_constraint version || lists_game_version minecraft version)
  && match loader with
     | None => true
     | Some l => lists_loader l version
     end.

(** The order of a sorted list of keyed elements. *)
Definition keys_ordered {K A : Type} (le : K -> K -> bool) (a b : K * A) : Prop :=
  le (fst a) (fst b) = true.

(** Every version of the list has a publish timestamp that parses, and
    the parsed timestamps can be ordered with each other. *)
Definition timestamps_ordered (L : pylib) (l : list dict) : Prop :=
  exists aware, forall v, In v l ->
    exists k, version_sort_key L v = Ok k /\ is_aware k = aware.

(** [v] stands in [candidates] at a place where everything before it
    was published strictly earlier and nothing after it was published
    later: the most recently published, the earliest in input order
    among those tied. *)
Definition newest_first_of (L : pylib) (candidates : list dict) (v : dict) : Prop :=
  exists before after kv,
    candidates = (before ++ v :: after)%list /\
    version_sort_key L v = Ok kv /\
    Forall (fun u => exists ku, version_sort_key L u = Ok ku /\ (instant ku < instant kv)%Z)
           before /\
    Forall (fun u => exists ku, version_sort_key L u = Ok ku /\ (instant ku <= instant kv)%Z)
           after.

(** The versions that carry the pinned version number. *)
Definition pinned (pin : string) (versions : list dict) : list dict :=
  List.filter (fun v => eq_str (get v "version_number") pin) versions.

(** A world with nothing on disk and nothing printed, after the given
    requests. *)
Definition blank (history : list string) : world :=
  {| fs := ∅; requests := history; stdout := [] |}.

(** What resolving one reference yields, and the requests made by then,
    as a function of the requests made before. *)
Definition entry_outcome (L : pylib) (R : registry) (minecraft loader : string)
    (require_loader : bool) (entry : reference) (history : list string)
  : result dict * list string :=
  let '(r, w) := resolve_entry L R minecraft loader require_loader entry (blank history) in
  (r, requests w).

(** The references resolved one after the other, each to its lock
    entry, with no check across entries. *)
Fixpoint resolve_all (L : pylib) (R : registry) (minecraft loader : string)
    (require_loader : bool) (entries : list reference) (history : list string)
  : result (list dict) * list string :=
  match entries with
  | [] => (Ok [], history)
  | entry :: rest =>
      match entry_outcome L R minecraft loader require_loader entry history with
      | (Ok lock_entry, h) =>
          match resolve_all L R minecraft loader require_loader rest h with
          | (Ok lock_entries, h') => (Ok (lock_entry :: lock_entries), h')
          | (Raise e, h') => (Raise e, h')
          end
      | (Raise e, h) => (Raise e, h)
      end
  end.

(** The manifest order: ascending in the lower-cased filename. *)
Definition filename_le (L : pylib) (a b : dict) : Prop :=
  String.leb (str_lower L (entry_filename a)) (str_lower L (entry_filename b)) = true.

(** The values of [--target] that [parse_args] accepts. *)
Definition target_choices : list string :=
  ["all"; "template"; "mods"; "resourcepacks"; "shaderpacks"].

(** [targets] as [main] computes it. *)
Definition targets_of (args : arguments) : list string :=
  if String.eqb (target args) "all"
  then ["template"; "mods"; "resourcepacks"; "shaderpacks"]
  else [target args].

(** The lock files of the categories that the loop of [main] resolves,
    in its order. *)
Definition lock_paths (targets : list string)
    (locks : list (string * (list reference * string))) : list string :=
  map (fun lock => snd (snd lock))
      (List.filter (fun lock => mem_str (fst lock) targets) locks).

(** The files that a full run of [main] writes, in the order in which
    it writes them. *)
Definition outputs (args : arguments) : list string :=
  ((if mem_str "template" (targets_of args) then [template_out args] else [])
   ++ lock_paths (targets_of args)
        [ ("mods", ([], mods_lock args));
          ("resourcepacks", ([], resource_packs_lock args));
          ("shaderpacks", ([], shader_packs_lock args)) ])%list.

Definition write_all (disk : gmap string value) (files : list (string * value))
  : gmap string value :=
  fold_left (fun d file => <[fst file := snd file]> d) files disk.

(** What [main] computes before its first effect: the template, the game
    version, the loader and the references of the three categories. *)
Definition prelude (L : pylib) (args : arguments) (disk : gmap string value)
  : result (dict * string * string * list reference * list reference * list reference) :=
  match disk !! pack args with
  | None => Raise (FileNotFoundError ("Pack config not found: " ++ pack args))
  | Some (VDict data) =>
      parsed <- parse_template data ;;
      mods_entries <- collect_entries L data "mods" "mods" ;;
      resource_pack_entries <- collect_entries L data "resourcepacks" "packs" ;;
      shader_pack_entries <- collect_entries L data "shaderpacks" "packs" ;;
      let '(template, minecraft, loader) := parsed in
      Ok (template, minecraft, loader, mods_entries, resource_pack_entries,
          shader_pack_entries)
  | Some _ => Raise (ValueError (pack args ++ " must contain a TOML object"))
  end.

(** The step of [main] that renders the template. *)
Definition render_template (args : arguments) (template : dict) : IO unit :=
  if mem_str "template" (targets_of args) then
    if check args then
      print ("Validated template render -> " ++ template_out args)
    else
      _ <~ write_json (template_out args) (VDict template) ;;
      print ("Rendered template -> " ++ template_out args)
  else io_ret tt.

(** The same command line without [--check]. *)
Definition without_check (args : arguments) : arguments :=
  {| pack := pack args;
     template_out := template_out args;
     mods_lock := mods_lock args;
     resource_packs_lock := resource_packs_lock args;
     shader_packs_lock := shader_packs_lock args;
     target := target args;
     check := false |}.

(** Every request among [made], issued after the history [h], was
    answered with an object. *)
Definition answered (R : registry) (h made : list string) : Prop :=
  forall pre url post,
    made = (pre ++ url :: post)%list -> is_ok (R (h ++ pre)%list url) = true.

(** From [w] to [w'] requests were only added, and a request that the
    registry failed is the last one, its exception being the result. *)
Definition stops_at_failure {A : Type} (R : registry) (w : world) (r : result A) (w' : world)
  : Prop :=
  exists made,
    requests w' = (requests w ++ made)%list /\
    (answered R (requests w) made \/
     exists pre url e,
       made = (pre ++ [url])%list /\ answered R (requests w) pre /\
       R (requests w ++ pre)%list url = Raise e /\ r = Raise e).

Definition fail_fast {A : Type} (R : registry) (m : IO A) : Prop :=
  forall w r w', m w = (r, w') -> stops_at_failure R w r w'.

(** Every character of [a] occurs in [b]: a test that no character of
    [b] passes, no character of [a] passes. *)
Definition chars_within (a b : string) : Prop :=
  forall q, any_char q b = false -> any_char q a = false.


(** ** Sample data *)

Definition sodium_entry : dict :=
  [ ("filename", VStr "sodium.jar");
    ("side", VStr "both");
    ("downloads", VList [VStr "https://cdn.modrinth.com/data/AANobbMI/sodium.jar"]);
    ("hashes", VDict [("sha512", VStr "abc")]);
    ("fileSize", VInt 12345) ].

Definition sodium_file : dict :=
  [ ("filename", VStr "sodium.jar");
    ("url", VStr "https://cdn.modrinth.com/data/AANobbMI/sodium.jar");
    ("size", VInt 12345);
    ("hashes", VDict [("sha512", VStr "abc")]);
    ("primary", VBool true) ].

Definition sodium_version : dict :=
  [ ("version_number", VStr "0.5.3");
    ("game_versions", VList [VStr "1.20.1"]);
    ("loaders", VList [VStr "fabric"; VStr "quilt"]);
    ("date_published", VStr "2023-09-25T20:02:06Z");
    ("files", VList [VDict sodium_file]) ].

(** An older build, and a re-upload under the same version number and
    with the same publish time as [sodium_version]. *)
Definition sodium_old : dict :=
  [ ("version_number", VStr "0.5.2");
    ("game_versions", VList [VStr "1.20.1"]);
    ("loaders", VList [VStr "fabric"]);
    ("date_published", VStr "2023-08-01T10:00:00Z");
    ("files", VList [VDict sodium_file]) ].

Definition sodium_reupload : dict :=
  [ ("version_number", VStr "0.5.3");
    ("game_versions", VList [VStr "1.20.1"]);
    ("loaders", VList [VStr "fabric"]);
    ("date_published", VStr "2023-09-25T20:02:06Z");
    ("files", VList [VDict sodium_file]);
    ("changelog", VStr "re-upload") ].

Definition file_named (filename : string) : dict :=
  [ ("filename", VStr filename);
    ("url", VStr ("https://cdn.modrinth.com/data/" ++ filename));
    ("size", VInt 2048);
    ("hashes", VDict [("sha1", VStr "da39a3ee"); ("sha512", VStr "cf83e135")]) ].

Definition version_with (filename : string) (loaders : list value) : dict :=
  [ ("version_number", VStr "1.0.0");
    ("game_versions", VList [VStr "1.20.1"]);
    ("loaders", VList loaders);
    ("date_published", VStr "2024-01-15T08:30:00Z");
    ("files", VList [VDict (file_named filename)]) ].

Definition api_url (project_id : string) : string :=
  "https://api.modrinth.com/v2/project/" ++ project_id ++ "/version".

(** A registry with four projects.  [P7dR8mSH] ships a file called
    [sodium.jar] like [AANobbMI] does, [Zx9kQmCap] one called
    [Sodium.jar], and [faithful] is a resource pack, which declares the
    pseudo-loader [minecraft].  Every other project is unknown. *)
Definition sample_registry : registry :=
  fun _ url =>
    if String.eqb url (api_url "AANobbMI") then
      Ok (VList [VDict sodium_old; VDict sodium_version])
    else if String.eqb url (api_url "P7dR8mSH") then
      Ok (VList [VDict (version_with "sodium.jar" [VStr "fabric"])])
    else if String.eqb url (api_url "Zx9kQmCap") then
      Ok (VList [VDict (version_with "Sodium.jar" [VStr "fabric"])])
    else if String.eqb url (api_url "faithful") then
      Ok (VList [VDict (version_with "faithful.zip" [VStr "minecraft"])])
    else Raise (RuntimeError ("Modrinth API returned 404 for " ++ url)).

Definition reference_to (project_id side : string) : reference :=
  {| ref_url := "https://modrinth.com/project/" ++ project_id;
     ref_side := side;
     ref_name := None;
     ref_version := None |}.

(** A pack declaration with one mod and one resource pack; the project
    of the resource pack is unknown to [sample_registry]. *)
Definition sample_pack : value :=
  VDict
    [ ("pack", VDict [ ("name", VStr "CHUJ"); ("summary", VStr "Create Hardcore");
                       ("debug_version", VStr "0.1.0") ]);
      ("dependencies", VDict [ ("minecraft", VStr "1.20.1"); ("loader", VStr "fabric");
                               ("loader_version", VStr "0.15.7") ]);
      ("mods",
       VDict [ ("performance",
                VDict [ ("mods",
                         VList [ VDict [ ("url", VStr "https://modrinth.com/project/AANobbMI");
                                         ("side", VStr "both") ] ]) ]) ]);
      ("resourcepacks",
       VDict [ ("default",
                VDict [ ("packs",
                         VList [ VDict [ ("url", VStr "https://modrinth.com/project/missing");
                                         ("side", VStr "client") ] ]) ]) ]) ].

Definition sample_args (check_only : bool) : arguments :=
  {| pack := "modpack/pack.toml";
     template_out := "modpack/pack.template.json";
     mods_lock := "modpack/mods.lock.json";
     resource_packs_lock := "modpack/resource-packs.lock.json";
     shader_packs_lock := "modpack/shader-packs.lock.json";
     target := "all";
     check := check_only |}.

Definition sample_world : world :=
  {| fs := {[ "modpack/pack.toml" := sample_pack ]}; requests := []; stdout := [] |}.

Definition version_published (date : string) : dict :=
  [ ("version_number", VStr "2.0.0");
    ("date_published", VStr date);
    ("files", VList [VDict (file_named "mod.jar")]) ].


(** ** Notions used in the further properties *)

(** The form of a normalised project URL. *)
Definition canonical_url (id : string) : string := "https://modrinth.com/project/" ++ id.

(** What [collect_entries] promises of a reference. *)
Definition well_formed_reference (r : reference) : Prop :=
  In (ref_side r) VALID_SIDES /\
  (exists id, ref_url r = canonical_url id /\ nonempty id = true) /\
  ref_version r <> Some EmptyString /\
  ref_name r <> Some EmptyString.

(** The items declared under [top_key], over all the categories, in the
    order of the declaration. *)
Definition declared_items (top_table : dict) (item_key : string) : list value :=
  flat_map (fun category =>
              match snd category with
              | VDict category_table =>
                  match get category_table item_key with
                  | VList items => items
                  | _ => []
                  end
              | _ => []
              end)
           top_table.

(** The reference that an item of the declaration becomes. *)
Definition declares (L : pylib) (raw_item : value) (r : reference) : Prop :=
  exists item url,
    raw_item = VDict item /\
    get item "url" = VStr url /\
    normalize_project_url L url = Ok (ref_url r) /\
    get item "side" = VStr (ref_side r) /\
    (ref_version r = None <-> get item "version" = VNone) /\
    (forall pin, ref_version r = Some pin -> get item "version" = VStr pin).

(** The lock files that a run of [main] is to write. *)
Definition lock_outputs (args : arguments) : list string :=
  lock_paths (targets_of args)
    [ ("mods", ([], mods_lock args));
      ("resourcepacks", ([], resource_packs_lock args));
      ("shaderpacks", ([], shader_packs_lock args)) ].

(** The index document of an archive: the template with the version id
    overridden when an override is given, the name and the summary
    suffixed with the label, and the files array. *)
Definition index_document (L : pylib) (template_data : dict) (files : list dict)
    (label override : string) : dict :=
  dict_set
    (dict_set
       (dict_set
          (if nonempty override
           then dict_set template_data "versionId" (VStr override)
           else template_data)
          "name" (VStr (py_str L (get template_data "name") ++ " (" ++ label ++ ")")))
       "summary" (VStr (py_str L (get template_data "summary") ++ " [" ++ label ++ "]")))
    "files" (VList (map VDict files)).

(** The files of one side, over the three manifests. *)
Definition side_files (L : pylib) (mod_entries resource_pack_entries shader_pack_entries
    : list dict) (target_side : string) : list dict :=
  (map (file_of L "mods") (List.filter (packaged_for target_side) mod_entries)
   ++ map (file_of L "resourcepacks")
        (List.filter (packaged_for target_side) resource_pack_entries)
   ++ map (file_of L "shaderpacks")
        (List.filter (packaged_for target_side) shader_pack_entries))%list.

(** Where the archive of a side goes. *)
Definition archive_path (L : pylib) (joinpath : string -> string -> string)
    (index_data : dict) (slug_name dist_dir target_side : string) : string :=
  joinpath dist_dir
    (slug_name ++ "-" ++ target_side ++ "-" ++ py_str L (get index_data "versionId")
     ++ ".mrpack").

(** What creating an archive answers in [w]: the output directory is
    made first, then the archive is opened for writing. *)
Definition creation (os : os_model) (dist_dir out : string) (w : world) : result unit :=
  match mkdir_parents os w dist_dir with
  | Ok _ => open_zip os w out
  | Raise e => Raise e
  end.


(** The side, the slug and the output directory that the builder uses:
    the command line first, then the [build] table of the pack
    declaration, then the built-in default. *)
Definition build_setting (args_value key default : string) (w : world) (pack_path : string)
  : string :=
  if nonempty args_value then args_value
  else match read_pack_build_defaults pack_path w with
       | (Ok defaults, _) => get_default defaults key default
       | (Raise _, _) => default
       end.

Definition effective_side (args : Builder.arguments) (w : world) : string :=
  build_setting (Builder.side args) "default_side" "both" w (Builder.pack args).

Definition effective_slug (args : Builder.arguments) (w : world) : string :=
  build_setting (Builder.slug args) "slug" "chuj" w (Builder.pack args).

Definition effective_dist (args : Builder.arguments) (w : world) : string :=
  build_setting (Builder.dist args) "dist_dir" "dist" w (Builder.pack args).

(** The world after the archive of one side is written and reported. *)
Definition after_build (L : pylib) (joinpath : string -> string -> string)
    (template_data : dict) (mod_entries resource_pack_entries shader_pack_entries : list dict)
    (target_side label : string) (args : Builder.arguments) (slug_name dist_dir : string)
    (w : world) : world :=
  let index_data :=
    index_document L template_data
      (side_files L mod_entries resource_pack_entries shader_pack_entries target_side)
      label (Builder.version args) in
  let out := archive_path L joinpath index_data slug_name dist_dir target_side in
  {| fs := <[out := VDict [("modrinth.index.json", VDict index_data)]]> (fs w);
     requests := requests w;
     stdout :=
       (stdout w ++
        [("Built " ++ out ++ " (mods: "
          ++ str_of_nat (List.length (List.filter (packaged_for target_side) mod_entries))
          ++ ", resource packs: "
          ++ str_of_nat (List.length (List.filter (packaged_for target_side)
                                        resource_pack_entries))
          ++ ", shader packs: "
          ++ str_of_nat (List.length (List.filter (packaged_for target_side)
                                        shader_pack_entries))
          ++ ")")%string])%list |}.

(** The world after [main] of the builder has written its archives:
    client then server for both sides, one archive otherwise. *)
Definition after_builds (L : pylib) (joinpath : string -> string -> string)
    (template_data : dict) (mod_entries resource_pack_entries shader_pack_entries : list dict)
    (args : Builder.arguments) (w : world) : world :=
  let build target_side label :=
    after_build L joinpath template_data mod_entries resource_pack_entries
      shader_pack_entries target_side label args (effective_slug args w)
      (effective_dist args w) in
  if String.eqb (effective_side args w) "both" then
    build "server" "Server" (build "client" "Client" w)
  else if String.eqb (effective_side args w) "client" then build "client" "Client" w
  else build "server" "Server" w.

(** The path of the archive of a side, as [main] has it built. *)
Definition side_archive (L : pylib) (joinpath : string -> string -> string)
    (template_data : dict) (mod_entries resource_pack_entries shader_pack_entries : list dict)
    (target_side label : string) (args : Builder.arguments) (w : world) : string :=
  archive_path L joinpath
    (index_document L template_data
       (side_files L mod_entries resource_pack_entries shader_pack_entries target_side)
       label (Builder.version args))
    (effective_slug args w) (effective_dist args w) target_side.

(** The archives of a run of the builder can be created, each at its
    turn: the server archive of a run for both sides is created in the
    world that the client archive leaves. *)
Definition archives_creatable (os : os_model) (L : pylib)
    (joinpath : string -> string -> string) (template_data : dict)
    (mod_entries resource_pack_entries shader_pack_entries : list dict)
    (args : Builder.arguments) (w : world) : Prop :=
  let out target_side label :=
    side_archive L joinpath template_data mod_entries resource_pack_entries
      shader_pack_entries target_side label args w in
  let client_built :=
    after_build L joinpath template_data mod_entries resource_pack_entries
      shader_pack_entries "client" "Client" args (effective_slug args w)
      (effective_dist args w) w in
  if String.eqb (effective_side args w) "both" then
    creation os (effective_dist args w) (out "client" "Client") w = Ok tt /\
    creation os (effective_dist args w) (out "server" "Server") client_built = Ok tt
  else if String.eqb (effective_side args w) "client" then
    creation os (effective_dist args w) (out "client" "Client") w = Ok tt
  else
    creation os (effective_dist args w) (out "server" "Server") w = Ok tt.

(** What the builder needs: a valid side, a template with the required
    keys and three valid manifests. *)
Definition buildable (args : Builder.arguments) (w : world) (template_data : dict)
    (mod_entries resource_pack_entries shader_pack_entries : list dict) : Prop :=
  In (effective_side args w) VALID_SIDES /\
  (fs w !! Builder.template args = Some (VDict template_data) /\
   validate_template template_data = Ok tt) /\
  (fs w !! Builder.mods args = Some (VList (map VDict mod_entries)) /\
   Forall valid_entry mod_entries) /\
  (fs w !! Builder.resource_packs args = Some (VList (map VDict resource_pack_entries)) /\
   Forall valid_entry resource_pack_entries) /\
  (fs w !! Builder.shader_packs args = Some (VList (map VDict shader_pack_entries)) /\
   Forall valid_entry shader_pack_entries).

(** ** Notions used in the statements about selection and resolution *)

(** The publish timestamps of the candidates all parse, and one of them
    carries an offset while another does not. *)
Definition timestamps_mixed (L : pylib) (l : list dict) : Prop :=
  (forall v, In v l -> exists k, version_sort_key L v = Ok k) /\
  exists a b ka kb,
    In a l /\ In b l /\
    version_sort_key L a = Ok ka /\ version_sort_key L b = Ok kb /\
    is_aware ka = true /\ is_aware kb = false.

(** The entries whose lower-cased filename is [name]. *)
Definition lower_named (L : pylib) (name : string) (entry : dict) : bool :=
  String.eqb (str_lower L (entry_filename entry)) name.

(** Resolving one reference after the requests [history] gives
    [lock_entry]: the registry is asked once, for the versions of the
    project of the reference, a version is selected among those of its
    answer that pass the filter for the game version and for [loader],
    and the entry is built from the selected file of that version. *)
Definition picked (L : pylib) (R : registry) (minecraft : string) (loader : option string)
    (entry : reference) (history : list string) (lock_entry : dict)
    (history' : list string) : Prop :=
  exists project_id answer version file,
    parse_project_id L (ref_url entry) = Ok project_id /\
    R history (api_url project_id) = Ok (VList answer) /\
    history' = (history ++ [api_url project_id])%list /\
    select_version L (filter_versions (only_dicts answer) minecraft loader)
      (ref_version entry) = Ok version /\
    select_file version = Ok file /\
    build_lock_entry file (ref_side entry) = Ok lock_entry.

(** The references resolve one after the other, each to its entry. *)
Inductive picked_in_turn (L : pylib) (R : registry) (minecraft : string)
    (loader : option string)
  : list reference -> list string -> list dict -> list string -> Prop :=
| picked_none history : picked_in_turn L R minecraft loader [] history [] history
| picked_next entry entries history lock_entry history1 lock_entries history' :
    picked L R minecraft loader entry history lock_entry history1 ->
    picked_in_turn L R minecraft loader entries history1 lock_entries history' ->
    picked_in_turn L R minecraft loader (entry :: entries) history
      (lock_entry :: lock_entries) history'.

(** What a run has done about one category: nothing when the category
    is not selected; otherwise its references were resolved in turn with
    the given loader filter, from the requests [history] to [history'],
    and the lock file holds their entries, reordered. *)
Definition category_written (L : pylib) (R : registry) (minecraft : string)
    (loader : option string) (selected : bool) (entries : list reference)
    (lock_path : string) (history history' : list string) (w' : world) : Prop :=
  if selected then
    exists lock_entries manifest,
      picked_in_turn L R minecraft loader entries history lock_entries history' /\
      Permutation manifest lock_entries /\
      fs w' !! lock_path = Some (VList (map VDict manifest))
  else history' = history.

(** The categories that a run resolves, in its order. *)
Definition selected (targets : list string)
    (locks : list (string * (list reference * string)))
  : list (string * (list reference * string)) :=
  List.filter (fun lock => mem_str (fst lock) targets) locks.

(** What resolving one category yields, and the requests made by then,
    as a function of the requests made before. *)
Definition category_outcome (L : pylib) (R : registry) (minecraft loader : string)
    (lock : string * (list reference * string)) (history : list string)
  : result (list dict) * list string :=
  let '(tgt, (entries, _)) := lock in
  let '(r, w) :=
    resolve_entries L R entries minecraft loader tgt (String.eqb tgt "mods") (blank history) in
  (r, requests w).

(** The categories resolved one after the other, each to its manifest. *)
Fixpoint resolve_categories (L : pylib) (R : registry) (minecraft loader : string)
    (locks : list (string * (list reference * string))) (history : list string)
  : result (list (list dict)) * list string :=
  match locks with
  | [] => (Ok [], history)
  | lock :: rest =>
      match category_outcome L R minecraft loader lock history with
      | (Ok manifest, h) =>
          match resolve_categories L R minecraft loader rest h with
          | (Ok manifests, h') => (Ok (manifest :: manifests), h')
          | (Raise e, h') => (Raise e, h')
          end
      | (Raise e, h) => (Raise e, h)
      end
  end.

(** Resolving the reference [entry] after the requests [history] ends
    the resolution of its category with [e], the entries of the
    references before it being [earlier]: resolving it raises [e], or it
    resolves to an entry with the filename of an earlier one. *)
Definition reference_fails (L : pylib) (R : registry) (minecraft loader label : string)
    (require_loader : bool) (entry : reference) (history : list string)
    (earlier : list dict) (e : exn) (history' : list string) : Prop :=
  entry_outcome L R minecraft loader require_loader entry history = (Raise e, history') \/
  exists lock_entry,
    entry_outcome L R minecraft loader require_loader entry history
    = (Ok lock_entry, history') /\
    In (entry_filename lock_entry) (map entry_filename earlier) /\
    e = ValueError (duplicate_message (entry_filename lock_entry) label).

(** What a run writes before its loop: the template, when it is among
    the targets. *)
Definition rendered (args : arguments) (template : dict) : list (string * value) :=
  if mem_str "template" (targets_of args) then [(template_out args, VDict template)] else [].

(** The lock files of the categories with their manifests. *)
Definition lock_files (locks : list (string * (list reference * string)))
    (manifests : list (list dict)) : list (string * value) :=
  combine (map (fun lock => snd (snd lock)) locks)
          (map (fun manifest => VList (map VDict manifest)) manifests).

(** ** More sample data *)

(** The template that [parse_template] renders from [sample_pack]. *)
Definition sample_template : dict :=
  [ ("formatVersion", VInt 1); ("game", VStr "minecraft"); ("name", VStr "CHUJ");
    ("summary", VStr "Create Hardcore"); ("versionId", VStr "0.1.0");
    ("dependencies", VDict [("minecraft", VStr "1.20.1"); ("fabric", VStr "0.15.7")]) ].

Definition sample_pack_data : dict :=
  match sample_pack with
  | VDict d => d
  | _ => []
  end.

(** A declaration whose loader is not supported. *)
Definition rift_pack_data : dict :=
  [ ("pack", VDict [ ("name", VStr "CHUJ"); ("summary", VStr "Create Hardcore");
                     ("debug_version", VStr "0.1.0") ]);
    ("dependencies", VDict [ ("minecraft", VStr "1.20.1"); ("loader", VStr "rift");
                             ("loader_version", VStr "1.0") ]) ].

(** A declaration whose projects [sample_registry] knows: one mod and
    one resource pack. *)
Definition working_pack_data : dict :=
  [ ("pack", VDict [ ("name", VStr "CHUJ"); ("summary", VStr "Create Hardcore");
                     ("debug_version", VStr "0.1.0") ]);
    ("dependencies", VDict [ ("minecraft", VStr "1.20.1"); ("loader", VStr "fabric");
                             ("loader_version", VStr "0.15.7") ]);
    ("build", VDict [ ("slug", VStr "chuj-pack"); ("default_side", VStr "both") ]);
    ("mods",
     VDict [ ("performance",
              VDict [ ("mods",
                       VList [ VDict [ ("url", VStr "https://modrinth.com/project/AANobbMI");
                                       ("side", VStr "both") ] ]) ]) ]);
    ("resourcepacks",
     VDict [ ("default",
              VDict [ ("packs",
                       VList [ VDict [ ("url", VStr "https://modrinth.com/project/faithful");
                                       ("side", VStr "client") ] ]) ]) ]) ].

Definition working_world : world :=
  {| fs := {[ "modpack/pack.toml" := VDict working_pack_data ]};
     requests := [];
     stdout := [] |}.


(** [dist_dir / name] for relative paths without dots. *)
Definition slash (dist_dir name : string) : string := dist_dir ++ "/" ++ name.

(** The builder reading what [sample_args] makes the resolver write. *)
Definition sample_build_args : Builder.arguments :=
  {| Builder.pack := "modpack/pack.toml";
     Builder.version := "";
     Builder.template := "modpack/pack.template.json";
     Builder.mods := "modpack/mods.lock.json";
     Builder.resource_packs := "modpack/resource-packs.lock.json";
     Builder.shader_packs := "modpack/shader-packs.lock.json";
     Builder.dist := "";
     Builder.slug := "";
     Builder.side := "" |}.

(** An operating system on which every directory can be made and every
    archive opened. *)
Definition roomy : os_model :=
  {| mkdir_parents := fun _ _ => Ok tt;
     open_zip := fun _ _ => Ok tt |}.

Fixpoint count_slashes (s : string) : nat :=
  match s with
  | EmptyString => 0
  | String c rest => (if is_char "/" c then 1 else 0) + count_slashes rest
  end.

(** An operating system on which the output directory can be made and
    holds no directory: an archive opens when its path has one slash,
    the one after the output directory. *)
Definition flat_dist : os_model :=
  {| mkdir_parents := fun _ _ => Ok tt;
     open_zip := fun _ out =>
       if (count_slashes out <=? 1)%nat then Ok tt
       else Raise (FileNotFoundError
                     ("[Errno 2] No such file or directory: '" ++ out ++ "'")) |}.

(** An operating system on which the directory of the server archive is
    missing. *)
Definition no_server_directory : os_model :=
  {| mkdir_parents := fun _ _ => Ok tt;
     open_zip := fun _ out =>
       if contains "-server-" out
       then Raise (FileNotFoundError
                     ("[Errno 2] No such file or directory: '" ++ out ++ "'"))
       else Ok tt |}.

(** The working declaration with a slash in its version. *)
Definition beta_world : world :=
  {| fs := {[ "modpack/pack.toml" :=
                VDict (dict_set working_pack_data "pack"
                         (VDict [ ("name", VStr "CHUJ"); ("summary", VStr "Create Hardcore");
                                  ("debug_version", VStr "1.0/beta") ])) ]};
     requests := [];
     stdout := [] |}.

(** The lock entry of the one file of [version_with filename]. *)
Definition entry_named (filename side : string) : dict :=
  [ ("filename", VStr filename); ("side", VStr side);
    ("downloads", VList [VStr ("https://cdn.modrinth.com/data/" ++ filename)]);
    ("hashes", VDict [("sha1", VStr "da39a3ee"); ("sha512", VStr "cf83e135")]);
    ("fileSize", VInt 2048) ].

(** * Properties *)

(** ** Packaging: validation and side filtering *)

Lemma is_valid_side_In s : is_valid_side s = true <-> In s VALID_SIDES.
Proof.
  unfold is_valid_side, VALID_SIDES. rewrite existsb_exists. split.
  - intros [x [Hin Heq]]. apply String.eqb_eq in Heq. now subst.
  - intros H. exists s. split; [assumption | apply String.eqb_refl].
Qed.

Lemma subscript_get d k : get d k <> VNone -> subscript d k = Ok (get d k).
Proof.
  unfold subscript, get. destruct (dict_get d k); [reflexivity | congruence].
Qed.

Ltac no_result := let X := fresh in intro X; discriminate X.

Ltac next_test := cbn [bind negb not_in_VALID_SIDES].

Lemma validate_entry_inv name i v e :
  validate_entry name i v = Ok e -> v = VDict e /\ valid_entry e.
Proof.
  unfold validate_entry, valid_entry.
  destruct v as [| | | | |l|d]; try no_result.
  destruct (is_nonempty_str (get d "filename")) eqn:Hf; next_test; [|no_result].
  destruct (get d "side") as [| | | |s| |] eqn:Hs; next_test; try no_result.
  destruct (is_valid_side s) eqn:Hv; next_test; [|no_result].
  destruct (get d "downloads") as [| | | | |urls|] eqn:Hd; next_test; try no_result.
  destruct urls as [|u us]; [no_result|].
  destruct (forallb is_nonempty_str (u :: us)) eqn:Hu; next_test; [|no_result].
  destruct (get d "hashes") as [| | | | | |h] eqn:Hh; next_test; try no_result.
  destruct (has_key h "sha1" || has_key h "sha512") eqn:Hk; next_test; [|no_result].
  destruct (is_positive_int (get d "fileSize")) eqn:Hz; next_test; [|no_result].
  intros [= <-]. rewrite Hf, Hs. split; [reflexivity|].
  split; [reflexivity|]. split.
  { exists s. split; [reflexivity | now apply is_valid_side_In]. }
  split. { exists (u :: us). now rewrite Hd. }
  split. { exists h. rewrite Hh. split; [reflexivity | now apply orb_true_iff]. }
  assumption.
Qed.

Lemma validate_entry_ok name i e :
  valid_entry e -> validate_entry name i (VDict e) = Ok e.
Proof.
  intros (Hf & (s & Hs & Hin) & (urls & Hd & Hne & Hu) & (h & Hh & Hk) & Hz).
  unfold validate_entry. rewrite Hf, Hs, Hd, Hh, Hz.
  cbn [bind negb not_in_VALID_SIDES].
  apply is_valid_side_In in Hin. rewrite Hin. cbn [bind negb].
  destruct urls as [|u us]; [congruence|]. rewrite Hu. cbn [negb].
  apply orb_true_iff in Hk. rewrite Hk. reflexivity.
Qed.

Lemma validate_entries_from_inv name es : forall l i,
  validate_entries_from name i l = Ok es -> l = map VDict es /\ Forall valid_entry es.
Proof.
  induction es as [|e es IH]; intros l i H.
  - destruct l as [|v l]; [now split|]. simpl in H.
    destruct (validate_entry name i v); [|discriminate]. simpl in H.
    destruct (validate_entries_from name (S i) l); discriminate.
  - destruct l as [|v l]; [discriminate|]. simpl in H.
    destruct (validate_entry name i v) as [e'|] eqn:He; [|discriminate]. simpl in H.
    destruct (validate_entries_from name (S i) l) as [es'|] eqn:Hes; [|discriminate].
    simpl in H. injection H as -> ->.
    apply validate_entry_inv in He as [-> Hv]. apply IH in Hes as [-> Hall].
    split; [reflexivity | now constructor].
Qed.

Lemma validate_entries_from_ok name es : forall i,
  Forall valid_entry es -> validate_entries_from name i (map VDict es) = Ok es.
Proof.
  induction es as [|e es IH]; intros i H; [reflexivity|].
  inversion H as [|? ? He Hes]; subst. cbn [validate_entries_from map].
  rewrite (validate_entry_ok name i e He). cbn [bind]. now rewrite IH.
Qed.

Lemma validate_entries_inv entries name es :
  validate_entries entries name = Ok es -> entries = VList (map VDict es) /\ Forall valid_entry es.
Proof.
  destruct entries; try discriminate. simpl. intros H.
  apply validate_entries_from_inv in H as [-> H]. now split.
Qed.

Lemma build_files_valid L side path_prefix es :
  Forall valid_entry es ->
  build_files L es side path_prefix
  = Ok (map (file_of L path_prefix) (List.filter (packaged_for side) es)).
Proof.
  induction 1 as [|e es He Hes IH]; [reflexivity|].
  destruct He as (Hf & (s & Hs & Hin) & (urls & Hd & _) & (h & Hh & _) & Hz).
  assert (Hss : subscript e "side" = Ok (get e "side")).
  { apply subscript_get. rewrite Hs. discriminate. }
  cbn [build_files List.filter]. unfold packaged_for at 1.
  rewrite Hss. cbn [bind].
  destruct (eq_str (get e "side") "both" || eq_str (get e "side") side);
    cbn [negb]; [|assumption].
  rewrite (subscript_get e "filename"). 2:{ destruct (get e "filename"); discriminate. }
  cbn [bind]. rewrite (subscript_get e "hashes") by (rewrite Hh; discriminate).
  cbn [bind]. rewrite (subscript_get e "downloads") by (rewrite Hd; discriminate).
  cbn [bind]. rewrite (subscript_get e "fileSize").
  2:{ intros Hn. rewrite Hn in Hz. discriminate. }
  cbn [bind]. rewrite IH. reflexivity.
Qed.

Lemma file_of_packaged_as L path_prefix e :
  valid_entry e -> packaged_as path_prefix e (file_of L path_prefix e).
Proof.
  intros (Hf & (s & Hs & Hin) & _).
  unfold packaged_as, entry_filename, file_of.
  destruct (get e "filename") as [| | | |fname| |] eqn:Hfn; try discriminate.
  rewrite Hs.
  repeat split; try reflexivity; intros [= ->]; reflexivity.
Qed.

(** C1.  Of the entries of a validated lock manifest, the files array
    holds exactly those whose side is [both] or the side being packaged,
    in manifest order; the [env] of a file is decided by the side of its
    entry alone: client gives required/unsupported, server gives
    unsupported/required, both gives required/required. *)
Theorem build_files_side_filter L entries manifest_name es side path_prefix :
  validate_entries entries manifest_name = Ok es ->
  exists files,
    build_files L es side path_prefix = Ok files /\
    Forall2 (packaged_as path_prefix) (List.filter (packaged_for side) es) files /\
    Forall (fun e => exists s, get e "side" = VStr s /\ In s VALID_SIDES) es.
Proof.
  intros H. apply validate_entries_inv in H as [_ Hall].
  exists (map (file_of L path_prefix) (List.filter (packaged_for side) es)).
  split; [now apply build_files_valid|]. split.
  - assert (Hsub : Forall valid_entry (List.filter (packaged_for side) es)).
    { rewrite List.Forall_forall in *. intros e He. apply List.filter_In in He as [He _]. auto. }
    induction Hsub as [|e l He Hl IH]; cbn [map]; constructor;
      [now apply file_of_packaged_as | assumption].
  - eapply List.Forall_impl; [|exact Hall]. intros e He. apply He.
Qed.

Lemma build_files_side_filter_witness :
  exists files,
    build_files basic_lib [sodium_entry] "server" "mods" = Ok files /\
    Forall2 (packaged_as "mods") (List.filter (packaged_for "server") [sodium_entry]) files /\
    Forall (fun e => exists s, get e "side" = VStr s /\ In s VALID_SIDES) [sodium_entry].
Proof.
  apply (build_files_side_filter basic_lib (VList [VDict sodium_entry]) "mods.lock.json").
  reflexivity.
Defined.

(** The scenario of the specification: an entry declared for both sides
    keeps its universal tag in the server archive, and a client entry is
    absent from it. *)
Example build_files_server_scenario :
  build_files basic_lib
    [sodium_entry; [("filename", VStr "iris.jar"); ("side", VStr "client");
                    ("downloads", VList [VStr "https://cdn.modrinth.com/iris.jar"]);
                    ("hashes", VDict [("sha1", VStr "ff")]); ("fileSize", VInt 7)]]
    "server" "mods"
  = Ok [[ ("path", VStr "mods/sodium.jar");
          ("hashes", VDict [("sha512", VStr "abc")]);
          ("downloads", VList [VStr "https://cdn.modrinth.com/data/AANobbMI/sodium.jar"]);
          ("fileSize", VInt 12345);
          ("env", VDict [("client", VStr "required"); ("server", VStr "required")]) ]].
Proof. reflexivity. Qed.

(** ** Lock entries pass the packaging validation *)

Lemma build_lock_entry_inv file_obj side e :
  build_lock_entry file_obj side = Ok e ->
  exists fname url size out,
    e = [ ("filename", VStr fname); ("side", VStr side); ("downloads", VList [VStr url]);
          ("hashes", VDict out); ("fileSize", size) ] /\
    nonempty fname = true /\ nonempty url = true /\ is_positive_int size = true /\
    (has_key out "sha1" = true \/ has_key out "sha512" = true).
Proof.
  unfold build_lock_entry.
  destruct (get file_obj "filename") as [| | | |fname| |] eqn:Hf; try no_result.
  cbn [is_nonempty_str]. destruct (nonempty fname) eqn:Hfn; cbn [negb]; [|no_result].
  destruct (get file_obj "url") as [| | | |url| |] eqn:Hu; try no_result.
  cbn [is_nonempty_str]. destruct (nonempty url) eqn:Hun; cbn [negb]; [|no_result].
  destruct (is_positive_int (get file_obj "size")) eqn:Hz; cbn [negb]; [|no_result].
  destruct (get file_obj "hashes") as [| | | | | |h] eqn:Hh; try no_result.
  destruct (is_nonempty_str (get h "sha1")), (is_nonempty_str (get h "sha512"));
    cbn [app]; try no_result;
    intros [= <-]; exists fname, url, (get file_obj "size"); eexists;
    (split; [reflexivity|]); repeat split; try assumption;
    (left; reflexivity) || (right; reflexivity).
Qed.

Lemma freshly_built_valid e :
  freshly_built e -> valid_entry e /\ exists url, get e "downloads" = VList [VStr url].
Proof.
  intros (file_obj & side & Hb & Hside).
  apply build_lock_entry_inv in Hb as (fname & url & size & out & -> & Hf & Hu & Hz & Hk).
  split; [|exists url; reflexivity].
  unfold valid_entry.
  change (get _ "filename") with (VStr fname).
  change (get _ "side") with (VStr side).
  change (get _ "downloads") with (VList [VStr url]).
  change (get _ "hashes") with (VDict out).
  change (get _ "fileSize") with size.
  split; [exact Hf|]. split; [exists side; now split|].
  split.
  { exists [VStr url]. split; [reflexivity|]. split; [discriminate|].
    cbn [forallb is_nonempty_str]. now rewrite Hu. }
  split; [exists out; now split | exact Hz].
Qed.

(** A manifest of freshly built entries passes [validate_entries]
    unchanged. *)
Lemma freshly_built_validate es manifest_name :
  Forall freshly_built es ->
  validate_entries (VList (map VDict es)) manifest_name = Ok es /\
  Forall (fun e => valid_entry e /\ exists url, get e "downloads" = VList [VStr url]) es.
Proof.
  intros H.
  assert (Hall : Forall (fun e => valid_entry e /\
                                  exists url, get e "downloads" = VList [VStr url]) es).
  { eapply List.Forall_impl; [|exact H]. intros e. apply freshly_built_valid. }
  split; [|exact Hall].
  apply validate_entries_from_ok.
  eapply List.Forall_impl; [|exact Hall]. now intros e [He _].
Qed.


(** ** The stable sort *)

Section StableSort.

Context {K A : Type} (le : K -> K -> bool).

Lemma insert_stable_perm k (x : A) l :
  Permutation (insert_stable le k x l) ((k, x) :: l).
Proof.
  induction l as [|[k' y] l IH]; cbn [insert_stable]; [reflexivity|].
  destruct (le k k'); [reflexivity|].
  rewrite IH. apply perm_swap.
Qed.

Lemma sort_stable_perm (l : list (K * A)) : Permutation (sort_stable le l) l.
Proof.
  induction l as [|[k x] l IH]; cbn [sort_stable]; [reflexivity|].
  rewrite insert_stable_perm. now constructor.
Qed.

Hypothesis le_total : forall a b, le a b = true \/ le b a = true.

Lemma insert_stable_sorted k (x : A) l :
  Sorted (keys_ordered le) l -> Sorted (keys_ordered le) (insert_stable le k x l).
Proof.
  induction 1 as [|[k' y] l Hs IH Hd]; cbn [insert_stable].
  - repeat constructor.
  - destruct (le k k') eqn:Hle.
    + constructor; [now constructor|]. constructor. exact Hle.
    + constructor; [exact IH|].
      assert (Hk : le k' k = true) by (destruct (le_total k k'); congruence).
      destruct l as [|[k'' z] l]; cbn [insert_stable]; [now constructor|].
      destruct (le k k''); constructor; [exact Hk|].
      now inversion Hd.
Qed.

Lemma sort_stable_sorted (l : list (K * A)) : Sorted (keys_ordered le) (sort_stable le l).
Proof.
  induction l as [|[k x] l IH]; cbn [sort_stable]; [constructor|].
  now apply insert_stable_sorted.
Qed.

End StableSort.

Lemma with_keys_inv {K A : Type} (key : A -> result K) (l : list A) : forall keyed,
  with_keys key l = Ok keyed ->
  map snd keyed = l /\ Forall (fun p => key (snd p) = Ok (fst p)) keyed.
Proof.
  induction l as [|x l IH]; cbn [with_keys]; intros keyed H.
  - injection H as <-. now split.
  - destruct (key x) as [k|] eqn:Hk; [|discriminate]. cbn [bind] in H.
    destruct (with_keys key l) as [ks|]; [|discriminate]. cbn [bind] in H.
    injection H as <-. destruct (IH ks eq_refl) as [Hm Hf].
    split; [cbn; now rewrite Hm | now constructor].
Qed.

Lemma with_keys_ok {K A : Type} (key : A -> result K) (l : list A) :
  (forall x, In x l -> exists k, key x = Ok k) ->
  exists keyed, with_keys key l = Ok keyed.
Proof.
  induction l as [|x l IH]; intros H; [now exists []|].
  destruct (H x (or_introl eq_refl)) as [k Hk].
  destruct IH as [ks Hks]; [intros y Hy; apply H; now right|].
  exists ((k, x) :: ks). cbn [with_keys]. now rewrite Hk, Hks.
Qed.

(** The head of a newest-first sort: the first of the most recent. *)
Lemma sort_newest_head {A : Type} (l : list (datetime * A)) :
  l <> [] ->
  exists before k x after rest,
    l = (before ++ (k, x) :: after)%list /\
    sort_stable newer_or_same l = (k, x) :: rest /\
    Forall (fun p => (instant (fst p) < instant k)%Z) before /\
    Forall (fun p => (instant (fst p) <= instant k)%Z) after.
Proof.
  induction l as [|[k0 x0] l IH]; [congruence|]. intros _.
  destruct l as [|p l'].
  - exists [], k0, x0, [], []. repeat split; constructor.
  - destruct IH as (before & k & x & after & rest & Hl & Hs & Hb & Ha); [discriminate|].
    cbn [sort_stable] in Hs |- *. rewrite Hs. cbn [insert_stable].
    unfold newer_or_same at 1. destruct (instant k <=? instant k0)%Z eqn:Hle.
    + apply Z.leb_le in Hle.
      exists [], k0, x0, (p :: l'), ((k, x) :: rest).
      split; [reflexivity|]. split; [reflexivity|]. split; [constructor|].
      rewrite Hl. apply List.Forall_app. split.
      * eapply List.Forall_impl; [|exact Hb]. cbn. intros; lia.
      * constructor; [cbn; lia|].
        eapply List.Forall_impl; [|exact Ha]. cbn. intros; lia.
    + apply Z.leb_gt in Hle.
      exists ((k0, x0) :: before), k, x, after. eexists.
      split; [rewrite Hl; reflexivity|]. split; [reflexivity|].
      split; [constructor; [cbn; lia | exact Hb] | exact Ha].
Qed.

Lemma comparable_same_kind (ks : list datetime) aware :
  Forall (fun k => is_aware k = aware) ks -> comparable ks = true.
Proof.
  destruct 1 as [|k ks Hk Hks]; [reflexivity|]. cbn [comparable].
  apply forallb_forall. intros k' Hin.
  rewrite List.Forall_forall in Hks. rewrite Hk, (Hks k' Hin).
  now destruct aware.
Qed.

Lemma sort_newest_first_In L l sorted v :
  sort_newest_first L l = Ok sorted -> In v sorted -> In v l.
Proof.
  unfold sort_newest_first.
  destruct (with_keys (version_sort_key L) l) as [keyed|] eqn:Hk; [|discriminate].
  cbn [bind]. destruct (comparable (map fst keyed)); [|discriminate].
  intros [= <-] Hin. apply with_keys_inv in Hk as [<- _].
  eapply Permutation_in; [|exact Hin].
  apply Permutation_map, sort_stable_perm.
Qed.

Lemma sort_newest_first_spec L l :
  l <> [] -> timestamps_ordered L l ->
  exists v rest, sort_newest_first L l = Ok (v :: rest) /\ newest_first_of L l v.
Proof.
  intros Hne [aware Hord]. unfold sort_newest_first.
  destruct (with_keys_ok (version_sort_key L) l) as [keyed Hk].
  { intros x Hx. destruct (Hord x Hx) as [k [Hk _]]. eauto. }
  rewrite Hk. cbn [bind].
  destruct (with_keys_inv _ _ _ Hk) as [Hm Hf].
  assert (Hcmp : comparable (map fst keyed) = true).
  { apply (comparable_same_kind _ aware). rewrite List.Forall_map.
    rewrite List.Forall_forall in Hf |- *. intros [k x] Hin.
    specialize (Hf _ Hin). cbn in Hf |- *.
    destruct (Hord x) as [k' [Hk' Ha]].
    - rewrite <- Hm. now apply (in_map snd _ (k, x)).
    - congruence. }
  rewrite Hcmp.
  destruct (sort_newest_head keyed) as (before & k & x & after & rest & Hl & Hs & Hb & Ha).
  { intros ->. now subst l. }
  rewrite Hs. cbn [map snd].
  exists x, (map snd rest). split; [reflexivity|].
  exists (map snd before), (map snd after), k.
  rewrite Hl in Hm, Hf. rewrite List.map_app in Hm. cbn [map snd] in Hm.
  apply List.Forall_app in Hf as [Hfb Hfa].
  apply List.Forall_cons_iff in Hfa as [Hx Hfa']. cbn in Hx.
  split; [now rewrite Hm|]. split; [exact Hx|]. split.
  - rewrite List.Forall_map. rewrite List.Forall_forall in Hfb, Hb |- *.
    intros [ku u] Hin. exists ku. split; [exact (Hfb _ Hin) | exact (Hb _ Hin)].
  - rewrite List.Forall_map. rewrite List.Forall_forall in Hfa', Ha |- *.
    intros [ku u] Hin. exists ku. split; [exact (Hfa' _ Hin) | exact (Ha _ Hin)].
Qed.

(** ** Version selection *)

Lemma select_version_unpinned L versions pin :
  versions <> [] -> pin = None \/ pin = Some "" ->
  select_version L versions pin
  = (versions_sorted <- sort_newest_first L versions ;; first versions_sorted).
Proof.
  intros Hne Hpin. destruct versions; [congruence|].
  destruct Hpin as [-> | ->]; reflexivity.
Qed.

Lemma select_version_pinned L versions pin :
  versions <> [] -> pin <> "" ->
  select_version L versions (Some pin)
  = match pinned pin versions with
    | [] => Raise (ValueError ("No compatible version_number='" ++ pin ++ "' found"))
    | [m] => Ok m
    | _ :: _ :: _ => sorted <- sort_newest_first L (pinned pin versions) ;; first sorted
    end.
Proof.
  intros Hne Hpin. destruct versions; [congruence|].
  cbn [select_version]. unfold nonempty.
  apply String.eqb_neq in Hpin. rewrite Hpin. reflexivity.
Qed.

(** Whatever is selected is one of the versions offered. *)
Lemma select_version_In L versions pin v :
  select_version L versions pin = Ok v -> In v versions.
Proof.
  assert (Hsort : forall l, (sorted <- sort_newest_first L l ;; first sorted) = Ok v -> In v l).
  { intros l H. destruct (sort_newest_first L l) as [sorted|] eqn:Hs; [|discriminate].
    cbn [bind] in H. destruct sorted as [|x sorted']; [discriminate|].
    injection H as ->. eapply sort_newest_first_In; [exact Hs | now left]. }
  destruct versions as [|v0 vs]; [discriminate|].
  destruct pin as [pin|]; cbn [select_version]; [|apply Hsort].
  destruct (nonempty pin); [|apply Hsort].
  fold (pinned pin (v0 :: vs)).
  assert (Hsub : forall u, In u (pinned pin (v0 :: vs)) -> In u (v0 :: vs)).
  { intros u Hu. now apply List.filter_In in Hu. }
  destruct (pinned pin (v0 :: vs)) as [|m [|m' ms]] eqn:Hp; [discriminate| |].
  - intros [= ->]. apply Hsub. now left.
  - intros H. apply Hsub, Hsort, H.
Qed.

(** C6.  Selecting from an empty list of versions fails, whatever the
    pin. *)
Theorem select_version_empty L pin :
  select_version L [] pin = Raise (ValueError "No compatible versions found").
Proof. reflexivity. Qed.

Lemma comparable_inv (ks : list datetime) :
  comparable ks = true ->
  forall k k', In k ks -> In k' ks -> is_aware k = is_aware k'.
Proof.
  destruct ks as [|k0 ks]; [intros _ k k' []|]. cbn [comparable]. intros H.
  rewrite forallb_forall in H.
  assert (Hk0 : forall k, In k (k0 :: ks) -> is_aware k0 = is_aware k).
  { intros k [<- | Hin]; [reflexivity|]. now apply Bool.eqb_prop, H. }
  intros k k' Hk Hk'. now rewrite <- (Hk0 k Hk), <- (Hk0 k' Hk').
Qed.

(** Ranking versions of which one has a timestamp with an offset and
    another one without raises the exception of the comparison. *)
Lemma sort_newest_first_mixed L l :
  timestamps_mixed L l ->
  sort_newest_first L l
  = Raise (TypeError "can't compare offset-naive and offset-aware datetimes").
Proof.
  intros [Hparse (a & b & ka & kb & Ha & Hb & Hka & Hkb & Haware & Hnaive)].
  unfold sort_newest_first.
  destruct (with_keys_ok (version_sort_key L) l Hparse) as [keyed Hk].
  rewrite Hk. cbn [bind].
  destruct (with_keys_inv _ _ _ Hk) as [Hm Hf].
  destruct (comparable (map fst keyed)) eqn:Hcmp; [|reflexivity].
  assert (Hkey : forall x k, In x l -> version_sort_key L x = Ok k -> In k (map fst keyed)).
  { intros x k Hx Hxk. rewrite <- Hm in Hx.
    apply List.in_map_iff in Hx as ([k' x'] & Hsnd & Hin). cbn [snd] in Hsnd. subst x'.
    rewrite List.Forall_forall in Hf. specialize (Hf _ Hin). cbn [fst snd] in Hf.
    rewrite Hxk in Hf. injection Hf as ->.
    now apply (in_map fst keyed (k', x)). }
  pose proof (comparable_inv _ Hcmp ka kb (Hkey a ka Ha Hka) (Hkey b kb Hb Hkb)) as Heq.
  congruence.
Qed.

(** C2, as the code has it.  From a non-empty list: under a pin only the
    versions with that version number are candidates, none of them is
    an error, a single one is returned as it is, and of several the
    most recently published is returned; without a pin every version is
    a candidate.  Among versions tied on the publish time the earliest
    in input order wins.  Where candidates are ranked, their timestamps
    must parse and be mutually comparable: when one of them carries an
    offset and another does not, the selection raises the exception of
    the comparison.  (A pin that reaches the selection is not empty:
    [collect_entries] refuses the empty one.) *)
Theorem select_version_policy L versions :
  versions <> [] ->
  (forall pin, pin <> "" ->
     (pinned pin versions = [] ->
      select_version L versions (Some pin)
      = Raise (ValueError ("No compatible version_number='" ++ pin ++ "' found"))) /\
     (forall m, pinned pin versions = [m] -> select_version L versions (Some pin) = Ok m) /\
     (pinned pin versions <> [] -> timestamps_ordered L (pinned pin versions) ->
      exists v, select_version L versions (Some pin) = Ok v /\
                newest_first_of L (pinned pin versions) v) /\
     (timestamps_mixed L (pinned pin versions) ->
      select_version L versions (Some pin)
      = Raise (TypeError "can't compare offset-naive and offset-aware datetimes"))) /\
  (timestamps_ordered L versions ->
   exists v, select_version L versions None = Ok v /\ newest_first_of L versions v) /\
  (timestamps_mixed L versions ->
   select_version L versions None
   = Raise (TypeError "can't compare offset-naive and offset-aware datetimes")).
Proof.
  intros Hne. split; [|split].
  - intros pin Hpin. rewrite (select_version_pinned L versions pin Hne Hpin).
    split; [now intros -> |]. split; [now intros m -> |]. split.
    + intros Hm Hord.
      destruct (sort_newest_first_spec L _ Hm Hord) as (v & rest & Hs & Hv).
      exists v. split; [|exact Hv].
      destruct (pinned pin versions) as [|m [|m' ms]] eqn:Hp; [congruence| |].
      * destruct Hv as (before & after & kv & Heq & _).
        destruct before as [|b [|b' bs]]; cbn in Heq; congruence.
      * now rewrite Hs.
    + intros Hmix. pose proof (sort_newest_first_mixed L _ Hmix) as Hs.
      destruct Hmix as [_ (a & b & ka & kb & Ha & Hb & Hka & Hkb & Haware & Hnaive)].
      destruct (pinned pin versions) as [|m [|m' ms]] eqn:Hp.
      * destruct Ha.
      * destruct Ha as [<- | []]. destruct Hb as [<- | []]. congruence.
      * now rewrite Hs.
  - intros Hord.
    rewrite (select_version_unpinned L versions None Hne (or_introl eq_refl)).
    destruct (sort_newest_first_spec L _ Hne Hord) as (v & rest & Hs & Hv).
    exists v. rewrite Hs. now split.
  - intros Hmix.
    rewrite (select_version_unpinned L versions None Hne (or_introl eq_refl)).
    now rewrite (sort_newest_first_mixed L _ Hmix).
Qed.

Lemma select_version_policy_witness :
  (forall pin, pin <> "" ->
     (pinned pin [sodium_old; sodium_version; sodium_reupload] = [] ->
      select_version basic_lib [sodium_old; sodium_version; sodium_reupload] (Some pin)
      = Raise (ValueError ("No compatible version_number='" ++ pin ++ "' found"))) /\
     (forall m, pinned pin [sodium_old; sodium_version; sodium_reupload] = [m] ->
                select_version basic_lib [sodium_old; sodium_version; sodium_reupload]
                  (Some pin) = Ok m) /\
     (pinned pin [sodium_old; sodium_version; sodium_reupload] <> [] ->
      timestamps_ordered basic_lib (pinned pin [sodium_old; sodium_version; sodium_reupload]) ->
      exists v, select_version basic_lib [sodium_old; sodium_version; sodium_reupload]
                  (Some pin) = Ok v /\
                newest_first_of basic_lib
                  (pinned pin [sodium_old; sodium_version; sodium_reupload]) v) /\
     (timestamps_mixed basic_lib (pinned pin [sodium_old; sodium_version; sodium_reupload]) ->
      select_version basic_lib [sodium_old; sodium_version; sodium_reupload] (Some pin)
      = Raise (TypeError "can't compare offset-naive and offset-aware datetimes"))) /\
  (timestamps_ordered basic_lib [sodium_old; sodium_version; sodium_reupload] ->
   exists v, select_version basic_lib [sodium_old; sodium_version; sodium_reupload] None
             = Ok v /\
             newest_first_of basic_lib [sodium_old; sodium_version; sodium_reupload] v) /\
  (timestamps_mixed basic_lib [sodium_old; sodium_version; sodium_reupload] ->
   select_version basic_lib [sodium_old; sodium_version; sodium_reupload] None
   = Raise (TypeError "can't compare offset-naive and offset-aware datetimes")).
Proof.
  apply (select_version_policy basic_lib [sodium_old; sodium_version; sodium_reupload]).
  discriminate.
Defined.

(** The policy at work: the newest wins, the earlier of two tied
    versions wins, a pin restricts the candidates. *)
Example select_version_examples :
  select_version basic_lib [sodium_old; sodium_version; sodium_reupload] None
  = Ok sodium_version /\
  select_version basic_lib [sodium_old; sodium_reupload; sodium_version] None
  = Ok sodium_reupload /\
  select_version basic_lib [sodium_reupload; sodium_old; sodium_version] (Some "0.5.3")
  = Ok sodium_reupload /\
  select_version basic_lib [sodium_old; sodium_version] (Some "0.5.2") = Ok sodium_old /\
  select_version basic_lib [sodium_old; sodium_version] (Some "0.6.0")
  = Raise (ValueError "No compatible version_number='0.6.0' found").
Proof. repeat split; vm_compute; reflexivity. Qed.

(** C2 as stated fails.  The two versions below carry ISO-8601
    timestamps that both parse, one without an offset and one with; the
    list is not empty, yet without a pin no version is returned, and
    under a pin that both carry none is either: ranking them ends with
    the exception of the comparison. *)
Lemma select_version_counterexample :
  [version_published "2024-05-01T12:00:00"; version_published "2024-05-02T12:00:00Z"] <> [] /\
  is_ok (version_sort_key basic_lib (version_published "2024-05-01T12:00:00")) = true /\
  is_ok (version_sort_key basic_lib (version_published "2024-05-02T12:00:00Z")) = true /\
  select_version basic_lib
    [version_published "2024-05-01T12:00:00"; version_published "2024-05-02T12:00:00Z"] None
  = Raise (TypeError "can't compare offset-naive and offset-aware datetimes") /\
  pinned "2.0.0"
    [version_published "2024-05-01T12:00:00"; version_published "2024-05-02T12:00:00Z"]
  = [version_published "2024-05-01T12:00:00"; version_published "2024-05-02T12:00:00Z"] /\
  select_version basic_lib
    [version_published "2024-05-01T12:00:00"; version_published "2024-05-02T12:00:00Z"]
    (Some "2.0.0")
  = Raise (TypeError "can't compare offset-naive and offset-aware datetimes").
Proof.
  split; [discriminate|]. repeat split; vm_compute; reflexivity.
Qed.

(** Ranking needs the timestamps: a naive one next to an aware one ends
    the selection with the exception of the comparison, and so does one
    that does not parse; a single match of a pin is not ranked, so its
    timestamp is not read. *)
Example select_version_unranked :
  select_version basic_lib
    [version_published "2024-05-01T12:00:00"; version_published "2024-05-01T12:00:00Z"] None
  = Raise (TypeError "can't compare offset-naive and offset-aware datetimes") /\
  select_version basic_lib [version_published "yesterday"] None
  = Raise (ValueError "Invalid isoformat string: 'yesterday'") /\
  select_version basic_lib [version_published "yesterday"] (Some "2.0.0")
  = Ok (version_published "yesterday").
Proof. repeat split; vm_compute; reflexivity. Qed.

(** ** Effects of resolving references *)

Lemma io_bind_ext {A B : Type} (m m' : IO A) (k k' : A -> IO B) w :
  m w = m' w -> (forall a w1, k a w1 = k' a w1) -> io_bind m k w = io_bind m' k' w.
Proof.
  intros Hm Hk. unfold io_bind. rewrite Hm.
  destruct (m' w) as [[a|e] w1]; [apply Hk | reflexivity].
Qed.

Lemma resolve_entry_outcome L R minecraft loader require_loader entry w :
  resolve_entry L R minecraft loader require_loader entry w
  = (fst (entry_outcome L R minecraft loader require_loader entry (requests w)),
     {| fs := fs w;
        requests := snd (entry_outcome L R minecraft loader require_loader entry (requests w));
        stdout := stdout w |}).
Proof.
  destruct w as [f h o].
  cbv [entry_outcome resolve_entry io_bind io_lift fetch_versions request_json
       io_ret io_raise blank requests fs stdout].
  destruct (parse_project_id L (ref_url entry)) as [project_id|]; [|reflexivity].
  match goal with |- context [R h ?u] => destruct (R h u) as [[| | | | |l|]|] end;
    try reflexivity.
  destruct (select_version L _ (ref_version entry)) as [v|]; [|reflexivity].
  destruct (select_file v) as [file|]; [|reflexivity].
  destruct (build_lock_entry file (ref_side entry)); reflexivity.
Qed.

(** The loop prints, asks the registry and touches no file; what it
    returns and what it asks depend on the earlier requests only. *)
Lemma resolve_loop_frame L R minecraft loader label require_loader entries :
  forall i resolved seen h,
  exists r h' out, forall w, requests w = h ->
    resolve_loop L R minecraft loader label require_loader i entries resolved seen w
    = (r, {| fs := fs w; requests := h'; stdout := (stdout w ++ out)%list |}).
Proof.
  induction entries as [|entry rest IH]; intros i resolved seen h.
  - exists (Ok resolved), h, []. intros [f h0 o] Hw. cbn in Hw. subst h0.
    cbn. now rewrite List.app_nil_r.
  - destruct (entry_outcome L R minecraft loader require_loader entry h) as [r1 h1] eqn:Ho.
    destruct r1 as [lock_entry|e].
    + destruct (bool_decide (entry_filename lock_entry ∈ seen)) eqn:Hdup.
      * exists (Raise (ValueError (duplicate_message (entry_filename lock_entry) label))),
          h1, [].
        intros w Hw. cbn [resolve_loop]. unfold io_bind.
        rewrite resolve_entry_outcome, Hw, Ho. cbn [fst snd]. rewrite Hdup.
        unfold io_raise. cbn. now rewrite List.app_nil_r.
      * destruct (IH (S i) (resolved ++ [lock_entry])%list
                    ({[entry_filename lock_entry]} ∪ seen) h1) as (r & h' & out & Hrest).
        eexists r, h', (_ :: out). intros w Hw. cbn [resolve_loop]. unfold io_bind at 1.
        rewrite resolve_entry_outcome, Hw, Ho. cbn [fst snd]. rewrite Hdup.
        unfold io_bind, print. cbn [fs requests stdout].
        rewrite Hrest by reflexivity. cbn [fs requests stdout].
        now rewrite <- List.app_assoc.
    + exists (Raise e), h1, []. intros w Hw. cbn [resolve_loop]. unfold io_bind.
      rewrite resolve_entry_outcome, Hw, Ho. cbn. now rewrite List.app_nil_r.
Qed.

Lemma resolve_entries_frame L R entries minecraft loader label require_loader h :
  exists r h' out, forall w, requests w = h ->
    resolve_entries L R entries minecraft loader label require_loader w
    = (r, {| fs := fs w; requests := h'; stdout := (stdout w ++ out)%list |}).
Proof.
  destruct (resolve_loop_frame L R minecraft loader label require_loader entries 0 [] ∅ h)
    as (r & h' & out & H).
  exists (match r with Ok resolved => Ok (sort_by_filename L resolved) | Raise e => Raise e end),
    h', out.
  intros w Hw. unfold resolve_entries, io_bind. rewrite (H w Hw).
  destruct r; reflexivity.
Qed.

(** ** The resolution loop *)

Lemma entry_outcome_inv L R minecraft loader require_loader entry h lock_entry :
  fst (entry_outcome L R minecraft loader require_loader entry h) = Ok lock_entry ->
  exists project_id answer version file,
    parse_project_id L (ref_url entry) = Ok project_id /\
    R h ("https://api.modrinth.com/v2/project/" ++ project_id ++ "/version")
    = Ok (VList answer) /\
    select_version L
      (filter_versions (only_dicts answer) minecraft
         (if require_loader then Some loader else None))
      (ref_version entry) = Ok version /\
    select_file version = Ok file /\
    build_lock_entry file (ref_side entry) = Ok lock_entry.
Proof.
  cbv [entry_outcome resolve_entry io_bind io_lift fetch_versions request_json
       io_ret io_raise blank requests fs stdout].
  destruct (parse_project_id L (ref_url entry)) as [project_id|]; [|discriminate].
  match goal with |- context [R h ?u] => destruct (R h u) as [[| | | | |l|]|] eqn:HR end;
    try discriminate.
  destruct (select_version L _ (ref_version entry)) as [v|] eqn:Hv; [|discriminate].
  destruct (select_file v) as [file|] eqn:Hf; [|discriminate].
  cbn [fst]. intros Hb. exists project_id, l, v, file. auto.
Qed.

Lemma resolve_all_Forall2 L R minecraft loader require_loader entries :
  forall h lock_entries h',
  resolve_all L R minecraft loader require_loader entries h = (Ok lock_entries, h') ->
  Forall2 (fun entry lock_entry =>
             exists h0, fst (entry_outcome L R minecraft loader require_loader entry h0)
                        = Ok lock_entry)
          entries lock_entries.
Proof.
  induction entries as [|entry rest IH]; intros h les h' H; cbn [resolve_all] in H.
  - injection H as <- _. constructor.
  - destruct (entry_outcome L R minecraft loader require_loader entry h)
      as [[le|e] h1] eqn:Ho; [|discriminate].
    destruct (resolve_all L R minecraft loader require_loader rest h1)
      as [[les'|e] h2] eqn:Hr; [|discriminate].
    injection H as <- <-. constructor; [|eapply IH; exact Hr].
    exists h. now rewrite Ho.
Qed.

Lemma NoDup_snoc {A : Type} (l : list A) x : List.NoDup l -> ~ In x l -> List.NoDup (l ++ [x]).
Proof.
  intros Hl Hx. apply List.NoDup_app.
  - exact Hl.
  - repeat constructor. intros [].
  - intros a Ha [<- | []]. contradiction.
Qed.

Section Loop.

Context (L : pylib) (R : registry) (minecraft loader label : string) (require_loader : bool).

(** When every reference resolves: the loop returns all the lock
    entries, unless two of them have the same filename, which it reports
    at the second of them. *)
Lemma resolve_loop_all entries : forall i resolved seen w lock_entries h',
  resolve_all L R minecraft loader require_loader entries (requests w)
  = (Ok lock_entries, h') ->
  (forall f, f ∈ seen <-> In f (map entry_filename resolved)) ->
  (List.NoDup (map entry_filename (resolved ++ lock_entries)) ->
   exists out,
     resolve_loop L R minecraft loader label require_loader i entries resolved seen w
     = (Ok (resolved ++ lock_entries)%list,
        {| fs := fs w; requests := h'; stdout := (stdout w ++ out)%list |})) /\
  (List.NoDup (map entry_filename resolved) ->
   ~ List.NoDup (map entry_filename (resolved ++ lock_entries)) ->
   exists f w',
     resolve_loop L R minecraft loader label require_loader i entries resolved seen w
     = (Raise (ValueError (duplicate_message f label)), w') /\
     exists l1 l2 l3,
       map entry_filename (resolved ++ lock_entries) = (l1 ++ f :: l2 ++ f :: l3)%list).
Proof.
  induction entries as [|entry rest IH]; intros i resolved seen w les h' Hall Hseen;
    cbn [resolve_all] in Hall.
  - injection Hall as <- <-. rewrite List.app_nil_r. split.
    + intros _. exists []. destruct w; cbn. now rewrite List.app_nil_r.
    + intros H1 H2. contradiction.
  - destruct (entry_outcome L R minecraft loader require_loader entry (requests w))
      as [[le|e] h1] eqn:Ho; [|discriminate].
    destruct (resolve_all L R minecraft loader require_loader rest h1)
      as [[les'|e] h2] eqn:Hr; [|discriminate].
    injection Hall as <- <-.
    cbn [resolve_loop]. unfold io_bind at 1 3.
    rewrite resolve_entry_outcome, Ho. cbn [fst snd].
    destruct (bool_decide (entry_filename le ∈ seen)) eqn:Hdup.
    + apply bool_decide_eq_true in Hdup. apply Hseen in Hdup.
      split.
      * intros Hnd. exfalso. rewrite List.map_app in Hnd. cbn [map] in Hnd.
        apply List.NoDup_remove_2 in Hnd. apply Hnd, List.in_or_app. now left.
      * intros _ _. eexists _, _. split; [reflexivity|].
        apply List.in_split in Hdup as (l1 & l2 & Hsplit).
        exists l1, l2, (map entry_filename les').
        rewrite List.map_app, Hsplit. cbn [map]. now rewrite <- List.app_assoc.
    + apply bool_decide_eq_false in Hdup.
      assert (Hnew : ~ In (entry_filename le) (map entry_filename resolved)).
      { intros Hin. apply Hdup, Hseen, Hin. }
      unfold io_bind, print. cbn [fs requests stdout].
      match goal with
      | |- context [resolve_loop _ _ _ _ _ _ _ _ _ _ ?w2] =>
          destruct (IH (S i) (resolved ++ [le])%list ({[entry_filename le]} ∪ seen) w2
                      les' h2) as [IH1 IH2]
      end.
      * exact Hr.
      * intros f. rewrite elem_of_union, elem_of_singleton, List.map_app, List.in_app_iff, Hseen.
        cbn. intuition.
      * rewrite <- List.app_assoc in IH1, IH2. cbn [app] in IH1, IH2. split.
        -- intros Hnd. destruct (IH1 Hnd) as [out Hout]. eexists (_ :: out).
           rewrite Hout. cbn [fs requests stdout]. now rewrite <- List.app_assoc.
        -- intros Hnd Hdd. apply IH2; [|exact Hdd].
           rewrite List.map_app. cbn [map]. now apply NoDup_snoc.
Qed.

(** When the loop returns: every reference resolved, each to one entry
    of the result, and no two of the entries have the same filename. *)
Lemma resolve_loop_ok_inv entries : forall i resolved seen w res w',
  resolve_loop L R minecraft loader label require_loader i entries resolved seen w
  = (Ok res, w') ->
  (forall f, f ∈ seen <-> In f (map entry_filename resolved)) ->
  List.NoDup (map entry_filename resolved) ->
  exists lock_entries,
    resolve_all L R minecraft loader require_loader entries (requests w)
    = (Ok lock_entries, requests w') /\
    res = (resolved ++ lock_entries)%list /\
    List.NoDup (map entry_filename res).
Proof.
  induction entries as [|entry rest IH]; intros i resolved seen w res w' Hloop Hseen Hnd;
    cbn [resolve_loop resolve_all] in *.
  - injection Hloop as <- <-. exists []. rewrite List.app_nil_r. auto.
  - unfold io_bind at 1 in Hloop. rewrite resolve_entry_outcome in Hloop.
    destruct (entry_outcome L R minecraft loader require_loader entry (requests w))
      as [[le|e] h1] eqn:Ho; cbn [fst snd] in Hloop; [|discriminate].
    destruct (bool_decide (entry_filename le ∈ seen)) eqn:Hdup; [discriminate|].
    apply bool_decide_eq_false in Hdup.
    unfold io_bind, print in Hloop. cbn [fs requests stdout] in Hloop.
    apply IH in Hloop as (les' & Hall & -> & Hres).
    + cbn [requests] in Hall. rewrite Hall. exists (le :: les').
      rewrite <- List.app_assoc in Hres |- *. auto.
    + intros f. rewrite elem_of_union, elem_of_singleton, List.map_app, List.in_app_iff, Hseen.
      cbn. intuition.
    + rewrite List.map_app. cbn [map]. apply NoDup_snoc; [exact Hnd|].
      intros Hin. apply Hdup, Hseen, Hin.
Qed.

End Loop.

Lemma sort_by_filename_perm L l : Permutation (sort_by_filename L l) l.
Proof.
  unfold sort_by_filename.
  rewrite (sort_stable_perm String.leb), List.map_map. cbn [snd].
  now rewrite List.map_id.
Qed.

Lemma resolve_entries_ok_inv L R entries minecraft loader label require_loader w manifest w' :
  resolve_entries L R entries minecraft loader label require_loader w = (Ok manifest, w') ->
  exists lock_entries,
    resolve_all L R minecraft loader require_loader entries (requests w)
    = (Ok lock_entries, requests w') /\
    manifest = sort_by_filename L lock_entries /\
    List.NoDup (map entry_filename lock_entries).
Proof.
  unfold resolve_entries, io_bind, io_ret.
  destruct (resolve_loop L R minecraft loader label require_loader 0 entries [] ∅ w)
    as [[res|e] w1] eqn:Hloop; [|discriminate].
  intros [= <- <-].
  apply resolve_loop_ok_inv in Hloop as (les & Hall & -> & Hnd).
  - exists les. auto.
  - intros f. cbn. rewrite elem_of_empty. tauto.
  - constructor.
Qed.

(** ** Filtering by game version and loader *)

Lemma version_kept_compatible minecraft loader version :
  version_kept minecraft loader version = compatible minecraft loader version.
Proof.
  unfold version_kept, compatible, no_game_versions_constraint, lists_game_version,
    lists_loader.
  destruct (get version "game_versions") as [| | | | |[|g gs]|];
    destruct loader as [l|]; try reflexivity;
    destruct (get version "loaders") as [| | | | |ls|]; cbn [negb andb orb];
    rewrite ?Bool.negb_involutive; reflexivity.
Qed.

Lemma filter_versions_filter versions minecraft loader :
  filter_versions versions minecraft loader
  = List.filter (compatible minecraft loader) versions.
Proof.
  induction versions as [|v vs IH]; [reflexivity|].
  cbn [filter_versions List.filter].
  rewrite version_kept_compatible, IH. reflexivity.
Qed.

Lemma resolve_loop_no_loader L R minecraft loader loader' label entries :
  forall i resolved seen w,
  resolve_loop L R minecraft loader label false i entries resolved seen w
  = resolve_loop L R minecraft loader' label false i entries resolved seen w.
Proof.
  induction entries as [|entry rest IH]; intros i resolved seen w; [reflexivity|].
  cbn [resolve_loop]. unfold io_bind at 1 3.
  change (resolve_entry L R minecraft loader' false entry w)
    with (resolve_entry L R minecraft loader false entry w).
  destruct (resolve_entry L R minecraft loader false entry w) as [[le|e] w1]; [|reflexivity].
  destruct (bool_decide (entry_filename le ∈ seen)); [reflexivity|].
  unfold io_bind, print. apply IH.
Qed.

Lemma resolve_entries_no_loader L R entries minecraft loader loader' label w :
  resolve_entries L R entries minecraft loader label false w
  = resolve_entries L R entries minecraft loader' label false w.
Proof.
  unfold resolve_entries, io_bind.
  now rewrite (resolve_loop_no_loader L R minecraft loader loader').
Qed.

Lemma main_loop_no_loader L R args minecraft loader loader' targets locks :
  Forall (fun lock => String.eqb (fst lock) "mods" = false) locks ->
  forall w,
    main_loop L R args minecraft loader targets locks w
    = main_loop L R args minecraft loader' targets locks w.
Proof.
  induction 1 as [|[tgt [entries lock_path]] locks Htgt _ IH]; intros w; [reflexivity|].
  cbn [main_loop]. cbn [fst] in Htgt. rewrite Htgt.
  destruct (mem_str tgt targets); cbn [negb]; [|apply IH].
  apply io_bind_ext; [apply resolve_entries_no_loader|].
  intros resolved w1. apply io_bind_ext; [reflexivity|].
  intros _ w2. apply IH.
Qed.

(** Under [require_loader] every entry of the manifest was built from a
    file of a version that declares the loader. *)
Lemma resolve_entries_loader L R entries minecraft loader label w manifest w' :
  resolve_entries L R entries minecraft loader label true w = (Ok manifest, w') ->
  Forall (fun lock_entry =>
            exists version file side,
              compatible minecraft (Some loader) version = true /\
              select_file version = Ok file /\
              build_lock_entry file side = Ok lock_entry)
         manifest.
Proof.
  intros H. apply resolve_entries_ok_inv in H as (les & Hall & -> & _).
  apply resolve_all_Forall2 in Hall.
  assert (Hles : Forall (fun lock_entry =>
            exists version file side,
              compatible minecraft (Some loader) version = true /\
              select_file version = Ok file /\
              build_lock_entry file side = Ok lock_entry) les).
  { induction Hall as [|entry le entries' les' [h0 Ho] _ IH]; constructor; [|exact IH].
    apply entry_outcome_inv in Ho as (pid & answer & v & file & _ & _ & Hv & Hf & Hb).
    exists v, file, (ref_side entry). split; [|now split].
    apply select_version_In in Hv. rewrite filter_versions_filter in Hv.
    now apply List.filter_In in Hv. }
  rewrite List.Forall_forall in Hles |- *. intros le Hin. apply Hles.
  eapply Permutation_in; [apply sort_by_filename_perm | exact Hin].
Qed.

(** A resource pack that lists no mod loader resolves as a resource pack
    and not as a mod. *)
Example loader_filter_by_category :
  fst (resolve_entries basic_lib sample_registry [reference_to "faithful" "both"]
         "1.20.1" "fabric" "resourcepacks" (String.eqb "resourcepacks" "mods") (blank []))
  = Ok [[ ("filename", VStr "faithful.zip"); ("side", VStr "both");
          ("downloads", VList [VStr "https://cdn.modrinth.com/data/faithful.zip"]);
          ("hashes", VDict [("sha1", VStr "da39a3ee"); ("sha512", VStr "cf83e135")]);
          ("fileSize", VInt 2048) ]] /\
  fst (resolve_entries basic_lib sample_registry [reference_to "faithful" "both"]
         "1.20.1" "fabric" "mods" (String.eqb "mods" "mods") (blank []))
  = Raise (ValueError "No compatible versions found").
Proof. split; vm_compute; reflexivity. Qed.

(** ** Duplicate filenames and the order of the manifest *)

Lemma prefix_app n s : String.prefix n (n ++ s) = true.
Proof.
  induction n as [|c n IH]; [now destruct s|].
  change (String c n ++ s) with (String c (n ++ s)).
  change (String.prefix (String c n) (String c (n ++ s)))
    with (if Ascii.ascii_dec c c then String.prefix n (n ++ s) else false).
  destruct (Ascii.ascii_dec c c); [exact IH | contradiction].
Qed.

Lemma contains_prefix n s : String.prefix n s = true -> contains n s = true.
Proof. intros H. destruct s; cbn [contains]; rewrite H; reflexivity. Qed.

Lemma contains_app_r n a s : contains n s = true -> contains n (a ++ s) = true.
Proof.
  intros H. induction a as [|c a IH]; [exact H|].
  change (String c a ++ s) with (String c (a ++ s)).
  cbn [contains]. rewrite IH. apply Bool.orb_true_r.
Qed.

Lemma duplicate_message_names filename label :
  contains filename (duplicate_message filename label) = true /\
  contains label (duplicate_message filename label) = true.
Proof.
  unfold duplicate_message. split.
  - apply contains_app_r, contains_prefix, prefix_app.
  - apply contains_app_r. apply (contains_app_r label filename).
    apply contains_app_r, contains_prefix, prefix_app.
Qed.

Lemma string_leb_trans s1 : forall s2 s3,
  String.leb s1 s2 = true -> String.leb s2 s3 = true -> String.leb s1 s3 = true.
Proof.
  unfold String.leb.
  induction s1 as [|a s1 IH]; intros [|b s2] [|c s3]; cbn [String.compare]; try easy.
  unfold Ascii.compare.
  destruct (N.compare_spec (N_of_ascii a) (N_of_ascii b)) as [Hab|Hab|Hab];
  destruct (N.compare_spec (N_of_ascii b) (N_of_ascii c)) as [Hbc|Hbc|Hbc];
  destruct (N.compare_spec (N_of_ascii a) (N_of_ascii c)) as [Hac|Hac|Hac];
    try easy; try lia.
  apply IH.
Qed.

Lemma sort_by_filename_sorted L l :
  StronglySorted (filename_le L) (sort_by_filename L l).
Proof.
  unfold sort_by_filename.
  set (keyed := map (fun e => (str_lower L (entry_filename e), e)) l).
  assert (Hkeys : Forall (fun p => fst p = str_lower L (entry_filename (snd p)))
                         (sort_stable String.leb keyed)).
  { rewrite List.Forall_forall. intros p Hp.
    apply (Permutation_in _ (sort_stable_perm String.leb keyed)) in Hp.
    subst keyed. apply List.in_map_iff in Hp as (e & <- & _). reflexivity. }
  assert (Hs : StronglySorted (keys_ordered String.leb) (sort_stable String.leb keyed)).
  { apply Sorted_StronglySorted.
    - intros a b c. unfold keys_ordered. apply string_leb_trans.
    - apply sort_stable_sorted, String.leb_total. }
  induction Hs as [|p ps Hps IH Hhd]; cbn [map]; [constructor|].
  apply List.Forall_cons_iff in Hkeys as [Hp Hkeys].
  constructor; [now apply IH|].
  rewrite List.Forall_map. rewrite List.Forall_forall in Hhd, Hkeys |- *.
  intros q Hq. unfold filename_le. rewrite <- Hp, <- (Hkeys q Hq). now apply Hhd.
Qed.

(** C4 as stated fails: two references resolve to [sodium.jar], and the
    message of the error names neither of them, by URL or by project
    id. *)
Lemma duplicate_message_counterexample :
  fst (resolve_all basic_lib sample_registry "1.20.1" "fabric" true
         [reference_to "AANobbMI" "both"; reference_to "P7dR8mSH" "client"] [])
  = Ok [sodium_entry;
        [ ("filename", VStr "sodium.jar"); ("side", VStr "client");
          ("downloads", VList [VStr "https://cdn.modrinth.com/data/sodium.jar"]);
          ("hashes", VDict [("sha1", VStr "da39a3ee"); ("sha512", VStr "cf83e135")]);
          ("fileSize", VInt 2048) ]] /\
  exists msg,
    fst (resolve_entries basic_lib sample_registry
           [reference_to "AANobbMI" "both"; reference_to "P7dR8mSH" "client"]
           "1.20.1" "fabric" "mods" true (blank []))
    = Raise (ValueError msg) /\
    contains (ref_url (reference_to "AANobbMI" "both")) msg = false /\
    contains (ref_url (reference_to "P7dR8mSH" "client")) msg = false /\
    contains "AANobbMI" msg = false /\
    contains "P7dR8mSH" msg = false.
Proof.
  split; [vm_compute; reflexivity|].
  exists "Duplicate resolved filename 'sodium.jar' in mods; this is ambiguous".
  repeat split; vm_compute; reflexivity.
Qed.

(** Filenames that differ in case only do not collide, and sort as
    equals: the manifest keeps them in the order of the references. *)
Example case_differs_no_collision :
  match fst (resolve_entries basic_lib sample_registry
               [reference_to "Zx9kQmCap" "both"; reference_to "AANobbMI" "both"]
               "1.20.1" "fabric" "mods" true (blank [])) with
  | Ok manifest => map entry_filename manifest = ["Sodium.jar"; "sodium.jar"]
  | Raise _ => False
  end.
Proof. vm_compute. reflexivity. Qed.

(** ** A resolved manifest passes the packaging validation *)

Lemma resolved_freshly_built L R entries minecraft loader label require_loader w manifest w' :
  Forall (fun entry => In (ref_side entry) VALID_SIDES) entries ->
  resolve_entries L R entries minecraft loader label require_loader w = (Ok manifest, w') ->
  Forall freshly_built manifest.
Proof.
  intros Hsides H. apply resolve_entries_ok_inv in H as (les & Hall & -> & _).
  apply resolve_all_Forall2 in Hall.
  assert (Hles : Forall freshly_built les).
  { induction Hall as [|entry le entries' les' [h0 Ho] _ IH]; constructor.
    - apply entry_outcome_inv in Ho as (pid & answer & v & file & _ & _ & _ & _ & Hb).
      exists file, (ref_side entry). split; [exact Hb|].
      now apply List.Forall_cons_iff in Hsides.
    - apply IH. now apply List.Forall_cons_iff in Hsides. }
  rewrite List.Forall_forall in Hles |- *. intros le Hin. apply Hles.
  eapply Permutation_in; [apply sort_by_filename_perm | exact Hin].
Qed.

(** C10.  An entry that [build_lock_entry] returns for a declared side
    among both/client/server has a non-empty filename, that side, a
    one-element list holding a non-empty download URL, a hash under
    [sha1] or [sha512] and a positive integer size, and a manifest of
    such entries passes [validate_entries] unchanged; so does every
    manifest that resolution returns for references with such sides. *)
Theorem fresh_manifest_validates :
  (forall es manifest_name,
     Forall freshly_built es ->
     validate_entries (VList (map VDict es)) manifest_name = Ok es /\
     Forall (fun e => valid_entry e /\ exists url, get e "downloads" = VList [VStr url]) es) /\
  (forall L R entries minecraft loader label require_loader w manifest w' manifest_name,
     Forall (fun entry => In (ref_side entry) VALID_SIDES) entries ->
     resolve_entries L R entries minecraft loader label require_loader w = (Ok manifest, w') ->
     validate_entries (VList (map VDict manifest)) manifest_name = Ok manifest).
Proof.
  split; [exact freshly_built_validate|].
  intros L R entries minecraft loader label require_loader w manifest w' manifest_name Hs H.
  apply freshly_built_validate. eapply resolved_freshly_built; eassumption.
Qed.

Lemma fresh_manifest_validates_witness :
  validate_entries (VList (map VDict [sodium_entry])) "mods.lock.json" = Ok [sodium_entry] /\
  Forall (fun e => valid_entry e /\ exists url, get e "downloads" = VList [VStr url])
         [sodium_entry].
Proof.
  apply (proj1 fresh_manifest_validates [sodium_entry] "mods.lock.json").
  constructor; [|constructor].
  exists sodium_file, "both". split; [reflexivity | left; reflexivity].
Defined.

(** ** Resolution, reference by reference *)

Lemma entry_outcome_picked L R minecraft loader require_loader entry h lock_entry h' :
  entry_outcome L R minecraft loader require_loader entry h = (Ok lock_entry, h') ->
  picked L R minecraft (if require_loader then Some loader else None) entry h lock_entry h'.
Proof.
  cbv [entry_outcome resolve_entry io_bind io_lift fetch_versions request_json
       io_ret io_raise blank requests fs stdout picked].
  destruct (parse_project_id L (ref_url entry)) as [project_id|]; [|discriminate].
  fold (api_url project_id).
  destruct (R h (api_url project_id)) as [[| | | | |l|]|] eqn:HR; try discriminate.
  destruct (select_version L _ (ref_version entry)) as [v|] eqn:Hv; [|discriminate].
  destruct (select_file v) as [file|] eqn:Hf; [|discriminate].
  destruct (build_lock_entry file (ref_side entry)) as [le|] eqn:Hb; [|discriminate].
  intros [= <- <-]. exists project_id, l, v, file. auto 10.
Qed.

Lemma resolve_all_picked L R minecraft loader require_loader entries :
  forall h lock_entries h',
  resolve_all L R minecraft loader require_loader entries h = (Ok lock_entries, h') ->
  picked_in_turn L R minecraft (if require_loader then Some loader else None) entries h
    lock_entries h'.
Proof.
  induction entries as [|entry rest IH]; intros h les h' H; cbn [resolve_all] in H.
  - injection H as <- <-. constructor.
  - destruct (entry_outcome L R minecraft loader require_loader entry h)
      as [[le|e] h1] eqn:Ho; [|discriminate H].
    destruct (resolve_all L R minecraft loader require_loader rest h1)
      as [[les'|e] h2] eqn:Hr; [|discriminate H].
    injection H as <- <-.
    econstructor; [apply entry_outcome_picked; exact Ho | apply IH; exact Hr].
Qed.

Section Steps.

Context (L : pylib) (R : registry) (minecraft loader label : string) (require_loader : bool).

(** The loop over references that all resolve, to entries of pairwise
    different filenames, goes on with what follows them. *)
Lemma resolve_loop_app done : forall i resolved seen w lock_entries hj,
  resolve_all L R minecraft loader require_loader done (requests w)
  = (Ok lock_entries, hj) ->
  (forall f, f ∈ seen <-> In f (map entry_filename resolved)) ->
  List.NoDup (map entry_filename (resolved ++ lock_entries)) ->
  exists out seen',
    (forall f, f ∈ seen' <-> In f (map entry_filename (resolved ++ lock_entries))) /\
    forall rest,
      resolve_loop L R minecraft loader label require_loader i (done ++ rest)%list
        resolved seen w
      = resolve_loop L R minecraft loader label require_loader (i + List.length done) rest
          (resolved ++ lock_entries)%list seen'
          {| fs := fs w; requests := hj; stdout := (stdout w ++ out)%list |}.
Proof.
  induction done as [|entry done' IH]; intros i resolved seen w les hj Hall Hseen Hnd;
    cbn [resolve_all] in Hall.
  - injection Hall as <- <-. exists [], seen. rewrite List.app_nil_r. split; [exact Hseen|].
    intros rest. cbn [app List.length]. rewrite Nat.add_0_r, List.app_nil_r.
    now destruct w.
  - destruct (entry_outcome L R minecraft loader require_loader entry (requests w))
      as [[le|e] h1] eqn:Ho; [|discriminate Hall].
    destruct (resolve_all L R minecraft loader require_loader done' h1)
      as [[les'|e] h2] eqn:Hr; [|discriminate Hall].
    injection Hall as <- <-.
    assert (Hnew : ~ entry_filename le ∈ seen).
    { intros Hin. apply Hseen in Hin. rewrite List.map_app in Hnd. cbn [map] in Hnd.
      apply List.NoDup_remove_2 in Hnd. apply Hnd, List.in_or_app. now left. }
    set (w2 := {| fs := fs w; requests := h1;
                  stdout := (stdout w ++
                             [("Resolved " ++ label ++ "[" ++ str_of_nat i ++ "]: "
                               ++ ref_url entry ++ " -> " ++ entry_filename le)%string])%list |}).
    destruct (IH (S i) (resolved ++ [le])%list ({[entry_filename le]} ∪ seen) w2 les' h2)
      as (out & seen' & Hseen' & Hrest).
    + exact Hr.
    + intros f. rewrite elem_of_union, elem_of_singleton, List.map_app, List.in_app_iff, Hseen.
      cbn. intuition.
    + now rewrite <- List.app_assoc.
    + rewrite <- List.app_assoc in Hseen', Hrest. cbn [app] in Hseen', Hrest.
      eexists (_ :: out), seen'. split; [exact Hseen'|].
      intros rest. cbn [app resolve_loop]. unfold io_bind at 1.
      rewrite resolve_entry_outcome, Ho. cbn [fst snd].
      rewrite bool_decide_eq_false_2 by exact Hnew.
      unfold io_bind, print. cbn [fs requests stdout]. fold w2.
      rewrite Hrest. cbn [List.length]. rewrite Nat.add_succ_r. cbn [fs stdout w2].
      now rewrite <- List.app_assoc.
Qed.

(** The first reference that fails, or that collides with an earlier
    one, ends the resolution: nothing after it is resolved. *)
Lemma resolve_entries_stops w done entry todo lock_entries hj e h' :
  resolve_all L R minecraft loader require_loader done (requests w)
  = (Ok lock_entries, hj) ->
  List.NoDup (map entry_filename lock_entries) ->
  reference_fails L R minecraft loader label require_loader entry hj lock_entries e h' ->
  exists w',
    resolve_entries L R (done ++ entry :: todo)%list minecraft loader label require_loader w
    = (Raise e, w') /\
    fs w' = fs w /\ requests w' = h'.
Proof.
  intros Hall Hnd Hfail.
  destruct (resolve_loop_app done 0 [] ∅ w lock_entries hj Hall)
    as (out & seen' & Hseen' & Hrest).
  { intros f. cbn. rewrite elem_of_empty. tauto. }
  { exact Hnd. }
  cbn [app] in Hseen', Hrest.
  unfold resolve_entries. unfold io_bind at 1. rewrite Hrest.
  cbn [resolve_loop]. unfold io_bind at 1. rewrite resolve_entry_outcome.
  cbn [requests fs stdout].
  destruct Hfail as [Ho | (le & Ho & Hin & ->)]; rewrite Ho; cbn [fst snd].
  - eexists. split; [reflexivity|]. now split.
  - rewrite bool_decide_eq_true_2 by (apply Hseen'; exact Hin).
    eexists. split; [reflexivity|]. now split.
Qed.

(** References that all resolve, to entries of pairwise different
    filenames, give the manifest of their entries. *)
Lemma resolve_entries_returns w entries lock_entries h' :
  resolve_all L R minecraft loader require_loader entries (requests w)
  = (Ok lock_entries, h') ->
  List.NoDup (map entry_filename lock_entries) ->
  exists w',
    resolve_entries L R entries minecraft loader label require_loader w
    = (Ok (sort_by_filename L lock_entries), w') /\
    fs w' = fs w /\ requests w' = h'.
Proof.
  intros Hall Hnd.
  destruct (resolve_loop_all L R minecraft loader label require_loader entries 0 [] ∅ w
              lock_entries h' Hall) as [Hok _].
  { intros f. cbn. rewrite elem_of_empty. tauto. }
  destruct (Hok Hnd) as [out Hloop]. cbn [app] in Hloop.
  eexists. unfold resolve_entries, io_bind. rewrite Hloop.
  split; [reflexivity|]. now split.
Qed.

End Steps.

(** ** The manifest of a category *)

Section StableOrder.

Context {A : Type} (le : string -> string -> bool).
Hypothesis le_refl : forall k, le k k = true.

Lemma insert_stable_filter name k (x : A) l :
  List.filter (fun p => String.eqb (fst p) name) (insert_stable le k x l)
  = List.filter (fun p => String.eqb (fst p) name) ((k, x) :: l).
Proof.
  induction l as [|[k' y] l IH]; cbn [insert_stable]; [reflexivity|].
  destruct (le k k') eqn:Hle; [reflexivity|].
  cbn [List.filter fst] in IH |- *. rewrite IH.
  destruct (String.eqb_spec k name) as [-> | Hk]; [|reflexivity].
  destruct (String.eqb_spec k' name) as [-> | Hk']; [|reflexivity].
  rewrite le_refl in Hle. discriminate Hle.
Qed.

Lemma sort_stable_filter name (l : list (string * A)) :
  List.filter (fun p => String.eqb (fst p) name) (sort_stable le l)
  = List.filter (fun p => String.eqb (fst p) name) l.
Proof.
  induction l as [|[k x] l IH]; cbn [sort_stable]; [reflexivity|].
  rewrite insert_stable_filter. cbn [List.filter fst]. now rewrite IH.
Qed.

End StableOrder.

Lemma string_leb_refl k : String.leb k k = true.
Proof. destruct (String.leb_total k k); assumption. Qed.

(** Entries whose filenames are the same in lower case keep their
    order. *)
Lemma sort_by_filename_stable L name l :
  List.filter (lower_named L name) (sort_by_filename L l)
  = List.filter (lower_named L name) l.
Proof.
  unfold sort_by_filename.
  set (key := fun e => str_lower L (entry_filename e)).
  assert (Hmap : forall ps : list (string * dict),
            Forall (fun p => fst p = key (snd p)) ps ->
            List.filter (lower_named L name) (map snd ps)
            = map snd (List.filter (fun p => String.eqb (fst p) name) ps)).
  { induction 1 as [|[k e] ps Hp _ IH]; [reflexivity|].
    cbn [map List.filter snd fst] in *. unfold lower_named at 1. fold (key e).
    rewrite <- Hp, IH. now destruct (String.eqb k name). }
  assert (Hkeys : Forall (fun p : string * dict => fst p = key (snd p))
                         (map (fun e => (key e, e)) l)).
  { rewrite List.Forall_map. now apply List.Forall_forall. }
  rewrite Hmap.
  - rewrite (sort_stable_filter String.leb string_leb_refl), <- Hmap by exact Hkeys.
    rewrite List.map_map. cbn [snd]. now rewrite List.map_id.
  - rewrite List.Forall_forall in Hkeys |- *. intros p Hp. apply Hkeys.
    eapply Permutation_in; [apply sort_stable_perm | exact Hp].
Qed.

(** C4, as the code has it.  In the resolution of a category, a
    reference whose lock entry has the filename of the entry of an
    earlier reference, byte for byte, ends the resolution with a
    [ValueError] whose message names that filename and the category:
    the references after it are not resolved, and nothing is written.
    When the references all resolve, to entries of which no two have the
    same filename, the resolution returns every one of the entries,
    reordered. *)
Theorem resolve_entries_duplicate L R minecraft loader label require_loader w :
  (forall done entry todo lock_entries hj lock_entry h',
     resolve_all L R minecraft loader require_loader done (requests w)
     = (Ok lock_entries, hj) ->
     List.NoDup (map entry_filename lock_entries) ->
     entry_outcome L R minecraft loader require_loader entry hj = (Ok lock_entry, h') ->
     In (entry_filename lock_entry) (map entry_filename lock_entries) ->
     exists w',
       resolve_entries L R (done ++ entry :: todo)%list minecraft loader label
         require_loader w
       = (Raise (ValueError (duplicate_message (entry_filename lock_entry) label)), w') /\
       fs w' = fs w /\
       requests w' = h' /\
       contains (entry_filename lock_entry)
         (duplicate_message (entry_filename lock_entry) label) = true /\
       contains label (duplicate_message (entry_filename lock_entry) label) = true) /\
  (forall entries lock_entries h',
     resolve_all L R minecraft loader require_loader entries (requests w)
     = (Ok lock_entries, h') ->
     List.NoDup (map entry_filename lock_entries) ->
     exists manifest w',
       resolve_entries L R entries minecraft loader label require_loader w
       = (Ok manifest, w') /\
       Permutation manifest lock_entries /\
       List.length manifest = List.length entries).
Proof.
  split.
  - intros done entry todo les hj le h' Hall Hnd Ho Hin.
    destruct (resolve_entries_stops L R minecraft loader label require_loader w done entry
                todo les hj (ValueError (duplicate_message (entry_filename le) label)) h'
                Hall Hnd) as (w' & Hrun & Hfs & Hq).
    { right. exists le. auto. }
    exists w'. split; [exact Hrun|]. split; [exact Hfs|]. split; [exact Hq|].
    apply duplicate_message_names.
  - intros entries les h' Hall Hnd.
    destruct (resolve_entries_returns L R minecraft loader label require_loader w entries
                les h' Hall Hnd) as (w' & Hrun & _ & _).
    exists (sort_by_filename L les), w'. split; [exact Hrun|].
    split; [apply sort_by_filename_perm|].
    rewrite (Permutation_length (sort_by_filename_perm L les)).
    apply resolve_all_Forall2 in Hall. symmetry. eapply List.Forall2_length, Hall.
Qed.

Lemma resolve_entries_duplicate_witness :
  exists w',
    resolve_entries basic_lib sample_registry
      ([reference_to "AANobbMI" "both"]
       ++ reference_to "P7dR8mSH" "client" :: [reference_to "missing" "both"])%list
      "1.20.1" "fabric" "mods" true (blank [])
    = (Raise (ValueError (duplicate_message "sodium.jar" "mods")), w') /\
    fs w' = fs (blank []) /\
    requests w' = [api_url "AANobbMI"; api_url "P7dR8mSH"] /\
    contains "sodium.jar" (duplicate_message "sodium.jar" "mods") = true /\
    contains "mods" (duplicate_message "sodium.jar" "mods") = true.
Proof.
  apply (proj1 (resolve_entries_duplicate basic_lib sample_registry "1.20.1" "fabric" "mods"
                  true (blank []))
           [reference_to "AANobbMI" "both"] (reference_to "P7dR8mSH" "client")
           [reference_to "missing" "both"] [sodium_entry] [api_url "AANobbMI"]
           [ ("filename", VStr "sodium.jar"); ("side", VStr "client");
             ("downloads", VList [VStr "https://cdn.modrinth.com/data/sodium.jar"]);
             ("hashes", VDict [("sha1", VStr "da39a3ee"); ("sha512", VStr "cf83e135")]);
             ("fileSize", VInt 2048) ]).
  - vm_compute. reflexivity.
  - vm_compute. constructor; [intros [] | constructor].
  - vm_compute. reflexivity.
  - vm_compute. left. reflexivity.
Defined.

(** C7.  When the references of a category all resolve, the resolution
    returns exactly if no two of the lock entries have the same
    filename as it is written: a difference in case is enough.  The
    manifest that it returns holds the lock entries, every one of them
    once, in ascending order of the lower-cased filenames, entries
    whose filenames are the same in lower case being in the order of
    their references; and resolving again after the same requests, with
    the registry answering as before, returns the same manifest
    whatever is on disk or on the console. *)
Theorem resolve_entries_sorted L R entries minecraft loader label require_loader w
    lock_entries h' :
  resolve_all L R minecraft loader require_loader entries (requests w)
  = (Ok lock_entries, h') ->
  (~ List.NoDup (map entry_filename lock_entries) ->
   is_ok (fst (resolve_entries L R entries minecraft loader label require_loader w))
   = false) /\
  (List.NoDup (map entry_filename lock_entries) ->
   exists manifest w',
     resolve_entries L R entries minecraft loader label require_loader w
     = (Ok manifest, w') /\
     Permutation manifest lock_entries /\
     StronglySorted (filename_le L) manifest /\
     (forall name,
        List.filter (lower_named L name) manifest
        = List.filter (lower_named L name) lock_entries) /\
     (forall w2, requests w2 = requests w ->
        fst (resolve_entries L R entries minecraft loader label require_loader w2)
        = Ok manifest)).
Proof.
  intros Hall. split.
  - intros Hnd.
    destruct (resolve_loop_all L R minecraft loader label require_loader entries 0 [] ∅ w
                lock_entries h' Hall) as [_ Hdup].
    { intros f. cbn. rewrite elem_of_empty. tauto. }
    destruct (Hdup (List.NoDup_nil _) Hnd) as (f & w' & Hloop & _).
    unfold resolve_entries, io_bind. now rewrite Hloop.
  - intros Hnd.
    destruct (resolve_entries_returns L R minecraft loader label require_loader w entries
                lock_entries h' Hall Hnd) as (w' & Hrun & _ & _).
    exists (sort_by_filename L lock_entries), w'. split; [exact Hrun|].
    split; [apply sort_by_filename_perm|].
    split; [apply sort_by_filename_sorted|].
    split; [intros name; apply sort_by_filename_stable|].
    intros w2 Hw2.
    destruct (resolve_entries_frame L R entries minecraft loader label require_loader
                (requests w)) as (r & h1 & out & Hframe).
    rewrite (Hframe w2 Hw2). rewrite (Hframe w eq_refl) in Hrun. now injection Hrun as ->.
Qed.

Lemma resolve_entries_sorted_witness :
  (~ List.NoDup (map entry_filename
                   [sodium_entry; entry_named "faithful.zip" "both"; entry_named "Sodium.jar" "both"]) ->
   is_ok (fst (resolve_entries basic_lib sample_registry
                 [reference_to "AANobbMI" "both"; reference_to "faithful" "both";
        reference_to "Zx9kQmCap" "both"]
                 "1.20.1" "fabric" "packs" false (blank [])))
   = false) /\
  (List.NoDup (map entry_filename
                 [sodium_entry; entry_named "faithful.zip" "both"; entry_named "Sodium.jar" "both"]) ->
   exists manifest w',
     resolve_entries basic_lib sample_registry
       [reference_to "AANobbMI" "both"; reference_to "faithful" "both";
        reference_to "Zx9kQmCap" "both"]
       "1.20.1" "fabric" "packs" false (blank [])
     = (Ok manifest, w') /\
     Permutation manifest
       [sodium_entry; entry_named "faithful.zip" "both"; entry_named "Sodium.jar" "both"] /\
     StronglySorted (filename_le basic_lib) manifest /\
     (forall name,
        List.filter (lower_named basic_lib name) manifest
        = List.filter (lower_named basic_lib name)
            [sodium_entry; entry_named "faithful.zip" "both"; entry_named "Sodium.jar" "both"]) /\
     (forall w2, requests w2 = requests (blank []) ->
        fst (resolve_entries basic_lib sample_registry
               [reference_to "AANobbMI" "both"; reference_to "faithful" "both";
        reference_to "Zx9kQmCap" "both"]
               "1.20.1" "fabric" "packs" false w2)
        = Ok manifest)).
Proof.
  apply (resolve_entries_sorted basic_lib sample_registry
           [reference_to "AANobbMI" "both"; reference_to "faithful" "both";
        reference_to "Zx9kQmCap" "both"]
           "1.20.1" "fabric" "packs" false (blank [])
           [sodium_entry; entry_named "faithful.zip" "both"; entry_named "Sodium.jar" "both"]
           [api_url "AANobbMI"; api_url "faithful"; api_url "Zx9kQmCap"]).
  vm_compute. reflexivity.
Defined.

(** The manifest of the three references above: the order is that of
    the lower-cased filenames, and the two entries that are equal there
    stay in the order of their references. *)
Example manifest_order :
  match fst (resolve_entries basic_lib sample_registry
               [reference_to "AANobbMI" "both"; reference_to "faithful" "both";
        reference_to "Zx9kQmCap" "both"]
               "1.20.1" "fabric" "packs" false (blank [])) with
  | Ok manifest => map entry_filename manifest = ["faithful.zip"; "sodium.jar"; "Sodium.jar"]
  | Raise _ => False
  end.
Proof. vm_compute. reflexivity. Qed.

(** ** The command: what a run writes and asks *)

Lemma main_unfold L R args w :
  main L R args w
  = match prelude L args (fs w) with
    | Ok (template, minecraft, loader, mods_entries, resource_pack_entries,
          shader_pack_entries) =>
        (_ <~ render_template args template ;;
         _ <~ main_loop L R args minecraft loader (targets_of args)
                [ ("mods", (mods_entries, mods_lock args));
                  ("resourcepacks", (resource_pack_entries, resource_packs_lock args));
                  ("shaderpacks", (shader_pack_entries, shader_packs_lock args)) ] ;;
         io_ret 0%Z) w
    | Raise e => (Raise e, w)
    end.
Proof.
  unfold main, prelude, path_exists, read_toml.
  unfold io_bind at 1. cbn [fst snd].
  destruct (fs w !! pack args) as [v|] eqn:Hpack.
  - rewrite bool_decide_eq_true_2 by (now exists v). cbn [negb].
    unfold io_bind at 1. rewrite Hpack.
    destruct v; try reflexivity.
    unfold io_bind at 1, io_lift at 1.
    destruct (parse_template d) as [[[template minecraft] loader]|]; [|reflexivity].
    cbn [bind]. unfold io_bind at 1, io_lift at 1.
    destruct (collect_entries L d "mods" "mods"); [|reflexivity].
    cbn [bind]. unfold io_bind at 1, io_lift at 1.
    destruct (collect_entries L d "resourcepacks" "packs"); [|reflexivity].
    cbn [bind]. unfold io_bind at 1, io_lift at 1.
    destruct (collect_entries L d "shaderpacks" "packs"); reflexivity.
  - rewrite bool_decide_eq_false_2 by (intros [? ?]; discriminate). reflexivity.
Qed.

Lemma prelude_without_check L args disk :
  prelude L (without_check args) disk = prelude L args disk.
Proof. reflexivity. Qed.

Lemma resolve_entries_fs L R entries minecraft loader label require_loader w :
  fs (snd (resolve_entries L R entries minecraft loader label require_loader w)) = fs w.
Proof.
  destruct (resolve_entries_frame L R entries minecraft loader label require_loader
              (requests w)) as (r & h1 & out & H).
  now rewrite (H w eq_refl).
Qed.

(** One turn of the loop of [main]. *)
Lemma main_loop_skip L R args minecraft loader targets tgt entries lock_path locks w :
  mem_str tgt targets = false ->
  main_loop L R args minecraft loader targets ((tgt, (entries, lock_path)) :: locks) w
  = main_loop L R args minecraft loader targets locks w.
Proof. intros H. cbn [main_loop]. now rewrite H. Qed.

Lemma main_loop_raise L R args minecraft loader targets tgt entries lock_path locks w e w1 :
  mem_str tgt targets = true ->
  resolve_entries L R entries minecraft loader tgt (String.eqb tgt "mods") w = (Raise e, w1) ->
  main_loop L R args minecraft loader targets ((tgt, (entries, lock_path)) :: locks) w
  = (Raise e, w1).
Proof. intros H Hr. cbn [main_loop]. rewrite H. cbn [negb]. unfold io_bind. now rewrite Hr. Qed.

Lemma main_loop_step L R args minecraft loader targets tgt entries lock_path locks w
    resolved w1 :
  mem_str tgt targets = true ->
  resolve_entries L R entries minecraft loader tgt (String.eqb tgt "mods") w
  = (Ok resolved, w1) ->
  main_loop L R args minecraft loader targets ((tgt, (entries, lock_path)) :: locks) w
  = main_loop L R args minecraft loader targets locks
      (if check args then
         {| fs := fs w1; requests := requests w1;
            stdout := (stdout w1 ++ [("Validated " ++ tgt ++ " -> " ++ lock_path ++ " ("
                                      ++ str_of_nat (List.length resolved)
                                      ++ " entries)")%string])%list |}
       else
         {| fs := <[lock_path := VList (map VDict resolved)]> (fs w1); requests := requests w1;
            stdout := (stdout w1 ++ [("Wrote " ++ tgt ++ " lock -> " ++ lock_path ++ " ("
                                      ++ str_of_nat (List.length resolved)
                                      ++ " entries)")%string])%list |}).
Proof.
  intros H Hr. cbn [main_loop]. rewrite H. cbn [negb]. unfold io_bind at 1. rewrite Hr.
  destruct (check args); reflexivity.
Qed.

(** With [--check] the loop leaves the disk as it is. *)
Lemma main_loop_check_fs L R args minecraft loader targets locks :
  check args = true ->
  forall w, fs (snd (main_loop L R args minecraft loader targets locks w)) = fs w.
Proof.
  intros Hcheck.
  induction locks as [|[tgt [entries lock_path]] locks IH]; intros w; [reflexivity|].
  destruct (mem_str tgt targets) eqn:Hin; [|rewrite main_loop_skip by exact Hin; apply IH].
  pose proof (resolve_entries_fs L R entries minecraft loader tgt (String.eqb tgt "mods") w)
    as Hfs.
  destruct (resolve_entries L R entries minecraft loader tgt (String.eqb tgt "mods") w)
    as [[resolved|e] w1] eqn:Hr; cbn [snd] in Hfs.
  - rewrite (main_loop_step _ _ _ _ _ _ _ _ _ _ _ _ _ Hin Hr), Hcheck, IH. exact Hfs.
  - rewrite (main_loop_raise _ _ _ _ _ _ _ _ _ _ _ _ _ Hin Hr). exact Hfs.
Qed.

(** What the loop returns and asks does not depend on [--check], nor on
    the disk or the console. *)
Lemma main_loop_result L R minecraft loader targets locks :
  forall h, exists r h', forall args w, requests w = h ->
    fst (main_loop L R args minecraft loader targets locks w) = r /\
    requests (snd (main_loop L R args minecraft loader targets locks w)) = h'.
Proof.
  induction locks as [|[tgt [entries lock_path]] locks IH]; intros h.
  - exists (Ok tt), h. intros args w Hw. now split.
  - destruct (mem_str tgt targets) eqn:Hin.
    + destruct (resolve_entries_frame L R entries minecraft loader tgt
                  (String.eqb tgt "mods") h) as (r1 & h1 & out & Hframe).
      destruct r1 as [resolved|e].
      * destruct (IH h1) as (r & h' & Hrest).
        exists r, h'. intros args w Hw.
        rewrite (main_loop_step _ _ _ _ _ _ _ _ _ _ _ _ _ Hin (Hframe w Hw)).
        apply Hrest. now destruct (check args).
      * exists (Raise e), h1. intros args w Hw.
        rewrite (main_loop_raise _ _ _ _ _ _ _ _ _ _ _ _ _ Hin (Hframe w Hw)). now split.
    + destruct (IH h) as (r & h' & Hrest).
      exists r, h'. intros args w Hw. rewrite main_loop_skip by exact Hin.
      now apply Hrest.
Qed.

(** C9.  With [--check] a run leaves every file as it was, and it
    returns or raises what the run without [--check] does, after the
    same requests to the registry. *)
Theorem check_mode_writes_nothing L R args w :
  check args = true ->
  fs (snd (main L R args w)) = fs w /\
  fst (main L R args w) = fst (main L R (without_check args) w) /\
  requests (snd (main L R args w)) = requests (snd (main L R (without_check args) w)).
Proof.
  intros Hcheck. rewrite !main_unfold, prelude_without_check.
  destruct (prelude L args (fs w))
    as [[[[[[template minecraft] loader] mods_entries] resource_pack_entries]
         shader_pack_entries]|e]; [|now repeat split].
  change (targets_of (without_check args)) with (targets_of args).
  cbn [mods_lock resource_packs_lock shader_packs_lock without_check].
  set (locks := [ ("mods", (mods_entries, mods_lock args)); _; _ ]).
  unfold io_bind, io_ret.
  assert (Hr1 : exists w1, render_template args template w = (Ok tt, w1) /\
                           fs w1 = fs w /\ requests w1 = requests w).
  { unfold render_template. rewrite Hcheck.
    destruct (mem_str "template" (targets_of args)); eexists; (split; [reflexivity|]);
      now split. }
  assert (Hr2 : exists w2, render_template (without_check args) template w = (Ok tt, w2) /\
                           requests w2 = requests w).
  { unfold render_template.
    change (targets_of (without_check args)) with (targets_of args).
    destruct (mem_str "template" (targets_of args)); eexists; (split; [reflexivity|]);
      reflexivity. }
  destruct Hr1 as (w1 & -> & Hfs1 & Hq1). destruct Hr2 as (w2 & -> & Hq2).
  destruct (main_loop_result L R minecraft loader (targets_of args) locks (requests w))
    as (r & h' & Hres).
  destruct (Hres args w1 Hq1) as [Ha1 Ha2].
  destruct (Hres (without_check args) w2 Hq2) as [Hb1 Hb2].
  pose proof (main_loop_check_fs L R args minecraft loader (targets_of args) locks Hcheck w1)
    as Hfs.
  destruct (main_loop L R args minecraft loader (targets_of args) locks w1) as [ra wa].
  destruct (main_loop L R (without_check args) minecraft loader (targets_of args) locks w2)
    as [rb wb].
  cbn [fst snd] in *. subst ra rb.
  destruct r as [[]|e]; cbn [fst snd]; repeat split; congruence.
Qed.

Lemma check_mode_writes_nothing_witness :
  fs (snd (main basic_lib sample_registry (sample_args true) sample_world))
  = fs sample_world /\
  fst (main basic_lib sample_registry (sample_args true) sample_world)
  = fst (main basic_lib sample_registry (without_check (sample_args true)) sample_world) /\
  requests (snd (main basic_lib sample_registry (sample_args true) sample_world))
  = requests (snd (main basic_lib sample_registry (without_check (sample_args true))
                     sample_world)).
Proof.
  apply (check_mode_writes_nothing basic_lib sample_registry (sample_args true) sample_world).
  reflexivity.
Defined.

(** ** Failures stop the run *)

Lemma answered_nil R h : answered R h [].
Proof. intros [|? ?] url post H; discriminate. Qed.

Lemma answered_app R h a b :
  answered R h a -> answered R (h ++ a) b -> answered R h (a ++ b).
Proof.
  intros Ha Hb pre url post Heq.
  apply List.app_eq_app in Heq as [l [[Hl1 Hl2] | [Hl1 Hl2]]].
  - destruct l as [|x l].
    + cbn in Hl2. rewrite List.app_nil_r in Hl1. subst a.
      specialize (Hb [] url post (eq_sym Hl2)). now rewrite List.app_nil_r in Hb.
    + injection Hl2 as <- _. exact (Ha pre url l Hl1).
  - subst pre. rewrite List.app_assoc. exact (Hb l url post Hl2).
Qed.

Lemma fail_fast_quiet {A : Type} R (m : IO A) :
  (forall w, requests (snd (m w)) = requests w) -> fail_fast R m.
Proof.
  intros H w r w' Hm. exists []. specialize (H w). rewrite Hm in H. cbn in H.
  rewrite H, List.app_nil_r. split; [reflexivity | left; apply answered_nil].
Qed.

Lemma fail_fast_bind {A B : Type} R (m : IO A) (k : A -> IO B) :
  fail_fast R m -> (forall a, fail_fast R (k a)) -> fail_fast R (io_bind m k).
Proof.
  intros Hm Hk w r w' H. unfold io_bind in H.
  destruct (m w) as [[a|e] w1] eqn:Hmw.
  - destruct (Hm w _ _ Hmw) as (made1 & Hq1 & [Hans1 | (pre & url & e & _ & _ & _ & He)]);
      [|discriminate].
    destruct (Hk a w1 r w' H) as (made2 & Hq2 & Hcase).
    exists (made1 ++ made2)%list. rewrite Hq2, Hq1, List.app_assoc. split; [reflexivity|].
    rewrite Hq1 in Hcase. destruct Hcase as [Hans2 | (pre & url & e & -> & Hpre & HR & ->)].
    + left. now apply answered_app.
    + right. exists (made1 ++ pre)%list, url, e.
      rewrite <- !List.app_assoc in *. repeat split; try assumption; try reflexivity.
      now apply answered_app.
  - injection H as <- <-.
    destruct (Hm w _ _ Hmw) as (made & Hq & [Hans | (pre & url & e' & Hmade & Hpre & HR & He)]).
    + exists made. split; [exact Hq | now left].
    + exists made. split; [exact Hq|]. right. exists pre, url, e'.
      injection He as ->. now repeat split.
Qed.

Lemma fail_fast_request R url : fail_fast R (request_json R url).
Proof.
  intros w r w' H. unfold request_json in H. injection H as <- <-. cbn [requests].
  exists [url]. split; [reflexivity|].
  destruct (R (requests w) url) as [v|e] eqn:HR.
  - left. intros [|x pre] u post Heq.
    + injection Heq as <- _. now rewrite List.app_nil_r, HR.
    + injection Heq as _ Heq. destruct pre; discriminate.
  - right. exists [], url, e. rewrite List.app_nil_r.
    repeat split; try assumption. apply answered_nil.
Qed.

Ltac quiet := apply fail_fast_quiet; intros ?; reflexivity.

Lemma fail_fast_resolve_entry L R minecraft loader require_loader entry :
  fail_fast R (resolve_entry L R minecraft loader require_loader entry).
Proof.
  unfold resolve_entry.
  apply fail_fast_bind; [quiet|]. intros project_id.
  apply fail_fast_bind.
  { unfold fetch_versions. apply fail_fast_bind; [apply fail_fast_request|].
    intros []; quiet. }
  intros versions. apply fail_fast_bind; [quiet|]. intros v.
  apply fail_fast_bind; [quiet|]. intros file. quiet.
Qed.

Lemma fail_fast_resolve_entries L R entries minecraft loader label require_loader :
  fail_fast R (resolve_entries L R entries minecraft loader label require_loader).
Proof.
  unfold resolve_entries. apply fail_fast_bind; [|intros; quiet].
  generalize 0%nat, (@nil dict), (∅ : gset string).
  induction entries as [|entry rest IH]; intros i resolved seen; cbn [resolve_loop]; [quiet|].
  apply fail_fast_bind; [apply fail_fast_resolve_entry|]. intros le.
  destruct (bool_decide (entry_filename le ∈ seen)); [quiet|].
  apply fail_fast_bind; [quiet|]. intros _. apply IH.
Qed.

Lemma fail_fast_main_loop L R args minecraft loader targets locks :
  fail_fast R (main_loop L R args minecraft loader targets locks).
Proof.
  induction locks as [|[tgt [entries lock_path]] locks IH]; cbn [main_loop]; [quiet|].
  destruct (mem_str tgt targets); cbn [negb]; [|exact IH].
  apply fail_fast_bind; [apply fail_fast_resolve_entries|]. intros resolved.
  apply fail_fast_bind; [|intros _; exact IH].
  destruct (check args); [quiet|]. apply fail_fast_bind; [quiet | intros; quiet].
Qed.

Lemma fail_fast_main L R args : fail_fast R (main L R args).
Proof.
  unfold main. apply fail_fast_bind; [quiet|]. intros found.
  destruct (negb found); [quiet|].
  apply fail_fast_bind.
  { apply fail_fast_quiet. intros w. unfold read_toml.
    destruct (fs w !! pack args) as [[]|]; reflexivity. }
  intros data. apply fail_fast_bind; [quiet|]. intros [[template minecraft] loader].
  apply fail_fast_bind; [quiet|]. intros mods_entries.
  apply fail_fast_bind; [quiet|]. intros resource_pack_entries.
  apply fail_fast_bind; [quiet|]. intros shader_pack_entries.
  apply fail_fast_bind.
  { destruct (mem_str "template" _); [|quiet].
    destruct (check args); [quiet|]. apply fail_fast_bind; [quiet | intros; quiet]. }
  intros _. apply fail_fast_bind; [apply fail_fast_main_loop | intros; quiet].
Qed.


(** C8 as stated fails: the run below raises while resolving the
    resource packs, after it has written the lock file of the mods. *)
Lemma partial_lock_write_counterexample :
  fst (main basic_lib sample_registry (sample_args false) sample_world)
  = Raise (RuntimeError
             "Modrinth API returned 404 for https://api.modrinth.com/v2/project/missing/version") /\
  fs sample_world !! "modpack/mods.lock.json" = None /\
  fs (snd (main basic_lib sample_registry (sample_args false) sample_world))
    !! "modpack/mods.lock.json"
  = Some (VList [VDict sodium_entry]) /\
  fs (snd (main basic_lib sample_registry (sample_args false) sample_world))
    !! "modpack/resource-packs.lock.json"
  = None.
Proof. repeat split; vm_compute; reflexivity. Qed.

(** The same run with [--check] raises the same exception and writes
    nothing. *)
Example check_run_example :
  fst (main basic_lib sample_registry (sample_args true) sample_world)
  = Raise (RuntimeError
             "Modrinth API returned 404 for https://api.modrinth.com/v2/project/missing/version") /\
  fs (snd (main basic_lib sample_registry (sample_args true) sample_world))
  = fs sample_world /\
  stdout (snd (main basic_lib sample_registry (sample_args true) sample_world))
  = [ "Validated template render -> modpack/pack.template.json";
      "Resolved mods[0]: https://modrinth.com/project/AANobbMI -> sodium.jar";
      "Validated mods -> modpack/mods.lock.json (1 entries)" ].
Proof. repeat split; vm_compute; reflexivity. Qed.

(** ** Normalising project URLs *)

Lemma normalize_project_url_inv L url canonical :
  normalize_project_url L url = Ok canonical ->
  exists parsed id,
    urlparse L url = Ok parsed /\
    In (scheme parsed) ["http"; "https"] /\
    In (netloc parsed) ["modrinth.com"; "www.modrinth.com"] /\
    path_parts (path parsed) = ["project"; id] /\
    canonical = "https://modrinth.com/project/" ++ id.
Proof.
  unfold normalize_project_url.
  destruct (urlparse L url) as [parsed|]; [|discriminate]. cbn [bind].
  destruct (mem_str (scheme parsed) ["http"; "https"]) eqn:Hs; cbn [negb]; [|discriminate].
  destruct (mem_str (netloc parsed) ["modrinth.com"; "www.modrinth.com"]) eqn:Hn;
    cbn [negb]; [|discriminate].
  destruct (path_parts (path parsed)) as [|p0 [|p1 [|p2 ps]]] eqn:Hparts; try discriminate.
  destruct (String.eqb p0 "project") eqn:Hp; [|discriminate].
  apply String.eqb_eq in Hp. subst p0. intros [= <-].
  exists parsed, p1. split; [reflexivity|].
  unfold mem_str in Hs, Hn. apply existsb_exists in Hs as (s & Hs & Hseq).
  apply existsb_exists in Hn as (n & Hn & Hneq).
  apply String.eqb_eq in Hseq, Hneq. subst s n. repeat split; assumption || reflexivity.
Qed.

Lemma normalize_project_url_rejects L url parsed :
  urlparse L url = Ok parsed ->
  ~ In (scheme parsed) ["http"; "https"] \/
  ~ In (netloc parsed) ["modrinth.com"; "www.modrinth.com"] \/
  (forall id, path_parts (path parsed) <> ["project"; id]) ->
  exists msg, normalize_project_url L url = Raise (ValueError msg).
Proof.
  intros Hparse Hbad. unfold normalize_project_url. rewrite Hparse. cbn [bind].
  assert (Hmem : forall s l, mem_str s l = true -> In s l).
  { intros s l H. apply existsb_exists in H as (x & Hx & Heq).
    apply String.eqb_eq in Heq. now subst. }
  destruct (mem_str (scheme parsed) ["http"; "https"]) eqn:Hs; cbn [negb]; [|eauto].
  destruct (mem_str (netloc parsed) ["modrinth.com"; "www.modrinth.com"]) eqn:Hn;
    cbn [negb]; [|eauto].
  destruct Hbad as [Hbad | [Hbad | Hbad]];
    [exfalso; apply Hbad, Hmem, Hs | exfalso; apply Hbad, Hmem, Hn |].
  destruct (path_parts (path parsed)) as [|p0 [|p1 [|p2 ps]]]; eauto.
  destruct (String.eqb p0 "project") eqn:Hp; [|eauto].
  apply String.eqb_eq in Hp. subst p0. now destruct (Hbad p1).
Qed.

Lemma chars_within_refl s : chars_within s s.
Proof. now intros q. Qed.

Lemma chars_within_trans a b c : chars_within a b -> chars_within b c -> chars_within a c.
Proof. intros H1 H2 q Hq. auto. Qed.

Lemma any_char_app q a b : any_char q (a ++ b) = any_char q a || any_char q b.
Proof.
  induction a as [|c a IH]; [reflexivity|].
  change (String c a ++ b) with (String c (a ++ b)). cbn [any_char].
  now rewrite IH, Bool.orb_assoc.
Qed.

Lemma break_at_chars p s :
  chars_within (fst (break_at p s)) s /\ chars_within (snd (break_at p s)) s /\
  any_char p (fst (break_at p s)) = false.
Proof.
  induction s as [|c s (IH1 & IH2 & IH3)]; [now repeat split|].
  cbn [break_at]. destruct (p c) eqn:Hp.
  - repeat split; try reflexivity. now intros q.
  - destruct (break_at p s) as [a b]. cbn [fst snd] in *. repeat split.
    + intros q Hq. cbn [any_char] in *. apply Bool.orb_false_iff in Hq as [Hc Hs].
      now rewrite Hc, (IH1 q Hs).
    + intros q Hq. cbn [any_char] in Hq. apply Bool.orb_false_iff in Hq as [_ Hs]. auto.
    + cbn [any_char]. now rewrite Hp, IH3.
Qed.

Lemma break_at_none p s : any_char p s = false -> break_at p s = (s, EmptyString).
Proof.
  induction s as [|c s IH]; [reflexivity|]. cbn [any_char break_at].
  intros H. apply Bool.orb_false_iff in H as [Hc Hs]. now rewrite Hc, (IH Hs).
Qed.

Lemma remove_chars_chars p s :
  chars_within (remove_chars p s) s /\ any_char p (remove_chars p s) = false.
Proof.
  induction s as [|c s [IH1 IH2]]; [now split|].
  cbn [remove_chars]. destruct (p c) eqn:Hp.
  - split; [|exact IH2]. intros q Hq. cbn [any_char] in Hq.
    apply Bool.orb_false_iff in Hq as [_ Hs]. auto.
  - split.
    + intros q Hq. cbn [any_char] in *. apply Bool.orb_false_iff in Hq as [Hc Hs].
      now rewrite Hc, (IH1 q Hs).
    + cbn [any_char]. now rewrite Hp, IH2.
Qed.

Lemma remove_chars_none p s : any_char p s = false -> remove_chars p s = s.
Proof.
  induction s as [|c s IH]; [reflexivity|]. cbn [any_char remove_chars].
  intros H. apply Bool.orb_false_iff in H as [Hc Hs]. now rewrite Hc, (IH Hs).
Qed.

Lemma lstrip_chars p s : chars_within (lstrip p s) s.
Proof.
  induction s as [|c s IH]; [now intros q|].
  cbn [lstrip]. destruct (p c); [|now intros q].
  intros q Hq. cbn [any_char] in Hq. apply Bool.orb_false_iff in Hq as [_ Hs]. auto.
Qed.

Lemma tail_chars s : chars_within (tail s) s.
Proof.
  destruct s as [|c s]; intros q Hq; [exact Hq|].
  cbn [any_char] in Hq. now apply Bool.orb_false_iff in Hq.
Qed.

Lemma split_scheme_chars url : chars_within (snd (split_scheme url)) url.
Proof.
  unfold split_scheme.
  pose proof (break_at_chars (is_char ":") url) as (_ & H2 & _).
  destruct (break_at (is_char ":") url) as [before rest]. cbn [snd] in H2.
  destruct before as [|c0 before]; [apply chars_within_refl|].
  destruct rest as [|c1 after]; [apply chars_within_refl|].
  destruct (is_ascii_alpha c0 && all_chars is_scheme_char (String c0 before));
    [|apply chars_within_refl].
  cbn [snd]. eapply chars_within_trans; [|exact H2]. apply (tail_chars (String c1 after)).
Qed.

Lemma rsplit_slash_chars s :
  chars_within (fst (rsplit_slash s)) s /\ chars_within (snd (rsplit_slash s)) s.
Proof.
  induction s as [|c s [IH1 IH2]]; [now split|].
  cbn [rsplit_slash]. destruct (rsplit_slash s) as [h t]. cbn [fst snd] in *.
  assert (Hc : forall x, chars_within x s -> chars_within (String c x) (String c s)).
  { intros x Hx q Hq. cbn [any_char] in *. apply Bool.orb_false_iff in Hq as [Hq1 Hq2].
    now rewrite Hq1, (Hx q Hq2). }
  assert (Ht : forall x, chars_within x s -> chars_within x (String c s)).
  { intros x Hx q Hq. cbn [any_char] in Hq. apply Bool.orb_false_iff in Hq as [_ Hq2]. auto. }
  destruct (is_char "/" c); [split; cbn [fst snd]; auto|].
  destruct h; split; cbn [fst snd]; auto; now intros q.
Qed.

Lemma splitparams_chars url : chars_within (fst (splitparams url)) url.
Proof.
  unfold splitparams. pose proof (rsplit_slash_chars url) as [H1 H2].
  destruct (rsplit_slash url) as [h last]. cbn [fst snd] in *.
  destruct (any_char (is_char ";") last); [|apply chars_within_refl].
  unfold split_once. pose proof (break_at_chars (is_char ";") last) as (H3 & _ & _).
  destruct (break_at (is_char ";") last) as [a b]. cbn [fst snd] in *.
  intros q Hq. rewrite any_char_app. now rewrite (H1 q Hq), (H3 q (H2 q Hq)).
Qed.

Lemma split_char_chars c s x :
  In x (split_char c s) -> any_char (is_char c) x = false /\ chars_within x s.
Proof.
  revert x. induction s as [|a s IH]; intros x Hin.
  - destruct Hin as [<- | []]. now split.
  - cbn [split_char] in Hin. destruct (Ascii.eqb a c) eqn:Hac.
    + destruct Hin as [<- | Hin]; [now split|].
      destruct (IH x Hin) as [H1 H2]. split; [exact H1|].
      intros q Hq. cbn [any_char] in Hq. apply Bool.orb_false_iff in Hq as [_ Hq]. auto.
    + destruct (split_char c s) as [|p ps] eqn:Hs.
      * destruct Hin as [<- | []]. split.
        -- cbn [any_char]. unfold is_char. rewrite Ascii.eqb_sym, Hac. reflexivity.
        -- intros q Hq. cbn [any_char] in *. apply Bool.orb_false_iff in Hq as [Hq _].
           now rewrite Hq.
      * destruct Hin as [<- | Hin].
        -- destruct (IH p (or_introl eq_refl)) as [H1 H2]. split.
           ++ cbn [any_char]. unfold is_char at 1. rewrite Ascii.eqb_sym, Hac. exact H1.
           ++ intros q Hq. cbn [any_char] in *. apply Bool.orb_false_iff in Hq as [Hq1 Hq2].
              now rewrite Hq1, (H2 q Hq2).
        -- destruct (IH x (or_intror Hin)) as [H1 H2]. split; [exact H1|].
           intros q Hq. cbn [any_char] in Hq. apply Bool.orb_false_iff in Hq as [_ Hq]. auto.
Qed.

Lemma split_char_none c s : any_char (is_char c) s = false -> split_char c s = [s].
Proof.
  induction s as [|a s IH]; [reflexivity|]. cbn [any_char split_char]. intros H.
  apply Bool.orb_false_iff in H as [Ha Hs]. unfold is_char in Ha.
  rewrite Ascii.eqb_sym, Ha, (IH Hs). reflexivity.
Qed.

(** The path that [urlparse] returns holds no tab, carriage return or
    newline, no [#] and no [?]. *)
Lemma urlparse_path_chars L url parsed :
  urlparse L url = Ok parsed ->
  any_char is_unsafe_url_byte (path parsed) = false /\
  any_char (is_char "#") (path parsed) = false /\
  any_char (is_char "?") (path parsed) = false.
Proof.
  unfold urlparse.
  set (u0 := remove_chars is_unsafe_url_byte (lstrip is_c0_control_or_space url)).
  pose proof (remove_chars_chars is_unsafe_url_byte (lstrip is_c0_control_or_space url))
    as [_ Hu0]. fold u0 in Hu0.
  pose proof (split_scheme_chars u0) as Hu1.
  destruct (split_scheme u0) as [sch u1]. cbn [snd] in Hu1.
  assert (Hu2 : exists loc u2,
             (if String.prefix "//" u1 then break_at is_netloc_delim (tail (tail u1))
              else (EmptyString, u1)) = (loc, u2) /\ chars_within u2 u1).
  { destruct (String.prefix "//" u1).
    - pose proof (break_at_chars is_netloc_delim (tail (tail u1))) as (_ & H & _).
      destruct (break_at is_netloc_delim (tail (tail u1))) as [loc u2]. exists loc, u2.
      split; [reflexivity|]. cbn [snd] in H.
      eapply chars_within_trans; [exact H|].
      eapply chars_within_trans; apply tail_chars.
    - exists EmptyString, u1. split; [reflexivity | apply chars_within_refl]. }
  destruct Hu2 as (loc & u2 & -> & Hu2).
  match goal with |- context [xorb ?a ?b] => destruct (xorb a b) end; [discriminate|].
  unfold split_once.
  pose proof (break_at_chars (is_char "#") u2) as (Hu3 & _ & Hu3').
  destruct (break_at (is_char "#") u2) as [u3 frag]. cbn [fst snd] in *.
  pose proof (break_at_chars (is_char "?") u3) as (Hu4 & _ & Hu4').
  destruct (break_at (is_char "?") u3) as [u4 qry]. cbn [fst snd] in *.
  match goal with |- context [bind ?c _] => destruct c end; [|discriminate]. cbn [bind].
  assert (Hu5 : exists u5 prm,
             (if mem_str sch uses_params && any_char (is_char ";") u4
              then splitparams u4 else (u4, EmptyString)) = (u5, prm) /\ chars_within u5 u4).
  { destruct (mem_str sch uses_params && any_char (is_char ";") u4).
    - pose proof (splitparams_chars u4) as H. destruct (splitparams u4) as [u5 prm].
      exists u5, prm. now split.
    - exists u4, EmptyString. split; [reflexivity | apply chars_within_refl]. }
  destruct Hu5 as (u5 & prm & -> & Hu5). intros [= <-]. cbn [path].
  repeat split.
  - apply Hu5, Hu4, Hu3, Hu2, Hu1, Hu0.
  - apply Hu5, Hu4, Hu3'.
  - apply Hu5, Hu4'.
Qed.

Lemma split_char_app_sep c a b :
  any_char (is_char c) a = false ->
  split_char c (a ++ String c b) = a :: split_char c b.
Proof.
  induction a as [|x a IH]; intros H.
  - change (EmptyString ++ String c b) with (String c b). cbn [split_char].
    now rewrite Ascii.eqb_refl.
  - cbn [any_char] in H. apply Bool.orb_false_iff in H as [Hx Ha]. unfold is_char in Hx.
    change (String x a ++ String c b) with (String x (a ++ String c b)).
    cbn [split_char]. rewrite Ascii.eqb_sym, Hx, (IH Ha). reflexivity.
Qed.

Lemma urlparse_canonical L p :
  any_char is_unsafe_url_byte p = false ->
  any_char (is_char "#") p = false ->
  any_char (is_char "?") p = false ->
  any_char (is_char ";") p = false ->
  urlparse L ("https://modrinth.com/" ++ p)
  = Ok {| scheme := "https"; netloc := "modrinth.com"; path := "/" ++ p;
          params := EmptyString; query := EmptyString; fragment := EmptyString |}.
Proof.
  intros Hunsafe Hfrag Hqry Hprm. unfold urlparse.
  change (lstrip is_c0_control_or_space ("https://modrinth.com/" ++ p))
    with ("https://modrinth.com/" ++ p).
  rewrite remove_chars_none by (rewrite any_char_app, Hunsafe; reflexivity).
  change (split_scheme ("https://modrinth.com/" ++ p))
    with ("https", "//modrinth.com/" ++ p).
  cbv beta iota zeta.
  change (String.prefix "//" ("//modrinth.com/" ++ p)) with true.
  cbv beta iota zeta.
  change (break_at is_netloc_delim (tail (tail ("//modrinth.com/" ++ p))))
    with ("modrinth.com", "/" ++ p).
  cbv beta iota zeta.
  change (any_char (is_char "[") "modrinth.com") with false.
  change (any_char (is_char "]") "modrinth.com") with false.
  change (all_chars is_ascii_byte "modrinth.com") with true.
  cbn [xorb orb negb]. unfold split_once.
  rewrite (break_at_none (is_char "#")) by (rewrite any_char_app, Hfrag; reflexivity).
  cbn [tail]. cbv beta iota zeta.
  rewrite (break_at_none (is_char "?")) by (rewrite any_char_app, Hqry; reflexivity).
  cbn [tail bind]. cbv beta iota zeta.
  rewrite (any_char_app (is_char ";")), Hprm.
  change (any_char (is_char ";") "/") with false.
  change (mem_str "https" uses_params) with true.
  reflexivity.
Qed.

(** Normalising twice is normalising once, unless the project id holds a
    semicolon. *)
Lemma normalize_project_url_idempotent L url canonical :
  normalize_project_url L url = Ok canonical ->
  any_char (is_char ";") canonical = false ->
  normalize_project_url L canonical = Ok canonical.
Proof.
  intros Hnorm Hsemi.
  apply normalize_project_url_inv in Hnorm as (parsed & id & Hparse & _ & _ & Hparts & ->).
  assert (Hid : In id (path_parts (path parsed))) by (rewrite Hparts; right; now left).
  apply List.filter_In in Hid as [Hin Hne].
  apply split_char_chars in Hin as [Hslash Hwithin].
  apply urlparse_path_chars in Hparse as (Hunsafe & Hfrag & Hqry).
  rewrite any_char_app in Hsemi. apply Bool.orb_false_iff in Hsemi as [_ Hsemi].
  unfold normalize_project_url.
  change ("https://modrinth.com/project/" ++ id)
    with ("https://modrinth.com/" ++ ("project/" ++ id)).
  rewrite urlparse_canonical;
    try (rewrite any_char_app, ?Hsemi, ?(Hwithin _ Hunsafe), ?(Hwithin _ Hfrag),
           ?(Hwithin _ Hqry); reflexivity).
  cbn [bind scheme netloc path].
  change (mem_str "https" ["http"; "https"]) with true.
  change (mem_str "modrinth.com" ["modrinth.com"; "www.modrinth.com"]) with true.
  cbn [negb]. unfold path_parts.
  change ("/" ++ "project/" ++ id) with (EmptyString ++ String "/" ("project" ++ String "/" id)).
  rewrite !split_char_app_sep by reflexivity.
  rewrite (split_char_none "/" id Hslash).
  cbn [List.filter]. rewrite Hne.
  change (nonempty EmptyString) with false. change (nonempty "project") with true.
  cbv beta iota. change (String.eqb "project" "project") with true. reflexivity.
Qed.

(** C5 at a URL whose project segment holds a semicolon and is followed
    by a slash.  [urlparse] splits parameters off the last path segment
    only, so the segment [abc;x] is the id on the first pass, and on the
    second pass, where it has become the last segment, the id is [abc]:
    normalising the result of a normalisation changes it.  The id that
    [parse_project_id] reads from the normalised URL differs from the
    one the normaliser put there. *)
Theorem normalize_project_url_twice L :
  normalize_project_url L "https://modrinth.com/project/abc;x/"
  = Ok "https://modrinth.com/project/abc;x" /\
  normalize_project_url L "https://modrinth.com/project/abc;x"
  = Ok "https://modrinth.com/project/abc" /\
  parse_project_id L "https://modrinth.com/project/abc;x" = Ok "abc".
Proof. repeat split; vm_compute; reflexivity. Qed.

(** * Further properties *)

(** ** The pack declaration *)

Tactic Notation "bind_inv" hyp(H) "as" ident(x) ident(E) :=
  match type of H with
  | bind ?m _ = Ok _ => destruct m as [x|] eqn:E; [cbn [bind] in H | discriminate H]
  end.

Lemma as_table_inv raw name d : as_table raw name = Ok d -> raw = VDict d.
Proof. destruct raw; try discriminate. now intros [= ->]. Qed.

Lemma as_nonempty_str_inv raw field s :
  as_nonempty_str raw field = Ok s -> raw = VStr s /\ nonempty s = true.
Proof.
  destruct raw as [| | | |t| |]; try discriminate. cbn [as_nonempty_str].
  destruct (nonempty t) eqn:Hn; [|discriminate]. intros [= <-]. now split.
Qed.

Lemma mem_str_In s l : mem_str s l = true <-> In s l.
Proof.
  unfold mem_str. rewrite existsb_exists. split.
  - intros (x & Hx & Heq). apply String.eqb_eq in Heq. now subst.
  - intros H. exists s. split; [exact H | apply String.eqb_refl].
Qed.

(** X1.  A template that [parse_template] returns has the six keys that
    the builder's [validate_template] requires, with the constant format
    version and game, non-empty strings for name, summary and version
    id, and a dependency table of the game version and the loader; the
    loader is one of the supported ones. *)
Theorem parse_template_sound data template_data minecraft loader :
  parse_template data = Ok (template_data, minecraft, loader) ->
  In loader SUPPORTED_LOADERS /\
  nonempty minecraft = true /\
  validate_template template_data = Ok tt /\
  get template_data "formatVersion" = VInt 1 /\
  get template_data "game" = VStr "minecraft" /\
  is_nonempty_str (get template_data "name") = true /\
  is_nonempty_str (get template_data "summary") = true /\
  is_nonempty_str (get template_data "versionId") = true /\
  exists loader_version,
    nonempty loader_version = true /\
    get template_data "dependencies"
    = VDict [("minecraft", VStr minecraft); (loader, VStr loader_version)].
Proof.
  unfold parse_template. intros H.
  bind_inv H as pack_table Epack. bind_inv H as deps Edeps.
  bind_inv H as name Ename. bind_inv H as summary Esummary.
  bind_inv H as version_id Eid. bind_inv H as mc Emc.
  bind_inv H as ld Eld. bind_inv H as loader_version Elv.
  apply as_nonempty_str_inv in Ename as [_ Hname], Esummary as [_ Hsummary],
    Eid as [_ Hid], Emc as [_ Hmc], Elv as [_ Hlv].
  destruct (mem_str ld SUPPORTED_LOADERS) eqn:Hl; cbn [negb] in H; [|discriminate].
  injection H as <- <- <-. apply mem_str_In in Hl.
  split; [exact Hl|]. split; [exact Hmc|]. split; [reflexivity|].
  split; [reflexivity|]. split; [reflexivity|].
  split; [exact Hname|]. split; [exact Hsummary|]. split; [exact Hid|].
  exists loader_version. split; [exact Hlv | reflexivity].
Qed.

Lemma parse_template_sound_witness :
  In "fabric" SUPPORTED_LOADERS /\
  nonempty "1.20.1" = true /\
  validate_template sample_template = Ok tt /\
  get sample_template "formatVersion" = VInt 1 /\
  get sample_template "game" = VStr "minecraft" /\
  is_nonempty_str (get sample_template "name") = true /\
  is_nonempty_str (get sample_template "summary") = true /\
  is_nonempty_str (get sample_template "versionId") = true /\
  exists loader_version,
    nonempty loader_version = true /\
    get sample_template "dependencies"
    = VDict [("minecraft", VStr "1.20.1"); ("fabric", VStr loader_version)].
Proof.
  apply (parse_template_sound sample_pack_data). reflexivity.
Defined.

(** ** The declared references *)

Lemma collect_item_inv L where_ raw_item r :
  collect_item L where_ raw_item = Ok r -> declares L raw_item r /\ well_formed_reference r.
Proof.
  unfold collect_item. destruct raw_item as [| | | | | |item]; try discriminate.
  intros H. bind_inv H as url Eurl. bind_inv H as side Eside.
  apply as_nonempty_str_inv in Eurl as [Hurl _], Eside as [Hside _].
  destruct (is_valid_side side) eqn:Hvalid; cbn [negb] in H; [|discriminate H].
  destruct (get item "version") as [| | | |pin| |] eqn:Hversion; try discriminate H.
  - bind_inv H as norm Enorm. injection H as <-. split.
    + exists item, url. cbn [ref_url ref_side ref_version].
      split; [reflexivity|]. split; [exact Hurl|]. split; [exact Enorm|].
      split; [exact Hside|]. split; [tauto|]. intros p Hp. discriminate Hp.
    + pose proof Enorm as Hnorm.
      apply normalize_project_url_inv in Hnorm as (parsed & id & _ & _ & _ & Hparts & ->).
      assert (Hid : In id (path_parts (path parsed))) by (rewrite Hparts; right; now left).
      apply List.filter_In in Hid as [_ Hid].
      unfold well_formed_reference. cbn [ref_url ref_side ref_version ref_name].
      split; [now apply is_valid_side_In|]. split; [now exists id|].
      split; [no_result|].
      destruct (get item "name") as [| | | |n| |]; try no_result.
      destruct (nonempty n) eqn:Hn; [|no_result]. intros [= ->]. discriminate Hn.
  - destruct (nonempty pin) eqn:Hpin; cbn [negb] in H; [|discriminate H].
    bind_inv H as norm Enorm. injection H as <-. split.
    + exists item, url. cbn [ref_url ref_side ref_version].
      split; [reflexivity|]. split; [exact Hurl|]. split; [exact Enorm|].
      rewrite Hversion.
      split; [exact Hside|]. split; [split; intros Hp; discriminate Hp|].
      now intros p [= ->].
    + pose proof Enorm as Hnorm.
      apply normalize_project_url_inv in Hnorm as (parsed & id & _ & _ & _ & Hparts & ->).
      assert (Hid : In id (path_parts (path parsed))) by (rewrite Hparts; right; now left).
      apply List.filter_In in Hid as [_ Hid].
      unfold well_formed_reference. cbn [ref_url ref_side ref_version ref_name].
      split; [now apply is_valid_side_In|]. split; [now exists id|].
      split; [intros [= ->]; discriminate Hpin|].
      destruct (get item "name") as [| | | |n| |]; try no_result.
      destruct (nonempty n) eqn:Hn; [|no_result]. intros [= ->]. discriminate Hn.
Qed.

Lemma collect_items_inv L where_ items : forall i refs,
  collect_items L where_ i items = Ok refs ->
  Forall2 (declares L) items refs /\ Forall well_formed_reference refs.
Proof.
  induction items as [|raw items IH]; intros i refs H; cbn [collect_items] in H.
  - injection H as <-. split; constructor.
  - bind_inv H as r Er. bind_inv H as rs Ers. injection H as <-.
    apply collect_item_inv in Er as [Hd Hw]. apply IH in Ers as [Hds Hws].
    split; now constructor.
Qed.

Lemma collect_categories_inv L top_key item_key cats : forall refs,
  collect_categories L top_key item_key cats = Ok refs ->
  Forall2 (declares L) (declared_items cats item_key) refs /\
  Forall well_formed_reference refs.
Proof.
  induction cats as [|[category raw_category] cats IH]; intros refs H;
    cbn [collect_categories] in H.
  - injection H as <-. split; constructor.
  - bind_inv H as category_table Etable. apply as_table_inv in Etable as ->.
    unfold declared_items. cbn [flat_map snd]. fold (declared_items cats item_key).
    destruct (get category_table item_key) as [| | | | |items|]; try discriminate H.
    bind_inv H as rs Ers. bind_inv H as rs' Ers'. injection H as <-.
    apply collect_items_inv in Ers as [Hd Hw]. destruct (IH rs' eq_refl) as [Hds Hws].
    split; [now apply List.Forall2_app | now apply List.Forall_app].
Qed.

Lemma collect_entries_well_formed L data top_key item_key refs :
  collect_entries L data top_key item_key = Ok refs ->
  Forall well_formed_reference refs.
Proof.
  unfold collect_entries. intros H.
  destruct (get data top_key) as [| | | | | |top]; try discriminate H.
  - injection H as <-. constructor.
  - cbn [as_table bind] in H. now apply collect_categories_inv in H.
Qed.

(** X2.  Every reference that [collect_entries] returns has a side among
    both/client/server, a URL of the canonical form with a non-empty
    project id, and neither an empty pin nor an empty name: an empty
    [version] is refused, an empty [name] is left out. *)
Theorem collect_entries_sound L data top_key item_key refs :
  collect_entries L data top_key item_key = Ok refs ->
  Forall well_formed_reference refs.
Proof. exact (collect_entries_well_formed L data top_key item_key refs). Qed.

Lemma collect_entries_sound_witness :
  Forall well_formed_reference [reference_to "AANobbMI" "both"].
Proof.
  apply (collect_entries_sound basic_lib sample_pack_data "mods" "mods"). reflexivity.
Defined.

(** X3.  [collect_entries] returns one reference per declared item, in
    the order of the declaration, categories first: the reference of an
    item has the item's side, the normalised form of its URL and its
    pin.  A declaration without the top-level table gives no reference. *)
Theorem collect_entries_order L data top_key item_key refs :
  collect_entries L data top_key item_key = Ok refs ->
  (get data top_key = VNone /\ refs = []) \/
  (exists top_table,
     get data top_key = VDict top_table /\
     Forall2 (declares L) (declared_items top_table item_key) refs).
Proof.
  unfold collect_entries. intros H.
  destruct (get data top_key) as [| | | | | |top]; try discriminate H.
  - injection H as <-. now left.
  - cbn [as_table bind] in H. apply collect_categories_inv in H as [H _].
    right. now exists top.
Qed.

Lemma collect_entries_order_witness :
  (get sample_pack_data "mods" = VNone /\ [reference_to "AANobbMI" "both"] = []) \/
  (exists top_table,
     get sample_pack_data "mods" = VDict top_table /\
     Forall2 (declares basic_lib) (declared_items top_table "mods")
             [reference_to "AANobbMI" "both"]).
Proof.
  apply (collect_entries_order basic_lib sample_pack_data "mods" "mods"). reflexivity.
Defined.

(** X4.  An error in the declaration ends every run before its first
    effect, whatever the target and with or without [--check]: when the
    template does not parse, or the references of any of the three
    categories do not, [main] raises that error, in this order of
    precedence, and has asked, printed and written nothing. *)
Theorem main_config_error L R args w data e :
  fs w !! pack args = Some (VDict data) ->
  parse_template data = Raise e \/
  (is_ok (parse_template data) = true /\
   (collect_entries L data "mods" "mods" = Raise e \/
    (is_ok (collect_entries L data "mods" "mods") = true /\
     (collect_entries L data "resourcepacks" "packs" = Raise e \/
      (is_ok (collect_entries L data "resourcepacks" "packs") = true /\
       collect_entries L data "shaderpacks" "packs" = Raise e))))) ->
  main L R args w = (Raise e, w).
Proof.
  intros Hpack Herr. rewrite main_unfold. unfold prelude. rewrite Hpack.
  destruct (parse_template data) as [[[t mc] ld]|e0].
  - destruct Herr as [Herr | [_ Herr]]; [discriminate Herr|]. cbn [bind].
    destruct (collect_entries L data "mods" "mods") as [m|e1].
    + destruct Herr as [Herr | [_ Herr]]; [discriminate Herr|]. cbn [bind].
      destruct (collect_entries L data "resourcepacks" "packs") as [r|e2].
      * destruct Herr as [Herr | [_ Herr]]; [discriminate Herr|]. cbn [bind].
        now rewrite Herr.
      * destruct Herr as [[= ->] | [Hok _]]; [reflexivity | discriminate Hok].
    + destruct Herr as [[= ->] | [Hok _]]; [reflexivity | discriminate Hok].
  - destruct Herr as [[= ->] | [Hok _]]; [reflexivity | discriminate Hok].
Qed.

Lemma main_config_error_witness :
  main basic_lib sample_registry (sample_args false)
    {| fs := {[ "modpack/pack.toml" := VDict rift_pack_data ]}; requests := []; stdout := [] |}
  = (Raise (ValueError
              "dependencies.loader must be one of ('fabric', 'forge', 'quilt', 'neoforge'), got 'rift'"),
     {| fs := {[ "modpack/pack.toml" := VDict rift_pack_data ]}; requests := []; stdout := [] |}).
Proof.
  apply (main_config_error basic_lib sample_registry (sample_args false) _ rift_pack_data).
  - reflexivity.
  - left. reflexivity.
Defined.

(** ** Project URLs *)

Lemma normalized_id L url canonical :
  normalize_project_url L url = Ok canonical ->
  exists id,
    canonical = canonical_url id /\
    nonempty id = true /\
    any_char (is_char "/") id = false /\
    any_char (is_char "?") id = false /\
    any_char (is_char "#") id = false /\
    any_char is_unsafe_url_byte id = false.
Proof.
  intros Hnorm.
  apply normalize_project_url_inv in Hnorm as (parsed & id & Hparse & _ & _ & Hparts & ->).
  assert (Hid : In id (path_parts (path parsed))) by (rewrite Hparts; right; now left).
  apply List.filter_In in Hid as [Hin Hne].
  apply split_char_chars in Hin as [Hslash Hwithin].
  apply urlparse_path_chars in Hparse as (Hunsafe & Hfrag & Hqry).
  exists id. repeat split; auto.
Qed.

(** X5.  A normalised URL is the canonical prefix followed by a project
    id that is not empty and holds no slash, question mark, hash, tab,
    carriage return or newline: the query and the fragment of the input
    are dropped, and so are the characters that [urlparse] removes. *)
Theorem normalize_project_url_id L url canonical :
  normalize_project_url L url = Ok canonical ->
  exists id,
    canonical = canonical_url id /\
    nonempty id = true /\
    any_char (is_char "/") id = false /\
    any_char (is_char "?") id = false /\
    any_char (is_char "#") id = false /\
    any_char is_unsafe_url_byte id = false.
Proof. exact (normalized_id L url canonical). Qed.

Lemma normalize_project_url_id_witness :
  exists id,
    "https://modrinth.com/project/AANobbMI" = canonical_url id /\
    nonempty id = true /\
    any_char (is_char "/") id = false /\
    any_char (is_char "?") id = false /\
    any_char (is_char "#") id = false /\
    any_char is_unsafe_url_byte id = false.
Proof.
  apply (normalize_project_url_id basic_lib "http://www.modrinth.com/project/AANobbMI/?tab=versions#top").
  reflexivity.
Defined.

(** X6.  Normalising a normalised URL returns it unchanged, provided it
    holds no semicolon. *)
Theorem normalize_twice_without_semicolon L url canonical :
  normalize_project_url L url = Ok canonical ->
  any_char (is_char ";") canonical = false ->
  normalize_project_url L canonical = Ok canonical.
Proof. exact (normalize_project_url_idempotent L url canonical). Qed.

Lemma normalize_twice_without_semicolon_witness :
  normalize_project_url basic_lib "https://modrinth.com/project/AANobbMI"
  = Ok "https://modrinth.com/project/AANobbMI".
Proof.
  apply (normalize_twice_without_semicolon basic_lib
           "http://www.modrinth.com/project/AANobbMI/?tab=versions#top");
    reflexivity.
Defined.

(** X7.  [parse_project_id] reads back from a normalised URL the project
    id that [normalize_project_url] put into it, provided the URL holds
    no semicolon. *)
Theorem parse_project_id_of_normalized L url canonical :
  normalize_project_url L url = Ok canonical ->
  any_char (is_char ";") canonical = false ->
  exists id, canonical = canonical_url id /\ parse_project_id L canonical = Ok id.
Proof.
  intros Hnorm Hsemi.
  destruct (normalized_id L url canonical Hnorm)
    as (id & -> & Hne & Hslash & Hqry & Hfrag & Hunsafe).
  exists id. split; [reflexivity|].
  unfold canonical_url in Hsemi. rewrite any_char_app in Hsemi.
  apply Bool.orb_false_iff in Hsemi as [_ Hsemi].
  unfold parse_project_id, canonical_url.
  change ("https://modrinth.com/project/" ++ id)
    with ("https://modrinth.com/" ++ ("project/" ++ id)).
  rewrite urlparse_canonical;
    try (rewrite any_char_app, ?Hsemi, ?Hunsafe, ?Hfrag, ?Hqry; reflexivity).
  cbn [bind path]. unfold path_parts.
  change ("/" ++ "project/" ++ id) with (EmptyString ++ String "/" ("project" ++ String "/" id)).
  rewrite !split_char_app_sep by reflexivity.
  rewrite (split_char_none "/" id Hslash).
  cbn [List.filter]. rewrite Hne.
  change (nonempty EmptyString) with false. change (nonempty "project") with true.
  cbv beta iota. change (String.eqb "project" "project") with true. reflexivity.
Qed.

Lemma parse_project_id_of_normalized_witness :
  exists id,
    "https://modrinth.com/project/AANobbMI" = canonical_url id /\
    parse_project_id basic_lib "https://modrinth.com/project/AANobbMI" = Ok id.
Proof.
  apply (parse_project_id_of_normalized basic_lib "https://modrinth.com/project/AANobbMI");
    reflexivity.
Defined.

(** With a semicolon the id can be lost: this URL is accepted by the
    normaliser, and the project id cannot be read from its normal
    form. *)
Example semicolon_id_lost :
  normalize_project_url basic_lib "https://modrinth.com/project/;x/"
  = Ok "https://modrinth.com/project/;x" /\
  parse_project_id basic_lib "https://modrinth.com/project/;x"
  = Raise (ValueError "Invalid Modrinth project URL path: https://modrinth.com/project/;x").
Proof. split; vm_compute; reflexivity. Qed.

(** ** Choosing a version and a file *)

Lemma filter_head {A : Type} (p : A -> bool) (l : list A) x rest :
  List.filter p l = x :: rest ->
  p x = true /\
  exists before after,
    l = (before ++ x :: after)%list /\ Forall (fun y => p y = false) before.
Proof.
  induction l as [|y l IH]; cbn [List.filter]; [discriminate|].
  destruct (p y) eqn:Hy.
  - intros [= -> <-]. split; [exact Hy|]. exists [], l. split; [reflexivity | constructor].
  - intros H. destruct (IH H) as (Hx & before & after & -> & Hb).
    split; [exact Hx|]. exists (y :: before), after. split; [reflexivity | now constructor].
Qed.

Lemma filter_nil {A : Type} (p : A -> bool) (l : list A) :
  List.filter p l = [] -> Forall (fun y => p y = false) l.
Proof.
  induction l as [|y l IH]; cbn [List.filter]; [constructor|].
  destruct (p y) eqn:Hy; [discriminate|]. intros H. constructor; auto.
Qed.

(** X8.  The file that [select_file] returns is a file of the version:
    the first one flagged primary when there is one, and the first file
    of the list when none is flagged. *)
Theorem select_file_prefers_primary version file :
  select_file version = Ok file ->
  exists files,
    get version "files" = VList files /\
    ((is_primary (VDict file) = true /\
      exists before after,
        files = (before ++ VDict file :: after)%list /\
        Forall (fun f => is_primary f = false) before) \/
     (Forall (fun f => is_primary f = false) files /\
      exists rest, files = VDict file :: rest)).
Proof.
  unfold select_file.
  destruct (get version "files") as [| | | | |[|f0 fs]|]; try discriminate.
  intros H. exists (f0 :: fs). split; [reflexivity|].
  destruct (List.filter is_primary (f0 :: fs)) as [|p ps] eqn:Hp.
  - right. split; [now apply filter_nil|].
    destruct f0; try discriminate H. injection H as ->. now exists fs.
  - apply filter_head in Hp as (Hprim & before & after & Heq & Hb).
    destruct p as [| | | | | |d]; try discriminate Hprim.
    injection H as ->. left. split; [exact Hprim|]. now exists before, after.
Qed.

Lemma select_file_prefers_primary_witness :
  exists files,
    get sodium_version "files" = VList files /\
    ((is_primary (VDict sodium_file) = true /\
      exists before after,
        files = (before ++ VDict sodium_file :: after)%list /\
        Forall (fun f => is_primary f = false) before) \/
     (Forall (fun f => is_primary f = false) files /\
      exists rest, files = VDict sodium_file :: rest)).
Proof. apply (select_file_prefers_primary sodium_version sodium_file). reflexivity. Defined.

Lemma select_version_pinned_In L versions pin v :
  pin <> EmptyString ->
  select_version L versions (Some pin) = Ok v -> In v (pinned pin versions).
Proof.
  intros Hpin H. destruct versions as [|v0 vs]; [discriminate H|].
  rewrite select_version_pinned in H by (discriminate || exact Hpin).
  destruct (pinned pin (v0 :: vs)) as [|m [|m' ms]] eqn:Hp; [discriminate H| |].
  - injection H as ->. now left.
  - destruct (sort_newest_first L (m :: m' :: ms)) as [sorted|] eqn:Hs; [|discriminate H].
    cbn [bind] in H. destruct sorted as [|x sorted']; [discriminate H|].
    injection H as ->. eapply sort_newest_first_In; [exact Hs | now left].
Qed.

(** X9.  The version selected from the filtered versions of a project is
    one of the versions the registry listed, it passes the
    compatibility filter, and under a non-empty pin it carries the
    pinned version number. *)
Theorem selected_version_compatible L versions minecraft loader pin v :
  select_version L (filter_versions versions minecraft loader) pin = Ok v ->
  In v versions /\
  compatible minecraft loader v = true /\
  (forall p, pin = Some p -> p <> EmptyString -> get v "version_number" = VStr p).
Proof.
  intros H. pose proof (select_version_In _ _ _ _ H) as Hin.
  rewrite filter_versions_filter in Hin. apply List.filter_In in Hin as [Hin Hc].
  split; [exact Hin|]. split; [exact Hc|].
  intros p -> Hp. apply (select_version_pinned_In _ _ _ _ Hp) in H.
  apply List.filter_In in H as [_ Heq]. unfold eq_str in Heq.
  destruct (get v "version_number") as [| | | |s| |]; try discriminate Heq.
  apply String.eqb_eq in Heq. now subst.
Qed.

Lemma selected_version_compatible_witness :
  In sodium_version [sodium_old; sodium_version] /\
  compatible "1.20.1" (Some "quilt") sodium_version = true /\
  (forall p, @None string = Some p -> p <> EmptyString ->
             get sodium_version "version_number" = VStr p).
Proof.
  apply (selected_version_compatible basic_lib [sodium_old; sodium_version]
           "1.20.1" (Some "quilt") None sodium_version).
  reflexivity.
Defined.

Lemma filter_filter {A : Type} (p q : A -> bool) (l : list A) :
  List.filter p (List.filter q l) = List.filter (fun x => q x && p x) l.
Proof.
  induction l as [|x l IH]; [reflexivity|]. cbn [List.filter].
  destruct (q x); cbn [List.filter andb]; [destruct (p x)|]; now rewrite IH.
Qed.

(** X10.  Filtering is idempotent, and giving a loader narrows the
    result: the versions kept for a loader are those of the loader-free
    filtering that list the loader, in the same order. *)
Theorem filter_versions_narrows versions minecraft :
  (forall loader,
     filter_versions (filter_versions versions minecraft loader) minecraft loader
     = filter_versions versions minecraft loader) /\
  (forall l,
     filter_versions versions minecraft (Some l)
     = List.filter (lists_loader l) (filter_versions versions minecraft None)).
Proof.
  split.
  - intros loader. rewrite !filter_versions_filter, filter_filter.
    apply List.filter_ext. intros v. now destruct (compatible minecraft loader v).
  - intros l. rewrite !filter_versions_filter, filter_filter.
    apply List.filter_ext. intros v. unfold compatible. now rewrite Bool.andb_true_r.
Qed.

(** ** Lock entries *)

(** X11.  [build_lock_entry] succeeds exactly when the file has a
    non-empty string filename and url, a positive integer size, and a
    hash table with a non-empty string under [sha1] or [sha512]; the side
    plays no role. *)
Theorem build_lock_entry_accepts file_obj side :
  is_ok (build_lock_entry file_obj side) = true <->
  is_nonempty_str (get file_obj "filename") = true /\
  is_nonempty_str (get file_obj "url") = true /\
  is_positive_int (get file_obj "size") = true /\
  exists h,
    get file_obj "hashes" = VDict h /\
    (is_nonempty_str (get h "sha1") = true \/ is_nonempty_str (get h "sha512") = true).
Proof.
  unfold build_lock_entry. split.
  - destruct (is_nonempty_str (get file_obj "filename")); cbn [negb]; [|no_result].
    destruct (is_nonempty_str (get file_obj "url")); cbn [negb]; [|no_result].
    destruct (is_positive_int (get file_obj "size")); cbn [negb]; [|no_result].
    destruct (get file_obj "hashes") as [| | | | | |h]; try no_result.
    destruct (is_nonempty_str (get h "sha1")) eqn:H1,
             (is_nonempty_str (get h "sha512")) eqn:H512; cbn [app]; try no_result;
      intros _; repeat split; exists h; split; auto.
  - intros (-> & -> & -> & h & -> & Hh). cbn [negb].
    destruct (is_nonempty_str (get h "sha1")), (is_nonempty_str (get h "sha512"));
      cbn [app]; try reflexivity.
    destruct Hh; discriminate.
Qed.

Lemma kept_hashes_get h k :
  dict_get ((if is_nonempty_str (get h "sha1") then [("sha1", get h "sha1")] else [])
            ++ (if is_nonempty_str (get h "sha512") then [("sha512", get h "sha512")]
                else []))%list k
  = if (String.eqb k "sha1" || String.eqb k "sha512") && is_nonempty_str (get h k)
    then Some (get h k) else None.
Proof.
  destruct (String.eqb_spec k "sha1") as [-> | Hn1].
  - destruct (is_nonempty_str (get h "sha1")), (is_nonempty_str (get h "sha512"));
      reflexivity.
  - destruct (String.eqb_spec k "sha512") as [-> | Hn512].
    + destruct (is_nonempty_str (get h "sha1")), (is_nonempty_str (get h "sha512"));
        reflexivity.
    + cbn [orb andb].
      assert (E1 : String.eqb "sha1" k = false) by (apply String.eqb_neq; congruence).
      assert (E2 : String.eqb "sha512" k = false) by (apply String.eqb_neq; congruence).
      destruct (is_nonempty_str (get h "sha1")), (is_nonempty_str (get h "sha512"));
        cbn [app dict_get]; rewrite ?E1, ?E2; reflexivity.
Qed.

(** X12.  A lock entry copies the filename and the size of the file,
    holds its url as the only download, and keeps of its hashes exactly
    those under [sha1] and [sha512] that are non-empty strings: hashes of
    other algorithms and empty hashes are dropped. *)
Theorem build_lock_entry_copies file_obj side entry :
  build_lock_entry file_obj side = Ok entry ->
  get entry "filename" = get file_obj "filename" /\
  get entry "side" = VStr side /\
  get entry "downloads" = VList [get file_obj "url"] /\
  get entry "fileSize" = get file_obj "size" /\
  exists h out,
    get file_obj "hashes" = VDict h /\
    get entry "hashes" = VDict out /\
    forall k,
      dict_get out k
      = if (String.eqb k "sha1" || String.eqb k "sha512") && is_nonempty_str (get h k)
        then Some (get h k) else None.
Proof.
  unfold build_lock_entry.
  destruct (is_nonempty_str (get file_obj "filename")); cbn [negb]; [|no_result].
  destruct (is_nonempty_str (get file_obj "url")); cbn [negb]; [|no_result].
  destruct (is_positive_int (get file_obj "size")); cbn [negb]; [|no_result].
  destruct (get file_obj "hashes") as [| | | | | |h]; try no_result.
  pose proof (kept_hashes_get h) as Hget.
  destruct ((if is_nonempty_str (get h "sha1") then [("sha1", get h "sha1")] else [])
            ++ (if is_nonempty_str (get h "sha512") then [("sha512", get h "sha512")]
                else []))%list as [|kv out]; [no_result|].
  intros [= <-]. repeat split. exists h, (kv :: out). now repeat split.
Qed.

Lemma build_lock_entry_copies_witness :
  get sodium_entry "filename" = get sodium_file "filename" /\
  get sodium_entry "side" = VStr "both" /\
  get sodium_entry "downloads" = VList [get sodium_file "url"] /\
  get sodium_entry "fileSize" = get sodium_file "size" /\
  exists h out,
    get sodium_file "hashes" = VDict h /\
    get sodium_entry "hashes" = VDict out /\
    forall k,
      dict_get out k
      = if (String.eqb k "sha1" || String.eqb k "sha512") && is_nonempty_str (get h k)
        then Some (get h k) else None.
Proof. apply (build_lock_entry_copies sodium_file "both" sodium_entry). reflexivity. Defined.

(** ** The manifest validator and the files array *)

(** X13.  [validate_entries] accepts exactly the JSON arrays whose
    members are all objects that pass the five field tests, and returns
    the members unchanged and in order; the name of the manifest plays
    no role in what is accepted. *)
Theorem validate_entries_accepts entries manifest_name es :
  validate_entries entries manifest_name = Ok es <->
  entries = VList (map VDict es) /\ Forall valid_entry es.
Proof.
  split.
  - apply validate_entries_inv.
  - intros [-> Hall]. now apply validate_entries_from_ok.
Qed.

Lemma validate_entries_from_first_invalid manifest_name good bad rest e : forall i,
  Forall valid_entry good ->
  validate_entry manifest_name (i + List.length good) bad = Raise e ->
  validate_entries_from manifest_name i (map VDict good ++ bad :: rest)%list = Raise e.
Proof.
  induction good as [|g good IH]; intros i Hgood Hbad.
  - cbn [List.length] in Hbad. rewrite Nat.add_0_r in Hbad.
    cbn [map app validate_entries_from]. now rewrite Hbad.
  - apply List.Forall_cons_iff in Hgood as [Hg Hgood].
    cbn [map app validate_entries_from].
    rewrite (validate_entry_ok manifest_name i g Hg). cbn [bind].
    rewrite (IH (S i) Hgood); [reflexivity|].
    cbn [List.length] in Hbad. now rewrite Nat.add_succ_r in Hbad.
Qed.

(** X14.  [validate_entries] reports the first member that fails a test,
    under its index in the array, whatever comes after it. *)
Theorem validate_entries_first_invalid manifest_name good bad rest e :
  Forall valid_entry good ->
  validate_entry manifest_name (List.length good) bad = Raise e ->
  validate_entries (VList (map VDict good ++ bad :: rest)) manifest_name = Raise e.
Proof.
  intros Hgood Hbad. now apply (validate_entries_from_first_invalid _ _ _ _ _ 0).
Qed.

Lemma validate_entries_first_invalid_witness :
  validate_entries
    (VList (map VDict [sodium_entry] ++ VStr "iris.jar" :: [VDict sodium_entry]))
    "mods.lock.json"
  = Raise (ValueError "mods.lock.json[1] must be an object").
Proof.
  apply (validate_entries_first_invalid "mods.lock.json" [sodium_entry] (VStr "iris.jar")).
  - constructor; [|constructor].
    apply (validate_entry_inv "mods.lock.json" 0 (VDict sodium_entry)). reflexivity.
  - reflexivity.
Defined.

(** X15.  Built for the client and for the server, a valid manifest
    loses no entry: each entry has its file in at least one of the two
    files arrays, an entry for both sides has it in both, and neither
    array is longer than the manifest. *)
Theorem build_files_covers L entries manifest_name es path_prefix :
  validate_entries entries manifest_name = Ok es ->
  exists client server,
    build_files L es "client" path_prefix = Ok client /\
    build_files L es "server" path_prefix = Ok server /\
    (forall e, In e es ->
       In (file_of L path_prefix e) client \/ In (file_of L path_prefix e) server) /\
    (forall e, In e es -> get e "side" = VStr "both" ->
       In (file_of L path_prefix e) client /\ In (file_of L path_prefix e) server) /\
    (List.length client <= List.length es)%nat /\
    (List.length server <= List.length es)%nat.
Proof.
  intros H. apply validate_entries_inv in H as [_ Hall].
  exists (map (file_of L path_prefix) (List.filter (packaged_for "client") es)),
    (map (file_of L path_prefix) (List.filter (packaged_for "server") es)).
  split; [now apply build_files_valid|]. split; [now apply build_files_valid|].
  split; [|split; [|split]].
  - intros e He. rewrite List.Forall_forall in Hall.
    destruct (Hall e He) as (_ & (s & Hs & Hin) & _).
    assert (Hside : packaged_for "client" e = true \/ packaged_for "server" e = true).
    { unfold packaged_for. rewrite Hs. cbn [eq_str].
      destruct Hin as [<- | [<- | [<- | []]]]; auto. }
    destruct Hside as [Hc | Hc]; [left | right];
      apply List.in_map, List.filter_In; now split.
  - intros e He Hboth.
    split; apply List.in_map, List.filter_In; (split; [exact He|]);
      unfold packaged_for; now rewrite Hboth.
  - rewrite List.length_map. apply List.filter_length_le.
  - rewrite List.length_map. apply List.filter_length_le.
Qed.

Lemma build_files_covers_witness :
  exists client server,
    build_files basic_lib [sodium_entry] "client" "mods" = Ok client /\
    build_files basic_lib [sodium_entry] "server" "mods" = Ok server /\
    (forall e, In e [sodium_entry] ->
       In (file_of basic_lib "mods" e) client \/ In (file_of basic_lib "mods" e) server) /\
    (forall e, In e [sodium_entry] -> get e "side" = VStr "both" ->
       In (file_of basic_lib "mods" e) client /\ In (file_of basic_lib "mods" e) server) /\
    (List.length client <= List.length [sodium_entry])%nat /\
    (List.length server <= List.length [sodium_entry])%nat.
Proof.
  apply (build_files_covers basic_lib (VList [VDict sodium_entry]) "mods.lock.json").
  reflexivity.
Defined.

(** ** What a run asks and writes *)

Lemma entry_outcome_requests L R minecraft loader require_loader entry h lock_entry h' :
  entry_outcome L R minecraft loader require_loader entry h = (Ok lock_entry, h') ->
  exists id, parse_project_id L (ref_url entry) = Ok id /\ h' = (h ++ [api_url id])%list.
Proof.
  cbv [entry_outcome resolve_entry io_bind io_lift fetch_versions request_json
       io_ret io_raise blank requests fs stdout].
  destruct (parse_project_id L (ref_url entry)) as [project_id|]; [|discriminate].
  intros H. exists project_id. split; [reflexivity|].
  fold (api_url project_id) in H.
  destruct (R h (api_url project_id)) as [[| | | | |l|]|]; try discriminate H.
  destruct (select_version L _ (ref_version entry)) as [v|]; [|discriminate H].
  destruct (select_file v) as [file|]; [|discriminate H].
  now injection H as _ <-.
Qed.

Lemma resolve_all_requests L R minecraft loader require_loader entries :
  forall h lock_entries h',
  resolve_all L R minecraft loader require_loader entries h = (Ok lock_entries, h') ->
  exists ids,
    Forall2 (fun entry id => parse_project_id L (ref_url entry) = Ok id) entries ids /\
    h' = (h ++ map api_url ids)%list.
Proof.
  induction entries as [|entry rest IH]; intros h les h' H; cbn [resolve_all] in H.
  - injection H as _ <-. exists []. split; [constructor | now rewrite List.app_nil_r].
  - destruct (entry_outcome L R minecraft loader require_loader entry h)
      as [[le|e] h1] eqn:Ho; [|discriminate H].
    destruct (resolve_all L R minecraft loader require_loader rest h1)
      as [[les'|e] h2] eqn:Hr; [|discriminate H].
    injection H as _ <-.
    apply entry_outcome_requests in Ho as (id & Hid & ->).
    apply IH in Hr as (ids & Hids & ->).
    exists (id :: ids). split; [now constructor|].
    cbn [map]. now rewrite <- List.app_assoc.
Qed.

(** X16.  A resolution that returns has asked the registry exactly once
    per reference, in the order of the references, each time for the
    versions of the project that the reference names. *)
Theorem resolve_entries_requests L R entries minecraft loader label require_loader w
    manifest w' :
  resolve_entries L R entries minecraft loader label require_loader w = (Ok manifest, w') ->
  exists ids,
    Forall2 (fun entry id => parse_project_id L (ref_url entry) = Ok id) entries ids /\
    requests w' = (requests w ++ map api_url ids)%list.
Proof.
  intros H. apply resolve_entries_ok_inv in H as (les & Hall & _ & _).
  now apply resolve_all_requests in Hall.
Qed.

Lemma resolve_entries_requests_witness :
  exists ids,
    Forall2 (fun entry id => parse_project_id basic_lib (ref_url entry) = Ok id)
            [reference_to "Zx9kQmCap" "both"; reference_to "AANobbMI" "both"] ids /\
    requests (snd (resolve_entries basic_lib sample_registry
                     [reference_to "Zx9kQmCap" "both"; reference_to "AANobbMI" "both"]
                     "1.20.1" "fabric" "mods" true (blank [])))
    = (requests (blank []) ++ map api_url ids)%list.
Proof.
  eapply (resolve_entries_requests basic_lib sample_registry
            [reference_to "Zx9kQmCap" "both"; reference_to "AANobbMI" "both"]
            "1.20.1" "fabric" "mods" true (blank [])).
  vm_compute. reflexivity.
Defined.

Lemma main_loop_untouched L R args minecraft loader targets locks p :
  ~ In p (lock_paths targets locks) ->
  forall w, fs (snd (main_loop L R args minecraft loader targets locks w)) !! p = fs w !! p.
Proof.
  induction locks as [|[tgt [entries lock_path]] locks IH]; intros Hp w; [reflexivity|].
  unfold lock_paths in Hp, IH. cbn [List.filter fst] in Hp.
  destruct (mem_str tgt targets) eqn:Hin.
  - cbn [map snd] in Hp.
    pose proof (resolve_entries_fs L R entries minecraft loader tgt (String.eqb tgt "mods") w)
      as Hfs.
    destruct (resolve_entries L R entries minecraft loader tgt (String.eqb tgt "mods") w)
      as [[resolved|e] w1] eqn:Hr; cbn [snd] in Hfs.
    + rewrite (main_loop_step _ _ _ _ _ _ _ _ _ _ _ _ _ Hin Hr).
      rewrite IH by (intros Hin'; apply Hp; now right).
      destruct (check args); cbn [fs]; [now rewrite Hfs|].
      rewrite lookup_insert_ne by (intros ->; apply Hp; now left). now rewrite Hfs.
    + rewrite (main_loop_raise _ _ _ _ _ _ _ _ _ _ _ _ _ Hin Hr). cbn [snd]. now rewrite Hfs.
  - rewrite main_loop_skip by exact Hin. now apply IH.
Qed.

Lemma lock_paths_entries targets (a b c a' b' c' : list reference) pa pb pc :
  lock_paths targets [("mods", (a, pa)); ("resourcepacks", (b, pb)); ("shaderpacks", (c, pc))]
  = lock_paths targets
      [("mods", (a', pa)); ("resourcepacks", (b', pb)); ("shaderpacks", (c', pc))].
Proof.
  unfold lock_paths. cbn [List.filter fst].
  destruct (mem_str "mods" targets), (mem_str "resourcepacks" targets),
    (mem_str "shaderpacks" targets); reflexivity.
Qed.

Lemma main_frame L R args w p :
  ~ In p (outputs args) ->
  fs (snd (main L R args w)) !! p = fs w !! p.
Proof.
  intros Hp. rewrite main_unfold.
  destruct (prelude L args (fs w))
    as [[[[[[template minecraft] loader] mods_entries] resource_pack_entries]
         shader_pack_entries]|e]; [|reflexivity].
  unfold outputs in Hp. rewrite List.in_app_iff in Hp.
  rewrite (lock_paths_entries _ [] [] [] mods_entries resource_pack_entries
             shader_pack_entries) in Hp.
  set (locks := [ ("mods", (mods_entries, mods_lock args)); _; _ ]) in *.
  unfold io_bind, io_ret.
  assert (Hrender : exists w1, render_template args template w = (Ok tt, w1) /\
                               fs w1 !! p = fs w !! p).
  { unfold render_template.
    destruct (mem_str "template" (targets_of args)) eqn:Ht; [|now exists w].
    destruct (check args); eexists; (split; [reflexivity|]); cbn [fs]; [reflexivity|].
    apply lookup_insert_ne. intros Heq. apply Hp. left. left. exact Heq. }
  destruct Hrender as (w1 & -> & Hw1).
  pose proof (main_loop_untouched L R args minecraft loader (targets_of args) locks p
                (fun H => Hp (or_intror H)) w1) as Hloop.
  destruct (main_loop L R args minecraft loader (targets_of args) locks w1) as [[[]|e] w2];
    cbn [snd] in *; congruence.
Qed.

(** X17.  A run of [main] changes no file other than its outputs: the
    template file and the lock files of the selected targets.  This
    holds with and without [--check], and whether the run returns or
    raises. *)
Theorem main_writes_only_outputs L R args w p :
  ~ In p (outputs args) ->
  fs (snd (main L R args w)) !! p = fs w !! p.
Proof. exact (main_frame L R args w p). Qed.

Lemma main_writes_only_outputs_witness :
  fs (snd (main basic_lib sample_registry (sample_args false) sample_world))
    !! "modpack/pack.toml"
  = fs sample_world !! "modpack/pack.toml".
Proof.
  apply (main_writes_only_outputs basic_lib sample_registry (sample_args false)
           sample_world "modpack/pack.toml").
  vm_compute. intros [H | [H | [H | [H | []]]]]; discriminate H.
Defined.

Lemma prelude_inv L args disk template minecraft loader mods_entries resource_pack_entries
    shader_pack_entries :
  prelude L args disk
  = Ok (template, minecraft, loader, mods_entries, resource_pack_entries,
        shader_pack_entries) ->
  exists data,
    disk !! pack args = Some (VDict data) /\
    parse_template data = Ok (template, minecraft, loader) /\
    collect_entries L data "mods" "mods" = Ok mods_entries /\
    collect_entries L data "resourcepacks" "packs" = Ok resource_pack_entries /\
    collect_entries L data "shaderpacks" "packs" = Ok shader_pack_entries.
Proof.
  unfold prelude. destruct (disk !! pack args) as [[| | | | | |data]|]; try discriminate.
  intros H. exists data. split; [reflexivity|].
  bind_inv H as parsed Eparsed. bind_inv H as m Em. bind_inv H as r Er. bind_inv H as s Es.
  destruct parsed as [[t mc] ld]. now injection H as <- <- <- <- <- <-.
Qed.

Lemma well_formed_sides refs :
  Forall well_formed_reference refs ->
  Forall (fun entry => In (ref_side entry) VALID_SIDES) refs.
Proof. apply List.Forall_impl. now intros r [H _]. Qed.

Lemma main_loop_locks L R args minecraft loader targets locks :
  check args = false ->
  Forall (fun lock => Forall (fun entry => In (ref_side entry) VALID_SIDES) (fst (snd lock)))
         locks ->
  forall w w',
    main_loop L R args minecraft loader targets locks w = (Ok tt, w') ->
    forall p, In p (lock_paths targets locks) ->
      exists es, fs w' !! p = Some (VList (map VDict es)) /\ Forall freshly_built es.
Proof.
  intros Hcheck.
  induction locks as [|[tgt [entries lock_path]] locks IH]; intros Hsides w w' H p Hp;
    [destruct Hp|].
  apply List.Forall_cons_iff in Hsides as [Hside Hsides]. cbn [fst snd] in Hside.
  unfold lock_paths in Hp. cbn [List.filter fst] in Hp.
  destruct (mem_str tgt targets) eqn:Hin.
  - cbn [map snd] in Hp.
    destruct (resolve_entries L R entries minecraft loader tgt (String.eqb tgt "mods") w)
      as [[resolved|e] w1] eqn:Hr.
    2:{ rewrite (main_loop_raise _ _ _ _ _ _ _ _ _ _ _ _ _ Hin Hr) in H. discriminate H. }
    rewrite (main_loop_step _ _ _ _ _ _ _ _ _ _ _ _ _ Hin Hr), Hcheck in H.
    destruct (In_dec string_dec p (lock_paths targets locks)) as [Hrest | Hrest].
    + exact (IH Hsides _ _ H p Hrest).
    + destruct Hp as [<- | Hp]; [|contradiction].
      exists resolved. split; [|exact (resolved_freshly_built _ _ _ _ _ _ _ _ _ _ Hside Hr)].
      pose proof (main_loop_untouched L R args minecraft loader targets locks lock_path
                    Hrest) as Hframe.
      specialize (Hframe {| fs := <[lock_path := VList (map VDict resolved)]> (fs w1);
                           requests := requests w1;
                           stdout := (stdout w1 ++
                                      [("Wrote " ++ tgt ++ " lock -> " ++ lock_path ++ " ("
                                        ++ str_of_nat (List.length resolved)
                                        ++ " entries)")%string])%list |}).
      rewrite H in Hframe. cbn [snd fs] in Hframe. rewrite Hframe.
      apply lookup_insert_eq.
  - rewrite main_loop_skip in H by exact Hin. exact (IH Hsides _ _ H p Hp).
Qed.

Lemma main_locks_valid L R args w w' :
  check args = false ->
  main L R args w = (Ok 0%Z, w') ->
  forall p, In p (lock_outputs args) ->
    exists es,
      fs w' !! p = Some (VList (map VDict es)) /\
      forall manifest_name, validate_entries (VList (map VDict es)) manifest_name = Ok es.
Proof.
  intros Hcheck Hmain p Hp. rewrite main_unfold in Hmain.
  destruct (prelude L args (fs w))
    as [[[[[[template minecraft] loader] mods_entries] resource_pack_entries]
         shader_pack_entries]|e] eqn:Hpre; [|discriminate Hmain].
  apply prelude_inv in Hpre as (data & _ & _ & Hm & Hr & Hs).
  apply collect_entries_well_formed, well_formed_sides in Hm, Hr, Hs.
  unfold lock_outputs in Hp.
  rewrite (lock_paths_entries _ [] [] [] mods_entries resource_pack_entries
             shader_pack_entries) in Hp.
  set (locks := [ ("mods", (mods_entries, mods_lock args)); _; _ ]) in *.
  unfold io_bind, io_ret in Hmain.
  destruct (render_template args template w) as [[[]|e] w1]; [|discriminate Hmain].
  destruct (main_loop L R args minecraft loader (targets_of args) locks w1)
    as [[[]|e] w2] eqn:Hloop; [|discriminate Hmain].
  injection Hmain as <-.
  destruct (main_loop_locks L R args minecraft loader (targets_of args) locks Hcheck)
    with (w := w1) (w' := w2) (p := p) as (es & Hfs & Hes); try assumption.
  { subst locks. repeat constructor; assumption. }
  exists es. split; [exact Hfs|]. intros manifest_name.
  now apply freshly_built_validate.
Qed.

(** X18.  After a run of [main] without [--check] that returns, each
    lock file of the selected targets holds a manifest that the
    builder's [validate_entries] accepts unchanged, under any manifest
    name. *)
Theorem main_writes_valid_locks L R args w w' :
  check args = false ->
  main L R args w = (Ok 0%Z, w') ->
  forall p, In p (lock_outputs args) ->
    exists es,
      fs w' !! p = Some (VList (map VDict es)) /\
      forall manifest_name, validate_entries (VList (map VDict es)) manifest_name = Ok es.
Proof. exact (main_locks_valid L R args w w'). Qed.

Lemma main_writes_valid_locks_witness :
  exists es,
    fs (snd (main basic_lib sample_registry (sample_args false) working_world))
      !! "modpack/mods.lock.json"
    = Some (VList (map VDict es)) /\
    forall manifest_name, validate_entries (VList (map VDict es)) manifest_name = Ok es.
Proof.
  apply (main_writes_valid_locks basic_lib sample_registry (sample_args false)
           working_world).
  - reflexivity.
  - vm_compute. reflexivity.
  - left. reflexivity.
Defined.

Lemma parse_template_validates data template minecraft loader :
  parse_template data = Ok (template, minecraft, loader) ->
  validate_template template = Ok tt.
Proof.
  unfold parse_template. intros H.
  bind_inv H as pack_table Epack. bind_inv H as deps Edeps.
  bind_inv H as name Ename. bind_inv H as summary Esummary.
  bind_inv H as version_id Eid. bind_inv H as mc Emc.
  bind_inv H as ld Eld. bind_inv H as loader_version Elv.
  destruct (mem_str ld SUPPORTED_LOADERS); cbn [negb] in H; [|discriminate H].
  now injection H as <- _ _.
Qed.

Lemma main_template_valid L R args w w' :
  check args = false ->
  main L R args w = (Ok 0%Z, w') ->
  In "template" (targets_of args) ->
  ~ In (template_out args) (lock_outputs args) ->
  exists template,
    fs w' !! template_out args = Some (VDict template) /\
    validate_template template = Ok tt.
Proof.
  intros Hcheck Hmain Htarget Hfree. rewrite main_unfold in Hmain.
  destruct (prelude L args (fs w))
    as [[[[[[template minecraft] loader] mods_entries] resource_pack_entries]
         shader_pack_entries]|e] eqn:Hpre; [|discriminate Hmain].
  apply prelude_inv in Hpre as (data & _ & Hparse & _).
  unfold lock_outputs in Hfree.
  rewrite (lock_paths_entries _ [] [] [] mods_entries resource_pack_entries
             shader_pack_entries) in Hfree.
  set (locks := [ ("mods", (mods_entries, mods_lock args)); _; _ ]) in *.
  unfold io_bind, io_ret, render_template in Hmain.
  apply mem_str_In in Htarget. rewrite Htarget, Hcheck in Hmain.
  unfold io_bind, write_json, print in Hmain.
  match type of Hmain with
  | context [main_loop L R args minecraft loader (targets_of args) locks ?w1] =>
      pose proof (main_loop_untouched L R args minecraft loader (targets_of args) locks
                    (template_out args) Hfree w1) as Hframe;
      destruct (main_loop L R args minecraft loader (targets_of args) locks w1)
        as [[[]|e] w2]; [|discriminate Hmain]
  end.
  injection Hmain as <-. cbn [snd fs] in Hframe.
  exists template. split; [|exact (parse_template_validates _ _ _ _ Hparse)].
  rewrite Hframe. apply lookup_insert_eq.
Qed.

(** X19.  After a run of [main] without [--check] that returns and whose
    targets include the template, the template file holds an object
    with all the keys that the builder's [validate_template] requires,
    unless a lock file was written to the same path. *)
Theorem main_writes_valid_template L R args w w' :
  check args = false ->
  main L R args w = (Ok 0%Z, w') ->
  In "template" (targets_of args) ->
  ~ In (template_out args) (lock_outputs args) ->
  exists template,
    fs w' !! template_out args = Some (VDict template) /\
    validate_template template = Ok tt.
Proof. exact (main_template_valid L R args w w'). Qed.

Lemma main_writes_valid_template_witness :
  exists template,
    fs (snd (main basic_lib sample_registry (sample_args false) working_world))
      !! template_out (sample_args false)
    = Some (VDict template) /\
    validate_template template = Ok tt.
Proof.
  apply (main_writes_valid_template basic_lib sample_registry (sample_args false)
           working_world).
  - reflexivity.
  - vm_compute. reflexivity.
  - left. reflexivity.
  - vm_compute. intros [H | [H | [H | []]]]; discriminate H.
Defined.

(** ** The builder *)

Lemma dict_get_set d k v k' :
  dict_get (dict_set d k v) k' = if String.eqb k k' then Some v else dict_get d k'.
Proof.
  induction d as [|[k0 v0] d IH]; cbn [dict_set dict_get]; [reflexivity|].
  destruct (String.eqb_spec k0 k) as [-> | Hk0]; cbn [dict_get];
    [now destruct (String.eqb k k')|].
  rewrite IH. destruct (String.eqb_spec k k') as [Hk | Hk]; [|reflexivity].
  subst k'. apply String.eqb_neq in Hk0. now rewrite Hk0.
Qed.

Lemma get_set_eq d k v : get (dict_set d k v) k = v.
Proof. unfold get. now rewrite dict_get_set, String.eqb_refl. Qed.

Lemma get_set_ne d k v k' : k <> k' -> get (dict_set d k v) k' = get d k'.
Proof.
  intros H. unfold get. rewrite dict_get_set.
  apply String.eqb_neq in H. now rewrite H.
Qed.

Lemma has_key_set d k v k' : has_key d k' = true -> has_key (dict_set d k v) k' = true.
Proof.
  unfold has_key. rewrite dict_get_set. now destruct (String.eqb k k').
Qed.

Lemma subscript_has_key d k : has_key d k = true -> subscript d k = Ok (get d k).
Proof. unfold has_key, subscript, get. now destruct (dict_get d k). Qed.

Lemma validate_template_keys template k :
  validate_template template = Ok tt -> In k REQUIRED_TEMPLATE_KEYS ->
  has_key template k = true.
Proof.
  unfold validate_template. intros H Hk.
  destruct (List.filter (fun k => negb (has_key template k)) REQUIRED_TEMPLATE_KEYS)
    as [|m ms] eqn:Hf; [|discriminate H].
  apply filter_nil in Hf. rewrite List.Forall_forall in Hf.
  specialize (Hf k Hk). now apply Bool.negb_false_iff in Hf.
Qed.

Lemma build_pack_result os L joinpath template_data mod_entries resource_pack_entries
    shader_pack_entries target_side label args slug_name dist_dir w :
  validate_template template_data = Ok tt ->
  Forall valid_entry mod_entries ->
  Forall valid_entry resource_pack_entries ->
  Forall valid_entry shader_pack_entries ->
  Builder.build_pack os L joinpath template_data mod_entries resource_pack_entries
    shader_pack_entries target_side label args slug_name dist_dir w
  = match creation os dist_dir
            (archive_path L joinpath
               (index_document L template_data
                  (side_files L mod_entries resource_pack_entries shader_pack_entries
                     target_side)
                  label (Builder.version args))
               slug_name dist_dir target_side) w with
    | Ok _ =>
        (Ok tt,
         after_build L joinpath template_data mod_entries resource_pack_entries
           shader_pack_entries target_side label args slug_name dist_dir w)
    | Raise e => (Raise e, w)
    end.
Proof.
  intros Ht Hm Hr Hs. unfold Builder.build_pack.
  rewrite (build_files_valid L target_side "mods" _ Hm),
    (build_files_valid L target_side "resourcepacks" _ Hr),
    (build_files_valid L target_side "shaderpacks" _ Hs).
  rewrite (subscript_has_key template_data "name")
    by (apply validate_template_keys; [exact Ht | cbn; tauto]).
  rewrite (subscript_has_key template_data "summary")
    by (apply validate_template_keys; [exact Ht | cbn; tauto]).
  unfold io_bind at 1 2 3 4 5, io_lift. cbv beta iota zeta.
  fold (side_files L mod_entries resource_pack_entries shader_pack_entries target_side).
  fold (index_document L template_data
          (side_files L mod_entries resource_pack_entries shader_pack_entries target_side)
          label (Builder.version args)).
  set (index_data := index_document _ _ _ _ _).
  rewrite (subscript_has_key index_data "versionId").
  2:{ unfold index_data, index_document. do 3 apply has_key_set.
      assert (Hv : has_key template_data "versionId" = true)
        by (apply validate_template_keys; [exact Ht | cbn; tauto]).
      destruct (nonempty (Builder.version args)); [now apply has_key_set | exact Hv]. }
  unfold io_bind, mkdir, write_zip, print, after_build, archive_path, creation.
  cbv beta iota zeta. fold index_data.
  destruct (mkdir_parents os w dist_dir) as [[]|e]; [|reflexivity].
  match goal with |- context [open_zip os w ?p] => destruct (open_zip os w p) as [[]|e] end;
    [|reflexivity].
  cbn [fs requests stdout]. rewrite !List.length_map. reflexivity.
Qed.

(** X20.  What [build_pack] does for a template and manifests that
    passed validation.  It creates the output directory and opens the
    archive; when either raises, [build_pack] raises that error and has
    written and printed nothing.  Otherwise it writes one archive, whose
    index has the name and summary of the template followed by the side
    label, the override as version id when one is given and the
    template's otherwise, a files array that lists the files of the
    mods, the resource packs and the shader packs of that side, in this
    order, and every other key of the template unchanged. *)
Theorem build_pack_index os L joinpath template_data raw_mods raw_resource_packs
    raw_shader_packs mods_name resource_packs_name shader_packs_name mod_entries
    resource_pack_entries shader_pack_entries target_side label args slug_name dist_dir w :
  validate_template template_data = Ok tt ->
  validate_entries raw_mods mods_name = Ok mod_entries ->
  validate_entries raw_resource_packs resource_packs_name = Ok resource_pack_entries ->
  validate_entries raw_shader_packs shader_packs_name = Ok shader_pack_entries ->
  exists out index_data mod_files resource_pack_files shader_pack_files,
    (forall e, creation os dist_dir out w = Raise e ->
       Builder.build_pack os L joinpath template_data mod_entries resource_pack_entries
         shader_pack_entries target_side label args slug_name dist_dir w = (Raise e, w)) /\
    (creation os dist_dir out w = Ok tt ->
       exists w',
         Builder.build_pack os L joinpath template_data mod_entries resource_pack_entries
           shader_pack_entries target_side label args slug_name dist_dir w = (Ok tt, w') /\
         fs w' = <[out := VDict [("modrinth.index.json", VDict index_data)]]> (fs w)) /\
    out = joinpath dist_dir
            (slug_name ++ "-" ++ target_side ++ "-"
             ++ py_str L (get index_data "versionId") ++ ".mrpack") /\
    build_files L mod_entries target_side "mods" = Ok mod_files /\
    build_files L resource_pack_entries target_side "resourcepacks"
    = Ok resource_pack_files /\
    build_files L shader_pack_entries target_side "shaderpacks" = Ok shader_pack_files /\
    get index_data "files"
    = VList (map VDict (mod_files ++ resource_pack_files ++ shader_pack_files)) /\
    get index_data "name"
    = VStr (py_str L (get template_data "name") ++ " (" ++ label ++ ")") /\
    get index_data "summary"
    = VStr (py_str L (get template_data "summary") ++ " [" ++ label ++ "]") /\
    get index_data "versionId"
    = (if nonempty (Builder.version args) then VStr (Builder.version args)
       else get template_data "versionId") /\
    (forall k, ~ In k ["versionId"; "name"; "summary"; "files"] ->
               get index_data k = get template_data k).
Proof.
  intros Ht Hm Hr Hs.
  apply validate_entries_inv in Hm as [_ Hm], Hr as [_ Hr], Hs as [_ Hs].
  pose proof (build_pack_result os L joinpath template_data mod_entries
                resource_pack_entries shader_pack_entries target_side label args slug_name
                dist_dir w Ht Hm Hr Hs) as Hrun.
  eexists _, _, _, _, _.
  split; [intros e He; rewrite Hrun, He; reflexivity|].
  split; [intros Hc; rewrite Hrun, Hc; eexists; split; reflexivity|].
  split; [reflexivity|].
  split; [now apply build_files_valid|]. split; [now apply build_files_valid|].
  split; [now apply build_files_valid|].
  unfold index_document.
  split; [apply get_set_eq|].
  split; [rewrite get_set_ne, get_set_ne by discriminate; apply get_set_eq|].
  split; [rewrite get_set_ne by discriminate; apply get_set_eq|].
  split.
  - rewrite !get_set_ne by discriminate.
    destruct (nonempty (Builder.version args)); [apply get_set_eq | reflexivity].
  - intros k Hk. rewrite !get_set_ne by (intros <-; apply Hk; cbn; tauto).
    destruct (nonempty (Builder.version args)); [|reflexivity].
    apply get_set_ne. intros <-. apply Hk. cbn. tauto.
Qed.

Lemma read_pack_build_defaults_total p w :
  exists defaults, read_pack_build_defaults p w = (Ok defaults, w).
Proof.
  unfold read_pack_build_defaults.
  destruct (fs w !! p) as [[]|]; try (eexists; reflexivity).
  destruct (get _ "build"); eexists; reflexivity.
Qed.

Lemma path_exists_some p w v : fs w !! p = Some v -> path_exists p w = (Ok true, w).
Proof. intros H. unfold path_exists. now rewrite H. Qed.

Lemma path_exists_none p w : fs w !! p = None -> path_exists p w = (Ok false, w).
Proof. intros H. unfold path_exists. now rewrite H. Qed.

Lemma read_json_some p w v : fs w !! p = Some v -> read_json p w = (Ok v, w).
Proof. intros H. unfold read_json. now rewrite H. Qed.

Lemma bind_ok {A B : Type} (m : IO A) (k : A -> IO B) w a w1 :
  m w = (Ok a, w1) -> io_bind m k w = k a w1.
Proof. intros H. unfold io_bind. now rewrite H. Qed.

Lemma bind_raise {A B : Type} (m : IO A) (k : A -> IO B) w e w1 :
  m w = (Raise e, w1) -> io_bind m k w = (Raise e, w1).
Proof. intros H. unfold io_bind. now rewrite H. Qed.

Lemma lift_eq {A : Type} (r r' : result A) w : r = r' -> io_lift r w = (r', w).
Proof. now intros ->. Qed.

(** Once its inputs are read and checked, [main] is the building of the
    archives. *)
Lemma builder_main_buildable os L joinpath args w template_data mod_entries
    resource_pack_entries shader_pack_entries :
  buildable args w template_data mod_entries resource_pack_entries shader_pack_entries ->
  Builder.main os L joinpath args w
  = (_ <~ (if String.eqb (effective_side args w) "both" then
             _ <~ Builder.build_pack os L joinpath template_data mod_entries
                    resource_pack_entries shader_pack_entries "client" "Client" args
                    (effective_slug args w) (effective_dist args w) ;;
             Builder.build_pack os L joinpath template_data mod_entries
               resource_pack_entries shader_pack_entries "server" "Server" args
               (effective_slug args w) (effective_dist args w)
           else if String.eqb (effective_side args w) "client" then
             Builder.build_pack os L joinpath template_data mod_entries
               resource_pack_entries shader_pack_entries "client" "Client" args
               (effective_slug args w) (effective_dist args w)
           else
             Builder.build_pack os L joinpath template_data mod_entries
               resource_pack_entries shader_pack_entries "server" "Server" args
               (effective_slug args w) (effective_dist args w)) ;;
     io_ret 0%Z) w.
Proof.
  intros (Hside & [Ht Hvt] & [Hm Hvm] & [Hr Hvr] & [Hs Hvs]).
  unfold Builder.main, effective_slug, effective_dist.
  revert Hside. unfold effective_side, build_setting.
  destruct (read_pack_build_defaults_total (Builder.pack args) w) as [defaults Hd].
  rewrite (bind_ok _ _ _ _ _ Hd), Hd. cbv beta iota zeta. intros Hside.
  apply is_valid_side_In in Hside. rewrite Hside. cbn [negb].
  rewrite (bind_ok _ _ _ _ _ (path_exists_some _ _ _ Ht)). cbn [negb].
  rewrite (bind_ok _ _ _ _ _ (path_exists_some _ _ _ Hm)). cbn [negb].
  rewrite (bind_ok _ _ _ _ _ (path_exists_some _ _ _ Hr)). cbn [negb].
  rewrite (bind_ok _ _ _ _ _ (path_exists_some _ _ _ Hs)). cbn [negb].
  rewrite (bind_ok _ _ _ _ _ (read_json_some _ _ _ Ht)). cbv beta iota.
  rewrite (bind_ok _ _ _ _ _ (lift_eq _ _ _ Hvt)).
  rewrite (bind_ok _ _ _ _ _ (read_json_some _ _ _ Hm)).
  rewrite (bind_ok _ _ _ _ _
             (lift_eq _ _ _ (validate_entries_from_ok (Builder.mods args) _ 0 Hvm))).
  rewrite (bind_ok _ _ _ _ _ (read_json_some _ _ _ Hr)).
  rewrite (bind_ok _ _ _ _ _
             (lift_eq _ _ _
                (validate_entries_from_ok (Builder.resource_packs args) _ 0 Hvr))).
  rewrite (bind_ok _ _ _ _ _ (read_json_some _ _ _ Hs)).
  rewrite (bind_ok _ _ _ _ _
             (lift_eq _ _ _
                (validate_entries_from_ok (Builder.shader_packs args) _ 0 Hvs))).
  reflexivity.
Qed.

Lemma builder_main_accepts os L joinpath args w template_data mod_entries
    resource_pack_entries shader_pack_entries :
  buildable args w template_data mod_entries resource_pack_entries shader_pack_entries ->
  archives_creatable os L joinpath template_data mod_entries resource_pack_entries
    shader_pack_entries args w ->
  Builder.main os L joinpath args w
  = (Ok 0%Z,
     after_builds L joinpath template_data mod_entries resource_pack_entries
       shader_pack_entries args w).
Proof.
  intros Hb Hc. rewrite (builder_main_buildable os L joinpath _ _ _ _ _ _ Hb).
  destruct Hb as (_ & [_ Hvt] & [_ Hvm] & [_ Hvr] & [_ Hvs]).
  unfold archives_creatable, side_archive in Hc. unfold after_builds.
  destruct (String.eqb (effective_side args w) "both").
  - destruct Hc as [Hc Hs].
    erewrite bind_ok; [reflexivity|].
    erewrite bind_ok; [|rewrite build_pack_result by assumption; rewrite Hc; reflexivity].
    rewrite build_pack_result by assumption. rewrite Hs. reflexivity.
  - destruct (String.eqb (effective_side args w) "client");
      (erewrite bind_ok; [reflexivity|]);
      rewrite build_pack_result by assumption; rewrite Hc; reflexivity.
Qed.

Lemma builder_main_cases os L joinpath args w :
  (exists e, Builder.main os L joinpath args w = (Raise e, w)) \/
  (exists template_data mod_entries resource_pack_entries shader_pack_entries,
     buildable args w template_data mod_entries resource_pack_entries shader_pack_entries).
Proof.
  unfold Builder.main, buildable, effective_side, build_setting.
  destruct (read_pack_build_defaults_total (Builder.pack args) w) as [defaults Hd].
  rewrite (bind_ok _ _ _ _ _ Hd), Hd. cbv beta iota zeta.
  match goal with
  | |- context [is_valid_side ?s] => set (target_side := s)
  end.
  destruct (is_valid_side target_side) eqn:Hside; cbn [negb];
    [|left; eexists; reflexivity].
  apply is_valid_side_In in Hside.
  destruct (fs w !! Builder.template args) as [raw_template|] eqn:Ht.
  2:{ left. rewrite (bind_ok _ _ _ _ _ (path_exists_none _ _ Ht)). eexists. reflexivity. }
  rewrite (bind_ok _ _ _ _ _ (path_exists_some _ _ _ Ht)). cbn [negb].
  destruct (fs w !! Builder.mods args) as [raw_mods|] eqn:Hm.
  2:{ left. rewrite (bind_ok _ _ _ _ _ (path_exists_none _ _ Hm)). eexists. reflexivity. }
  rewrite (bind_ok _ _ _ _ _ (path_exists_some _ _ _ Hm)). cbn [negb].
  destruct (fs w !! Builder.resource_packs args) as [raw_resource_packs|] eqn:Hr.
  2:{ left. rewrite (bind_ok _ _ _ _ _ (path_exists_none _ _ Hr)). eexists. reflexivity. }
  rewrite (bind_ok _ _ _ _ _ (path_exists_some _ _ _ Hr)). cbn [negb].
  destruct (fs w !! Builder.shader_packs args) as [raw_shader_packs|] eqn:Hs.
  2:{ left. rewrite (bind_ok _ _ _ _ _ (path_exists_none _ _ Hs)). eexists. reflexivity. }
  rewrite (bind_ok _ _ _ _ _ (path_exists_some _ _ _ Hs)). cbn [negb].
  rewrite (bind_ok _ _ _ _ _ (read_json_some _ _ _ Ht)).
  destruct raw_template as [| | | | | |template_data]; try (left; eexists; reflexivity).
  destruct (validate_template template_data) as [[]|e] eqn:Hvt.
  2:{ left. rewrite (bind_raise _ _ _ _ _ (lift_eq _ _ _ eq_refl)). eexists. reflexivity. }
  rewrite (bind_ok _ _ _ _ _ (lift_eq _ _ _ eq_refl)).
  rewrite (bind_ok _ _ _ _ _ (read_json_some _ _ _ Hm)).
  destruct (validate_entries raw_mods (Builder.mods args)) as [mod_entries|e] eqn:Hvm.
  2:{ left. rewrite (bind_raise _ _ _ _ _ (lift_eq _ _ _ eq_refl)). eexists. reflexivity. }
  rewrite (bind_ok _ _ _ _ _ (lift_eq _ _ _ eq_refl)).
  rewrite (bind_ok _ _ _ _ _ (read_json_some _ _ _ Hr)).
  destruct (validate_entries raw_resource_packs (Builder.resource_packs args))
    as [resource_pack_entries|e] eqn:Hvr.
  2:{ left. rewrite (bind_raise _ _ _ _ _ (lift_eq _ _ _ eq_refl)). eexists. reflexivity. }
  rewrite (bind_ok _ _ _ _ _ (lift_eq _ _ _ eq_refl)).
  rewrite (bind_ok _ _ _ _ _ (read_json_some _ _ _ Hs)).
  destruct (validate_entries raw_shader_packs (Builder.shader_packs args))
    as [shader_pack_entries|e] eqn:Hvs.
  2:{ left. rewrite (bind_raise _ _ _ _ _ (lift_eq _ _ _ eq_refl)). eexists. reflexivity. }
  right. exists template_data, mod_entries, resource_pack_entries, shader_pack_entries.
  apply validate_entries_inv in Hvm as [-> Hvm], Hvr as [-> Hvr], Hvs as [-> Hvs].
  repeat split; assumption.
Qed.

(** What the building of the archives comes to, by the side and by what
    creating each archive answers. *)
Lemma builder_main_outcome os L joinpath args w template_data mod_entries
    resource_pack_entries shader_pack_entries :
  buildable args w template_data mod_entries resource_pack_entries shader_pack_entries ->
  let out target_side label :=
    side_archive L joinpath template_data mod_entries resource_pack_entries
      shader_pack_entries target_side label args w in
  let built target_side label :=
    after_build L joinpath template_data mod_entries resource_pack_entries
      shader_pack_entries target_side label args (effective_slug args w)
      (effective_dist args w) in
  Builder.main os L joinpath args w
  = if String.eqb (effective_side args w) "both" then
      match creation os (effective_dist args w) (out "client" "Client") w with
      | Ok _ =>
          match creation os (effective_dist args w) (out "server" "Server")
                  (built "client" "Client" w) with
          | Ok _ => (Ok 0%Z, built "server" "Server" (built "client" "Client" w))
          | Raise e => (Raise e, built "client" "Client" w)
          end
      | Raise e => (Raise e, w)
      end
    else if String.eqb (effective_side args w) "client" then
      match creation os (effective_dist args w) (out "client" "Client") w with
      | Ok _ => (Ok 0%Z, built "client" "Client" w)
      | Raise e => (Raise e, w)
      end
    else
      match creation os (effective_dist args w) (out "server" "Server") w with
      | Ok _ => (Ok 0%Z, built "server" "Server" w)
      | Raise e => (Raise e, w)
      end.
Proof.
  intros Hb. cbv zeta. rewrite (builder_main_buildable os L joinpath _ _ _ _ _ _ Hb).
  destruct Hb as (_ & [_ Hvt] & [_ Hvm] & [_ Hvr] & [_ Hvs]).
  unfold side_archive, io_bind, io_ret.
  destruct (String.eqb (effective_side args w) "both").
  - rewrite build_pack_result by assumption.
    destruct (creation os _ _ w) as [[]|e]; [|reflexivity].
    rewrite build_pack_result by assumption.
    match goal with |- context [creation os ?d ?p ?w0] =>
      destruct (creation os d p w0) as [[]|e] end; reflexivity.
  - destruct (String.eqb (effective_side args w) "client");
      rewrite build_pack_result by assumption;
      destruct (creation os _ _ w) as [[]|e]; reflexivity.
Qed.

(** X21.  The builder checks everything before it writes anything: when
    [main] raises, no archive has been written and nothing has been
    printed, with one exception.  In a run for both sides in which the
    client archive was written, creating the output directory or
    opening the server archive can still raise; the world is then the
    one that the client archive left. *)
Theorem builder_main_raises_clean os L joinpath args w e w' :
  Builder.main os L joinpath args w = (Raise e, w') ->
  w' = w \/
  (effective_side args w = "both" /\
   exists template_data mod_entries resource_pack_entries shader_pack_entries,
     buildable args w template_data mod_entries resource_pack_entries
       shader_pack_entries /\
     w' = after_build L joinpath template_data mod_entries resource_pack_entries
            shader_pack_entries "client" "Client" args (effective_slug args w)
            (effective_dist args w) w /\
     creation os (effective_dist args w)
       (side_archive L joinpath template_data mod_entries resource_pack_entries
          shader_pack_entries "server" "Server" args w) w' = Raise e).
Proof.
  intros H.
  destruct (builder_main_cases os L joinpath args w)
    as [[e' He] | (t & ms & rs & ss & Hb)].
  - left. rewrite He in H. now injection H.
  - rewrite (builder_main_outcome os L joinpath _ _ _ _ _ _ Hb) in H.
    destruct (String.eqb_spec (effective_side args w) "both") as [Hboth | _].
    + destruct (creation os _ _ w) as [[]|e1]; [|left; now injection H].
      match type of H with context [creation os ?d ?p ?w0] =>
        destruct (creation os d p w0) as [[]|e2] eqn:Hc end; [discriminate H|].
      injection H as <- <-. right. split; [exact Hboth|].
      exists t, ms, rs, ss. split; [exact Hb|]. split; [reflexivity | exact Hc].
    + destruct (String.eqb (effective_side args w) "client");
        destruct (creation os _ _ w) as [[]|e1]; try discriminate H;
        left; now injection H.
Qed.

(** X22.  [main] of the builder returns exactly when the side is valid,
    the template file holds an object with the required keys, the three
    manifests are arrays of valid entries, and the output directory and
    each archive can be created at its turn; it then returns 0 and has
    written the client archive and then the server archive for both
    sides, and the archive of the side otherwise. *)
Theorem builder_main_returns os L joinpath args w z w' :
  Builder.main os L joinpath args w = (Ok z, w') <->
  exists template_data mod_entries resource_pack_entries shader_pack_entries,
    buildable args w template_data mod_entries resource_pack_entries shader_pack_entries /\
    archives_creatable os L joinpath template_data mod_entries resource_pack_entries
      shader_pack_entries args w /\
    z = 0%Z /\
    w' = after_builds L joinpath template_data mod_entries resource_pack_entries
           shader_pack_entries args w.
Proof.
  split.
  - intros H.
    destruct (builder_main_cases os L joinpath args w)
      as [[e' He] | (t & ms & rs & ss & Hb)].
    + rewrite He in H. discriminate H.
    + exists t, ms, rs, ss. split; [exact Hb|].
      rewrite (builder_main_outcome os L joinpath _ _ _ _ _ _ Hb) in H.
      unfold archives_creatable, after_builds.
      destruct (String.eqb (effective_side args w) "both").
      * destruct (creation os _ _ w) as [[]|e1]; [|discriminate H].
        match type of H with context [creation os ?d ?p ?w0] =>
          destruct (creation os d p w0) as [[]|e2] end; [|discriminate H].
        injection H as <- <-. repeat split.
      * destruct (String.eqb (effective_side args w) "client");
          destruct (creation os _ _ w) as [[]|e1]; try discriminate H;
          injection H as <- <-; repeat split.
  - intros (t & ms & rs & ss & Hb & Hc & -> & ->).
    now apply builder_main_accepts.
Qed.


(** X24.  With both commands at their default paths the builder does not
    read the template that the resolver renders: the resolver leaves
    [modpack/modrinth.template.json] as it was, so that when this file
    is missing before the resolver runs, the builder raises after it,
    whatever the resolver did and whatever [--side] and [--version]
    are. *)
Theorem default_template_not_shared os L R joinpath target_option check_option
    version_option side_option w :
  fs w !! "modpack/modrinth.template.json" = None ->
  exists e,
    Builder.main os L joinpath (Builder.parse_args version_option side_option)
      (snd (main L R (parse_args target_option check_option) w))
    = (Raise e, snd (main L R (parse_args target_option check_option) w)).
Proof.
  intros Hnone.
  set (w' := snd (main L R (parse_args target_option check_option) w)).
  assert (Hframe : fs w' !! "modpack/modrinth.template.json" = None).
  { unfold w'. rewrite main_frame; [exact Hnone|].
    unfold outputs, lock_paths, targets_of, parse_args.
    cbn [target template_out mods_lock resource_packs_lock shader_packs_lock].
    intros Hin. apply List.in_app_iff in Hin as [Hin | Hin].
    - destruct (mem_str "template" _); [|destruct Hin].
      destruct Hin as [Hin | []]. discriminate Hin.
    - apply List.in_map_iff in Hin as ([tgt [entries p]] & Hp & Hin).
      apply List.filter_In in Hin as [Hin _]. cbn [snd] in Hp.
      destruct Hin as [[= <- <- <-] | [[= <- <- <-] | [[= <- <- <-] | []]]];
        discriminate Hp. }
  destruct (builder_main_cases os L joinpath
              (Builder.parse_args version_option side_option) w')
    as [He | (t & ms & rs & ss & _ & [Ht _] & _)]; [exact He|].
  cbn [Builder.parse_args Builder.template] in Ht. rewrite Hframe in Ht. discriminate Ht.
Qed.


Lemma default_template_not_shared_witness :
  exists e,
    Builder.main roomy basic_lib slash (Builder.parse_args "" "client")
      (snd (main basic_lib sample_registry (parse_args "all" false) working_world))
    = (Raise e, snd (main basic_lib sample_registry (parse_args "all" false) working_world)).
Proof.
  apply (default_template_not_shared roomy basic_lib sample_registry slash "all" false ""
           "client" working_world).
  reflexivity.
Defined.

Lemma builder_main_raises_clean_witness :
  snd (Builder.main no_server_directory basic_lib slash sample_build_args
         (snd (main basic_lib sample_registry (sample_args false) working_world)))
  = snd (main basic_lib sample_registry (sample_args false) working_world) \/
  (effective_side sample_build_args
     (snd (main basic_lib sample_registry (sample_args false) working_world)) = "both" /\
   exists template_data mod_entries resource_pack_entries shader_pack_entries,
     buildable sample_build_args
       (snd (main basic_lib sample_registry (sample_args false) working_world))
       template_data mod_entries resource_pack_entries shader_pack_entries /\
     snd (Builder.main no_server_directory basic_lib slash sample_build_args
            (snd (main basic_lib sample_registry (sample_args false) working_world)))
     = after_build basic_lib slash template_data mod_entries resource_pack_entries
         shader_pack_entries "client" "Client" sample_build_args
         (effective_slug sample_build_args
            (snd (main basic_lib sample_registry (sample_args false) working_world)))
         (effective_dist sample_build_args
            (snd (main basic_lib sample_registry (sample_args false) working_world)))
         (snd (main basic_lib sample_registry (sample_args false) working_world)) /\
     creation no_server_directory
       (effective_dist sample_build_args
          (snd (main basic_lib sample_registry (sample_args false) working_world)))
       (side_archive basic_lib slash template_data mod_entries resource_pack_entries
          shader_pack_entries "server" "Server" sample_build_args
          (snd (main basic_lib sample_registry (sample_args false) working_world)))
       (snd (Builder.main no_server_directory basic_lib slash sample_build_args
               (snd (main basic_lib sample_registry (sample_args false) working_world))))
     = Raise (FileNotFoundError
                "[Errno 2] No such file or directory: 'dist/chuj-pack-server-0.1.0.mrpack'")).
Proof.
  apply (builder_main_raises_clean no_server_directory basic_lib slash sample_build_args
           (snd (main basic_lib sample_registry (sample_args false) working_world))
           (FileNotFoundError
              "[Errno 2] No such file or directory: 'dist/chuj-pack-server-0.1.0.mrpack'")).
  vm_compute. reflexivity.
Defined.

Lemma build_pack_index_witness :
  exists out index_data mod_files resource_pack_files shader_pack_files,
    (forall e, creation roomy "dist" out (blank []) = Raise e ->
       Builder.build_pack roomy basic_lib slash sample_template [sodium_entry] [] []
         "server" "Server" sample_build_args "chuj" "dist" (blank []) = (Raise e, blank [])) /\
    (creation roomy "dist" out (blank []) = Ok tt ->
       exists w',
         Builder.build_pack roomy basic_lib slash sample_template [sodium_entry] [] []
           "server" "Server" sample_build_args "chuj" "dist" (blank []) = (Ok tt, w') /\
         fs w' = <[out := VDict [("modrinth.index.json", VDict index_data)]]>
                   (fs (blank []))) /\
    out = slash "dist"
            ("chuj" ++ "-" ++ "server" ++ "-"
             ++ py_str basic_lib (get index_data "versionId") ++ ".mrpack") /\
    build_files basic_lib [sodium_entry] "server" "mods" = Ok mod_files /\
    build_files basic_lib [] "server" "resourcepacks" = Ok resource_pack_files /\
    build_files basic_lib [] "server" "shaderpacks" = Ok shader_pack_files /\
    get index_data "files"
    = VList (map VDict (mod_files ++ resource_pack_files ++ shader_pack_files)) /\
    get index_data "name"
    = VStr (py_str basic_lib (get sample_template "name") ++ " (" ++ "Server" ++ ")") /\
    get index_data "summary"
    = VStr (py_str basic_lib (get sample_template "summary") ++ " [" ++ "Server" ++ "]") /\
    get index_data "versionId"
    = (if nonempty (Builder.version sample_build_args)
       then VStr (Builder.version sample_build_args)
       else get sample_template "versionId") /\
    (forall k, ~ In k ["versionId"; "name"; "summary"; "files"] ->
               get index_data k = get sample_template k).
Proof.
  apply (build_pack_index roomy basic_lib slash sample_template
           (VList [VDict sodium_entry]) (VList []) (VList []) "mods.lock.json"
           "resource-packs.lock.json" "shader-packs.lock.json").
  - reflexivity.
  - reflexivity.
  - reflexivity.
  - reflexivity.
Defined.

(** A version id with a slash passes the resolver and every check of the
    builder; the archive it names lies in a directory that nobody made,
    and opening it fails. *)
Example slash_in_version_id :
  fst (main basic_lib sample_registry (sample_args false) beta_world) = Ok 0%Z /\
  Builder.main flat_dist basic_lib slash sample_build_args
    (snd (main basic_lib sample_registry (sample_args false) beta_world))
  = (Raise (FileNotFoundError
              "[Errno 2] No such file or directory: 'dist/chuj-pack-client-1.0/beta.mrpack'"),
     snd (main basic_lib sample_registry (sample_args false) beta_world)) /\
  fst (Builder.main flat_dist basic_lib slash sample_build_args
         (snd (main basic_lib sample_registry (sample_args false) working_world)))
  = Ok 0%Z.
Proof. split; [|split]; vm_compute; reflexivity. Qed.

(** X25.  On a pack file that is missing or holds any parsed document,
    [read_pack_build_defaults] does not raise and changes nothing;
    every default it returns is a non-empty string that the [build]
    table of the pack declaration gives for [slug], [dist_dir] or
    [default_side]. *)
Theorem read_pack_build_defaults_sound p w :
  exists defaults,
    read_pack_build_defaults p w = (Ok defaults, w) /\
    forall key v, In (key, v) defaults ->
      In key ["slug"; "dist_dir"; "default_side"] /\ v <> EmptyString /\
      exists data build,
        fs w !! p = Some (VDict data) /\ get data "build" = VDict build /\
        get build key = VStr v.
Proof.
  unfold read_pack_build_defaults.
  destruct (fs w !! p) as [[| | | | | |data]|];
    try (exists []; split; [reflexivity | intros key v []]).
  destruct (get data "build") as [| | | | | |build] eqn:Hbuild;
    try (exists []; split; [reflexivity | intros key v []]).
  eexists. split; [reflexivity|].
  intros key v Hin. apply List.in_flat_map in Hin as (key' & Hkey & Hin).
  destruct (get build key') as [| | | |s| |] eqn:Hget; try destruct Hin.
  destruct (nonempty s) eqn:Hs; [|destruct Hin].
  destruct Hin as [[= <- <-] | []].
  split; [exact Hkey|]. split; [intros ->; discriminate Hs|].
  exists data, build. now repeat split.
Qed.

(** ** A run of the resolver, category by category *)

Lemma prelude_ok L args disk data template minecraft loader mods_entries
    resource_pack_entries shader_pack_entries :
  disk !! pack args = Some (VDict data) ->
  parse_template data = Ok (template, minecraft, loader) ->
  collect_entries L data "mods" "mods" = Ok mods_entries ->
  collect_entries L data "resourcepacks" "packs" = Ok resource_pack_entries ->
  collect_entries L data "shaderpacks" "packs" = Ok shader_pack_entries ->
  prelude L args disk
  = Ok (template, minecraft, loader, mods_entries, resource_pack_entries,
        shader_pack_entries).
Proof.
  intros Hpack Ht Hm Hr Hs. unfold prelude. rewrite Hpack, Ht, Hm, Hr, Hs. reflexivity.
Qed.

Lemma render_template_writes args template w :
  check args = false ->
  exists w1,
    render_template args template w = (Ok tt, w1) /\
    fs w1 = write_all (fs w) (rendered args template) /\
    requests w1 = requests w.
Proof.
  intros Hcheck. unfold render_template, rendered. rewrite Hcheck.
  destruct (mem_str "template" (targets_of args)); eexists; (split; [reflexivity|]);
    now split.
Qed.

Lemma main_loop_selected L R args minecraft loader targets locks :
  forall w,
    main_loop L R args minecraft loader targets locks w
    = main_loop L R args minecraft loader targets (selected targets locks) w.
Proof.
  induction locks as [|[tgt [entries lock_path]] locks IH]; intros w; [reflexivity|].
  unfold selected in *. cbn [List.filter fst].
  destruct (mem_str tgt targets) eqn:Hin.
  - cbn [main_loop]. rewrite Hin. cbn [negb].
    apply io_bind_ext; [reflexivity|]. intros resolved w1.
    apply io_bind_ext; [reflexivity|]. intros _ w2. apply IH.
  - rewrite main_loop_skip by exact Hin. apply IH.
Qed.

Lemma selected_targets targets locks :
  Forall (fun lock => mem_str (fst lock) targets = true) (selected targets locks).
Proof.
  apply List.Forall_forall. intros lock Hin. now apply List.filter_In in Hin.
Qed.

Lemma category_outcome_run L R minecraft loader tgt entries lock_path w r h' :
  category_outcome L R minecraft loader (tgt, (entries, lock_path)) (requests w) = (r, h') ->
  exists w1,
    resolve_entries L R entries minecraft loader tgt (String.eqb tgt "mods") w = (r, w1) /\
    fs w1 = fs w /\ requests w1 = h'.
Proof.
  unfold category_outcome.
  destruct (resolve_entries_frame L R entries minecraft loader tgt (String.eqb tgt "mods")
              (requests w)) as (r0 & h0 & out & Hframe).
  rewrite (Hframe (blank (requests w)) eq_refl). cbn [requests]. intros [= <- <-].
  eexists. split; [apply Hframe; reflexivity|]. now split.
Qed.

(** The loop over categories that all resolve writes the lock file of
    each and goes on with what follows them. *)
Lemma main_loop_before L R args minecraft loader targets :
  check args = false ->
  forall before w manifests hk,
    Forall (fun lock => mem_str (fst lock) targets = true) before ->
    resolve_categories L R minecraft loader before (requests w) = (Ok manifests, hk) ->
    exists w2,
      fs w2 = write_all (fs w) (lock_files before manifests) /\
      requests w2 = hk /\
      forall rest,
        main_loop L R args minecraft loader targets (before ++ rest)%list w
        = main_loop L R args minecraft loader targets rest w2.
Proof.
  intros Hcheck.
  induction before as [|[tgt [entries lock_path]] before IH]; intros w manifests hk Hsel Hall;
    cbn [resolve_categories] in Hall.
  - injection Hall as <- <-. exists w. now repeat split.
  - apply List.Forall_cons_iff in Hsel as [Hin Hsel]. cbn [fst] in Hin.
    destruct (category_outcome L R minecraft loader (tgt, (entries, lock_path)) (requests w))
      as [[manifest|e] h1] eqn:Ho; [|discriminate Hall].
    destruct (resolve_categories L R minecraft loader before h1)
      as [[ms|e] h2] eqn:Hrest; [|discriminate Hall].
    injection Hall as <- <-.
    apply category_outcome_run in Ho as (w1 & Hr & Hfs & Hq).
    set (w1' := {| fs := <[lock_path := VList (map VDict manifest)]> (fs w1);
                   requests := requests w1;
                   stdout := (stdout w1 ++
                              [("Wrote " ++ tgt ++ " lock -> " ++ lock_path ++ " ("
                                ++ str_of_nat (List.length manifest)
                                ++ " entries)")%string])%list |}).
    destruct (IH w1' ms h2 Hsel) as (w2 & Hfs2 & Hq2 & Hloop).
    { cbn [w1' requests]. now rewrite Hq. }
    exists w2. split; [|split; [exact Hq2|]].
    + rewrite Hfs2. cbn [w1' fs]. rewrite Hfs. reflexivity.
    + intros rest. cbn [app].
      rewrite (main_loop_step _ _ _ _ _ _ _ _ _ _ _ _ _ Hin Hr), Hcheck. apply Hloop.
Qed.

Lemma write_all_app disk a b : write_all disk (a ++ b) = write_all (write_all disk a) b.
Proof. unfold write_all. apply List.fold_left_app. Qed.

(** A reference that fails in a category, after the categories before
    its own have resolved, ends the run. *)
Lemma main_stops L R args w data template minecraft loader mods_entries
    resource_pack_entries shader_pack_entries before tgt entries lock_path after manifests hk
    done entry todo lock_entries hj e h' :
  check args = false ->
  fs w !! pack args = Some (VDict data) ->
  parse_template data = Ok (template, minecraft, loader) ->
  collect_entries L data "mods" "mods" = Ok mods_entries ->
  collect_entries L data "resourcepacks" "packs" = Ok resource_pack_entries ->
  collect_entries L data "shaderpacks" "packs" = Ok shader_pack_entries ->
  selected (targets_of args)
    [ ("mods", (mods_entries, mods_lock args));
      ("resourcepacks", (resource_pack_entries, resource_packs_lock args));
      ("shaderpacks", (shader_pack_entries, shader_packs_lock args)) ]
  = (before ++ (tgt, (entries, lock_path)) :: after)%list ->
  resolve_categories L R minecraft loader before (requests w) = (Ok manifests, hk) ->
  entries = (done ++ entry :: todo)%list ->
  resolve_all L R minecraft loader (String.eqb tgt "mods") done hk = (Ok lock_entries, hj) ->
  List.NoDup (map entry_filename lock_entries) ->
  reference_fails L R minecraft loader tgt (String.eqb tgt "mods") entry hj lock_entries e
    h' ->
  exists w',
    main L R args w = (Raise e, w') /\
    fs w' = write_all (fs w) (rendered args template ++ lock_files before manifests) /\
    requests w' = h'.
Proof.
  intros Hcheck Hpack Ht Hm Hr Hs Hsel Hbefore -> Hdone Hnd Hfail.
  rewrite main_unfold, (prelude_ok L args _ _ _ _ _ _ _ _ Hpack Ht Hm Hr Hs).
  destruct (render_template_writes args template w Hcheck) as (w1 & Hrender & Hfs1 & Hq1).
  unfold io_bind at 1. rewrite Hrender.
  unfold io_bind at 1. rewrite main_loop_selected, Hsel.
  pose proof (selected_targets (targets_of args)
                [ ("mods", (mods_entries, mods_lock args));
                  ("resourcepacks", (resource_pack_entries, resource_packs_lock args));
                  ("shaderpacks", (shader_pack_entries, shader_packs_lock args)) ]) as Hall.
  rewrite Hsel in Hall. apply List.Forall_app in Hall as [Hall_before Hall_rest].
  apply List.Forall_cons_iff in Hall_rest as [Hin _]. cbn [fst] in Hin.
  destruct (main_loop_before L R args minecraft loader (targets_of args) Hcheck before w1
              manifests hk Hall_before) as (w2 & Hfs2 & Hq2 & Hloop).
  { now rewrite Hq1. }
  rewrite Hloop.
  destruct (resolve_entries_stops L R minecraft loader tgt (String.eqb tgt "mods") w2 done
              entry todo lock_entries hj e h') as (w3 & Hrun & Hfs3 & Hq3);
    [now rewrite Hq2 | exact Hnd | exact Hfail |].
  rewrite (main_loop_raise _ _ _ _ _ _ _ _ _ _ _ _ _ Hin Hrun).
  exists w3. split; [reflexivity|]. split; [|exact Hq3].
  now rewrite Hfs3, Hfs2, Hfs1, write_all_app.
Qed.

(** C8, as the code has it.  In a run without [--check], when the
    categories before some category have resolved and, in that category,
    a reference fails after the references before it have resolved
    (resolving it raises, be it for the registry, for the lack of a
    matching version or of a complete file, or it collides with an
    earlier filename), the run raises that error at once: no request is
    made after the failing step, and what has been written is the
    template and the lock files of the categories before, which stay
    written; the lock file of the failing category and those after it
    are not written.  In every run a request that the registry fails is
    the last request, and its exception is what the run raises. *)
Theorem main_fail_fast L R args :
  (forall w data template minecraft loader mods_entries resource_pack_entries
          shader_pack_entries before tgt entries lock_path after manifests hk done entry
          todo lock_entries hj e h',
     check args = false ->
     fs w !! pack args = Some (VDict data) ->
     parse_template data = Ok (template, minecraft, loader) ->
     collect_entries L data "mods" "mods" = Ok mods_entries ->
     collect_entries L data "resourcepacks" "packs" = Ok resource_pack_entries ->
     collect_entries L data "shaderpacks" "packs" = Ok shader_pack_entries ->
     selected (targets_of args)
       [ ("mods", (mods_entries, mods_lock args));
         ("resourcepacks", (resource_pack_entries, resource_packs_lock args));
         ("shaderpacks", (shader_pack_entries, shader_packs_lock args)) ]
     = (before ++ (tgt, (entries, lock_path)) :: after)%list ->
     resolve_categories L R minecraft loader before (requests w) = (Ok manifests, hk) ->
     entries = (done ++ entry :: todo)%list ->
     resolve_all L R minecraft loader (String.eqb tgt "mods") done hk
     = (Ok lock_entries, hj) ->
     List.NoDup (map entry_filename lock_entries) ->
     reference_fails L R minecraft loader tgt (String.eqb tgt "mods") entry hj lock_entries
       e h' ->
     exists w',
       main L R args w = (Raise e, w') /\
       fs w' = write_all (fs w) (rendered args template ++ lock_files before manifests) /\
       requests w' = h') /\
  (forall w r w' pre url post e,
     main L R args w = (r, w') ->
     requests w' = (requests w ++ pre ++ url :: post)%list ->
     R (requests w ++ pre)%list url = Raise e ->
     post = [] /\ r = Raise e).
Proof.
  split.
  - intros. eapply main_stops; eassumption.
  - intros w r w' pre url post e Hmain Hq Hfail.
    destruct (fail_fast_main L R args w _ _ Hmain) as (made & Hmade & Hcase).
    rewrite Hmade in Hq. apply List.app_inv_head in Hq. subst made.
    destruct Hcase as [Hans | (pre' & url' & e' & Heq & Hans & HR & He)].
    + pose proof (Hans pre url post eq_refl) as Hok. rewrite Hfail in Hok. discriminate.
    + destruct (List.exists_last (l := url :: post)) as (post' & last & Hl);
        [discriminate|].
      rewrite Hl, List.app_assoc in Heq. apply List.app_inj_tail in Heq as [<- <-].
      destruct post' as [|x post'].
      * cbn in Hl. injection Hl as <- ->. rewrite List.app_nil_r in HR.
        split; [reflexivity|]. congruence.
      * cbn in Hl. injection Hl as <- Hpost.
        pose proof (Hans pre url post' eq_refl) as Hok. rewrite Hfail in Hok. discriminate.
Qed.

Lemma main_fail_fast_witness :
  exists w',
    main basic_lib sample_registry (sample_args false) sample_world
    = (Raise (RuntimeError
                "Modrinth API returned 404 for https://api.modrinth.com/v2/project/missing/version"),
       w') /\
    fs w'
    = write_all (fs sample_world)
        (rendered (sample_args false) sample_template
         ++ lock_files
              [("mods", ([reference_to "AANobbMI" "both"], "modpack/mods.lock.json"))]
              [[sodium_entry]]) /\
    requests w' = [api_url "AANobbMI"; api_url "missing"].
Proof.
  apply (proj1 (main_fail_fast basic_lib sample_registry (sample_args false))
           sample_world sample_pack_data sample_template "1.20.1" "fabric"
           [reference_to "AANobbMI" "both"] [reference_to "missing" "client"] []
           [("mods", ([reference_to "AANobbMI" "both"], "modpack/mods.lock.json"))]
           "resourcepacks" [reference_to "missing" "client"]
           "modpack/resource-packs.lock.json"
           [("shaderpacks", ([], "modpack/shader-packs.lock.json"))]
           [[sodium_entry]] [api_url "AANobbMI"] [] (reference_to "missing" "client") []
           [] [api_url "AANobbMI"]).
  - reflexivity.
  - reflexivity.
  - vm_compute. reflexivity.
  - vm_compute. reflexivity.
  - vm_compute. reflexivity.
  - vm_compute. reflexivity.
  - vm_compute. reflexivity.
  - vm_compute. reflexivity.
  - reflexivity.
  - vm_compute. reflexivity.
  - constructor.
  - left. vm_compute. reflexivity.
Defined.

(** ** The loader filter, category by category *)

Lemma lock_paths_In targets locks p :
  In p (lock_paths targets locks) -> In p (map (fun lock => snd (snd lock)) locks).
Proof.
  unfold lock_paths. intros H. apply List.in_map_iff in H as (lock & <- & Hin).
  apply List.filter_In in Hin as [Hin _].
  exact (List.in_map (fun lock => snd (snd lock)) _ _ Hin).
Qed.

(** One turn of the loop in a run that returns. *)
Lemma main_loop_category L R args minecraft loader targets tgt entries lock_path rest w w' :
  check args = false ->
  ~ In lock_path (lock_paths targets rest) ->
  main_loop L R args minecraft loader targets ((tgt, (entries, lock_path)) :: rest) w
  = (Ok tt, w') ->
  exists wk,
    main_loop L R args minecraft loader targets rest wk = (Ok tt, w') /\
    category_written L R minecraft (if String.eqb tgt "mods" then Some loader else None)
      (mem_str tgt targets) entries lock_path (requests w) (requests wk) w'.
Proof.
  intros Hcheck Hfresh H. destruct (mem_str tgt targets) eqn:Hin.
  - destruct (resolve_entries L R entries minecraft loader tgt (String.eqb tgt "mods") w)
      as [[resolved|e] w1] eqn:Hr.
    2:{ rewrite (main_loop_raise _ _ _ _ _ _ _ _ _ _ _ _ _ Hin Hr) in H. discriminate H. }
    rewrite (main_loop_step _ _ _ _ _ _ _ _ _ _ _ _ _ Hin Hr), Hcheck in H.
    eexists. split; [exact H|]. cbn [category_written requests].
    apply resolve_entries_ok_inv in Hr as (les & Hall & -> & _).
    exists les, (sort_by_filename L les).
    split; [now apply resolve_all_picked|]. split; [apply sort_by_filename_perm|].
    pose proof (main_loop_untouched L R args minecraft loader targets rest lock_path
                  Hfresh) as Hframe.
    match type of H with
    | main_loop _ _ _ _ _ _ _ ?wk = _ => specialize (Hframe wk)
    end.
    rewrite H in Hframe. cbn [snd fs] in Hframe. rewrite Hframe.
    apply lookup_insert_eq.
  - rewrite main_loop_skip in H by exact Hin. exists w. split; [exact H | reflexivity].
Qed.

(** C3.  [filter_versions] keeps, in order, exactly the versions that
    declare no game version constraint or list the game version, and
    that list the loader when one is given.  [main] gives the loader of
    the declaration to the filter for the category [mods] and no loader
    for the two other categories: in a run without [--check] that
    returns, each selected category has had its references resolved in
    turn, every one to the entry of a version selected among those of
    the registry's answer that pass the filter, with the loader for
    [mods] and without for [resourcepacks] and [shaderpacks], and its
    lock file holds these entries. *)
Theorem filter_versions_policy :
  (forall versions minecraft loader,
     filter_versions versions minecraft loader
     = List.filter (compatible minecraft loader) versions) /\
  (forall versions minecraft loader v,
     In v (filter_versions versions minecraft loader) <->
     In v versions /\
     (no_game_versions_constraint v = true \/ lists_game_version minecraft v = true) /\
     (loader = None \/ exists l, loader = Some l /\ lists_loader l v = true)) /\
  (forall L R args w z w' data template minecraft loader mods_entries resource_pack_entries
          shader_pack_entries,
     check args = false ->
     mods_lock args <> resource_packs_lock args ->
     mods_lock args <> shader_packs_lock args ->
     resource_packs_lock args <> shader_packs_lock args ->
     fs w !! pack args = Some (VDict data) ->
     parse_template data = Ok (template, minecraft, loader) ->
     collect_entries L data "mods" "mods" = Ok mods_entries ->
     collect_entries L data "resourcepacks" "packs" = Ok resource_pack_entries ->
     collect_entries L data "shaderpacks" "packs" = Ok shader_pack_entries ->
     main L R args w = (Ok z, w') ->
     exists h1 h2,
       category_written L R minecraft (Some loader) (mem_str "mods" (targets_of args))
         mods_entries (mods_lock args) (requests w) h1 w' /\
       category_written L R minecraft None (mem_str "resourcepacks" (targets_of args))
         resource_pack_entries (resource_packs_lock args) h1 h2 w' /\
       category_written L R minecraft None (mem_str "shaderpacks" (targets_of args))
         shader_pack_entries (shader_packs_lock args) h2 (requests w') w').
Proof.
  split; [exact filter_versions_filter|]. split.
  - intros versions minecraft loader v.
    rewrite filter_versions_filter, List.filter_In. unfold compatible.
    rewrite Bool.andb_true_iff, Bool.orb_true_iff.
    destruct loader as [l|].
    + split.
      * intros (Hin & Hg & Hl). repeat split; try assumption. right. now exists l.
      * intros (Hin & Hg & [Hl | (l' & [= <-] & Hl)]); [discriminate|]. auto.
    + split.
      * intros (Hin & Hg & _). repeat split; try assumption. now left.
      * intros (Hin & Hg & _). auto.
  - intros L R args w z w' data template minecraft loader m r s Hcheck Hmr Hms Hrs
      Hpack Ht Hm Hr Hs Hmain.
    rewrite main_unfold, (prelude_ok L args _ _ _ _ _ _ _ _ Hpack Ht Hm Hr Hs) in Hmain.
    destruct (render_template_writes args template w Hcheck) as (w1 & Hrender & _ & Hq1).
    unfold io_bind at 1 in Hmain. rewrite Hrender in Hmain.
    unfold io_bind, io_ret in Hmain.
    destruct (main_loop L R args minecraft loader (targets_of args) _ w1)
      as [[[]|e] w2] eqn:Hloop; [|discriminate Hmain].
    injection Hmain as _ <-.
    apply main_loop_category in Hloop as (wa & Hloop & Hmods); [|exact Hcheck|].
    2:{ intros Hin. apply lock_paths_In in Hin. cbn in Hin. intuition congruence. }
    apply main_loop_category in Hloop as (wb & Hloop & Hrp); [|exact Hcheck|].
    2:{ intros Hin. apply lock_paths_In in Hin. cbn in Hin. intuition congruence. }
    apply main_loop_category in Hloop as (wc & Hloop & Hsp); [|exact Hcheck|].
    2:{ intros []. }
    cbn [main_loop] in Hloop. injection Hloop as ->.
    exists (requests wa), (requests wb). rewrite Hq1 in Hmods.
    split; [exact Hmods|]. split; [exact Hrp | exact Hsp].
Qed.

Lemma filter_versions_policy_witness :
  exists h1 h2,
    category_written basic_lib sample_registry "1.20.1" (Some "fabric")
      (mem_str "mods" (targets_of (sample_args false)))
      [reference_to "AANobbMI" "both"] (mods_lock (sample_args false))
      (requests working_world) h1
      (snd (main basic_lib sample_registry (sample_args false) working_world)) /\
    category_written basic_lib sample_registry "1.20.1" None
      (mem_str "resourcepacks" (targets_of (sample_args false)))
      [reference_to "faithful" "client"] (resource_packs_lock (sample_args false)) h1 h2
      (snd (main basic_lib sample_registry (sample_args false) working_world)) /\
    category_written basic_lib sample_registry "1.20.1" None
      (mem_str "shaderpacks" (targets_of (sample_args false)))
      [] (shader_packs_lock (sample_args false)) h2
      (requests (snd (main basic_lib sample_registry (sample_args false) working_world)))
      (snd (main basic_lib sample_registry (sample_args false) working_world)).
Proof.
  apply (proj2 (proj2 filter_versions_policy) basic_lib sample_registry (sample_args false)
           working_world 0%Z
           (snd (main basic_lib sample_registry (sample_args false) working_world))
           working_pack_data sample_template "1.20.1" "fabric").
  - reflexivity.
  - discriminate.
  - discriminate.
  - discriminate.
  - reflexivity.
  - vm_compute. reflexivity.
  - vm_compute. reflexivity.
  - vm_compute. reflexivity.
  - vm_compute. reflexivity.
  - vm_compute. reflexivity.
Defined.
